(** * Gambletron: backtesting core, risk management and metrics

    A shallow embedding of the numerical core of the repository:

    - [src/utils/helpers.py]        (modules [Helpers], [Returns])
    - [src/risk_management/risk.py] (modules [PositionSizer], [RiskMonitor],
                                     [RiskLimits], [StopLossManager],
                                     [CorrelationManager], [Portfolio],
                                     [PortfolioOps])
    - [src/strategies/base.py]      (module [EnsembleStrategy])
    - [src/backtesting/advanced.py] (modules [Advanced], [Statistics])
    - [src/backtesting/engine.py]   (modules [Engine], [Optimizer])
    - [src/backtesting/validator.py] (modules [Validator], [Analysis])

    Numbers.  The Python code computes with binary64 floats.  The embedding is
    written once, over an interface [Arith] of the arithmetic the code uses,
    and is instantiated twice: at Rocq's primitive binary64 floats, which is
    what the interpreter runs (used to evaluate the code on concrete inputs
    and for the facts that rest on the order of doubles and on the special
    values), and at exact rationals [Q], the arithmetic in which the formulas
    of the specification are meant (used for the algebraic facts, which
    rounding would blur).  Structural facts are proved for every instance.
    A bound that is proved over [Q] only says so, and comes with the doubles
    on which rounding, an overflow or a NaN breaks it.

    Errors.  A Python exception is a value [Raise e] of the type [result];
    the division of two Python numbers raises [ZeroDivisionError] on a zero
    divisor ([truediv]), the division of numpy/pandas scalars does not
    ([div], IEEE: it yields an infinity or a NaN).  Values read from a
    DataFrame or returned by pandas are numpy scalars, and so is whatever is
    computed from them; constructor arguments and dataclass fields are Python
    numbers.

    State.  A method that mutates its object takes the object and returns
    the object afterwards, next to its result. *)

From Stdlib Require Import ZArith QArith Qminmax Qabs Lia Lqa List String Floats Uint63.
From stdpp Require Import gmap strings.
From Equations Require Import Equations.
Import ListNotations.

Local Open Scope string_scope.

(* ===================================================================== *)
(** ** Exceptions *)
(* ===================================================================== *)

Inductive exn : Type :=
| ZeroDivisionError
| IndexError
| StrategyError (msg : string).   (* whatever a signal function raises *)

Inductive result (X : Type) : Type :=
| Ok (x : X)
| Raise (e : exn).
Arguments Ok {X} x.
Arguments Raise {X} e.

Definition bind {X Y : Type} (r : result X) (k : X -> result Y) : result Y :=
  match r with
  | Ok x => k x
  | Raise e => Raise e
  end.

Notation "'try!' x := e 'in' k" := (bind e (fun x => k))
  (at level 10, x name, e at level 100, k at level 200).

Definition is_ok {X : Type} (r : result X) : bool :=
  match r with Ok _ => true | Raise _ => false end.

(* ===================================================================== *)
(** ** The arithmetic of the code *)
(* ===================================================================== *)

Declare Scope num_scope.
Delimit Scope num_scope with num.

Class Arith (A : Type) : Type := {
  lit : Q -> A;                 (* a numeric literal of the source *)
  add : A -> A -> A;
  sub : A -> A -> A;
  mul : A -> A -> A;
  div : A -> A -> A;            (* numpy scalars: no exception *)
  absv : A -> A;                (* abs(x) *)
  ltb : A -> A -> bool;         (* x < y *)
  eqb : A -> A -> bool;         (* x == y *)
}.
Arguments lit {A _} q%_Q.

Notation "x + y" := (add x y) : num_scope.
Notation "x - y" := (sub x y) : num_scope.
Notation "x * y" := (mul x y) : num_scope.
Notation "x / y" := (div x y) : num_scope.
Notation "x <? y" := (ltb x y) : num_scope.
Notation "x >? y" := (ltb y x) : num_scope.
Notation "x =? y" := (eqb x y) : num_scope.

Section PythonNumbers.
Context {A : Type} `{Arith A}.
Local Open Scope num_scope.

(** [x / y] on Python numbers. *)
Definition truediv (x y : A) : result A :=
  if y =? lit 0 then Raise ZeroDivisionError else Ok (x / y).

(** The builtins [max(a, b)] and [min(a, b)]: the first argument is kept
    unless the second is strictly larger (smaller). *)
Definition py_max (a b : A) : A := if b >? a then b else a.
Definition py_min (a b : A) : A := if b <? a then b else a.

(** The builtin [sum(xs)]: left to right, from 0. *)
Definition py_sum (xs : list A) : A := fold_left add xs (lit 0).

(** [len(xs)] as a number. *)
Definition of_nat (n : nat) : A := lit (inject_Z (Z.of_nat n)).
End PythonNumbers.

(** binary64: what the interpreter computes with. *)
Definition Z2float (z : Z) : float :=
  match z with
  | Z0 => PrimFloat.of_uint63 (Uint63.of_Z 0)
  | Zpos _ => PrimFloat.of_uint63 (Uint63.of_Z z)
  | Zneg p => PrimFloat.opp (PrimFloat.of_uint63 (Uint63.of_Z (Zpos p)))
  end.

(** A decimal literal is read as the double nearest to it; for the short
    literals of the source that is the correctly rounded quotient of its
    numerator and denominator. *)
Definition Q2float (q : Q) : float :=
  PrimFloat.div (Z2float (Qnum q)) (Z2float (Zpos (Qden q))).

#[export] Instance float_arith : Arith float := {|
  lit := Q2float;
  add := PrimFloat.add;
  sub := PrimFloat.sub;
  mul := PrimFloat.mul;
  div := PrimFloat.div;
  absv := PrimFloat.abs;
  ltb := PrimFloat.ltb;
  eqb := PrimFloat.eqb;
|}.

(** Exact rationals: the arithmetic of the specification's formulas.  [Q]
    has no infinities: [x / 0] is [0] there, and every fact proved at this
    instance divides by a non-zero number only. *)
#[export] Instance Q_arith : Arith Q := {|
  lit := fun q => q;
  add := Qplus;
  sub := Qminus;
  mul := Qmult;
  div := Qdiv;
  absv := Qabs;
  ltb := fun x y => negb (Qle_bool y x);
  eqb := Qeq_bool;
|}.

(* ===================================================================== *)
(** ** src/utils/helpers.py *)
(* ===================================================================== *)

Module Helpers.
Section Generic.
Context {A : Type} `{Arith A}.
Local Open Scope num_scope.

(** [Series.sum()]; the terms are added from left to right. *)
Definition series_sum (xs : list A) : A := fold_left add xs (lit 0).

(** [Series.mean()]: the sum over the count ([nan] on an empty series,
    as the IEEE quotient [0/0]). *)
Definition series_mean (xs : list A) : A :=
  series_sum xs / of_nat (length xs).

(** [calculate_win_rate(trades)], on the ['pnl'] column. *)
Definition calculate_win_rate (pnl : list A) : A :=
  let winning_trades := length (List.filter (fun x => x >? lit 0) pnl) in
  let total_trades := length pnl in
  if (0 <? total_trades)%nat
  then of_nat winning_trades / of_nat total_trades
  else lit 0.

(** [calculate_profit_factor(trades)], on the ['pnl'] column. *)
Definition calculate_profit_factor (pnl : list A) : A :=
  let gross_profit := series_sum (List.filter (fun x => x >? lit 0) pnl) in
  let gross_loss := absv (series_sum (List.filter (fun x => x <? lit 0) pnl)) in
  if gross_loss >? lit 0 then gross_profit / gross_loss else lit 0.

(** [kelly_criterion(win_rate, avg_win, avg_loss)]. *)
Definition kelly_criterion (win_rate avg_win avg_loss : A) : result A :=
  if avg_loss =? lit 0 then Ok (lit 0)
  else truediv (win_rate * avg_win - (lit 1 - win_rate) * avg_loss) avg_win.
End Generic.

(** The ratio statistics need a square root and the special values of
    binary64; they are embedded at [float]. *)
Local Open Scope num_scope.

(** [Series.std()] (sample standard deviation, [ddof = 1]); pandas answers
    [nan] when the series has no more than [ddof] entries. *)
Definition series_std (xs : list float) : float :=
  let n := length xs in
  if (n <=? 1)%nat then PrimFloat.nan
  else
    let avg := series_mean xs in
    let sqr := series_sum (map (fun x => (avg - x) * (avg - x)) xs) in
    PrimFloat.sqrt (sqr / of_nat (n - 1)).

(** [calculate_sharpe_ratio(returns, risk_free_rate, periods_per_year)].
    [risk_free_rate / periods_per_year] divides two Python numbers; the rest
    is arithmetic on pandas/numpy scalars. *)
Definition calculate_sharpe_ratio
    (returns : list float) (risk_free_rate periods_per_year : float)
    : result float :=
  try! per_period := truediv risk_free_rate periods_per_year in
  let excess_returns := map (fun r => r - per_period) returns in
  Ok (PrimFloat.sqrt periods_per_year * series_mean excess_returns
      / series_std excess_returns).

(** The defaults of the signature: [risk_free_rate=0.02],
    [periods_per_year=252]. *)
Definition calculate_sharpe_ratio_default (returns : list float) : result float :=
  calculate_sharpe_ratio returns (lit 0.02) (lit 252).
End Helpers.

(* ===================================================================== *)
(** ** src/risk_management/risk.py *)
(* ===================================================================== *)

Module PositionSizer.
Section Generic.
Context {A : Type} `{Arith A}.
Local Open Scope num_scope.

(** [PositionSizer.kelly_criterion]. *)
Definition kelly_criterion (win_rate avg_win avg_loss kelly_fraction : A)
    : result A :=
  if (avg_loss =? lit 0) || (win_rate =? lit 0) then Ok (lit 0)
  else
    try! kelly := truediv (win_rate * avg_win - (lit 1 - win_rate) * avg_loss)
                          avg_win in
    Ok (py_max (lit 0) (py_min (kelly * kelly_fraction) (lit 1))).

(** [PositionSizer.volatility_based]. *)
Definition volatility_based (volatility target_volatility max_position : A)
    : result A :=
  if volatility =? lit 0 then Ok (lit 0)
  else
    try! ratio := truediv target_volatility volatility in
    Ok (py_max (lit 0) (py_min ratio max_position)).

(** [PositionSizer.fixed_fraction]. *)
Definition fixed_fraction (capital risk_per_trade stop_loss_distance : A)
    : result A :=
  truediv risk_per_trade stop_loss_distance.
End Generic.
End PositionSizer.

Module RiskMonitor.
Section Generic.
Context {A : Type} `{Arith A}.
Local Open Scope num_scope.

Record t : Type := mk {
  max_drawdown : A;
  max_daily_loss : A;
  max_position_size : A;
  peak_capital : A;
  current_capital : A;
  daily_pnl : A;
}.

(** [RiskMonitor.__init__]. *)
Definition init (max_drawdown max_daily_loss max_position_size : A) : t :=
  {| max_drawdown := max_drawdown;
     max_daily_loss := max_daily_loss;
     max_position_size := max_position_size;
     peak_capital := lit 1;
     current_capital := lit 1;
     daily_pnl := lit 0 |}.

(** [RiskMonitor.update_capital]. *)
Definition update_capital (m : t) (new_capital : A) : t :=
  {| max_drawdown := max_drawdown m;
     max_daily_loss := max_daily_loss m;
     max_position_size := max_position_size m;
     peak_capital :=
       if new_capital >? peak_capital m then new_capital else peak_capital m;
     current_capital := new_capital;
     daily_pnl := daily_pnl m |}.

(** The test of the guard of [get_current_drawdown]. *)
Definition peak_is_zero (m : t) : bool := peak_capital m =? lit 0.

(** [RiskMonitor.get_current_drawdown]; the guard is the very test on which
    the division would raise. *)
Definition get_current_drawdown (m : t) : A :=
  if peak_is_zero m then lit 0
  else (peak_capital m - current_capital m) / peak_capital m.

(** [RiskMonitor.is_drawdown_exceeded]. *)
Definition is_drawdown_exceeded (m : t) : bool :=
  get_current_drawdown m >? max_drawdown m.

(** A sequence of [update_capital] calls. *)
Definition updates (m : t) (capitals : list A) : t :=
  fold_left update_capital capitals m.
End Generic.
Arguments t A : clear implicits.
End RiskMonitor.

Module Portfolio.
Section Generic.
Context {A : Type} `{Arith A}.
Local Open Scope num_scope.

(** A value of the [positions] dict. *)
Record Position : Type := mkPosition {
  quantity : A;
  entry_price : A;
  stop_loss : A;
  take_profit : A;
  entry_time : Z;
}.

(** An element of the [trades] list. *)
Record Trade : Type := mkTrade {
  trade_symbol : string;
  trade_entry_price : A;
  trade_exit_price : A;
  trade_quantity : A;
  trade_pnl : A;
  trade_pnl_percent : A;
  trade_entry_time : Z;
  trade_exit_time : Z;
  trade_reason : string;
}.

Record t : Type := mk {
  initial_capital : A;
  current_capital : A;
  positions : gmap string Position;
  trades : list Trade;
  equity_curve : list A;
}.

(** [Portfolio.__init__]. *)
Definition init (initial_capital : A) : t :=
  {| initial_capital := initial_capital;
     current_capital := initial_capital;
     positions := ∅;
     trades := [];
     equity_curve := [initial_capital] |}.

(** [Portfolio.add_position]; [now] is the reading of the clock. *)
Definition add_position (p : t) (symbol : string)
    (quantity entry_price stop_loss take_profit : A) (now : Z) : t :=
  {| initial_capital := initial_capital p;
     current_capital := current_capital p;
     positions :=
       <[symbol := mkPosition quantity entry_price stop_loss take_profit now]>
         (positions p);
     trades := trades p;
     equity_curve := equity_curve p |}.

(** [Portfolio.close_position]: the value returned (or the exception) and
    the portfolio afterwards.  The position is popped before the P&L is
    computed, so a [ZeroDivisionError] on a zero entry price leaves the
    portfolio without the position and without a trade. *)
Definition close_position (p : t) (symbol : string) (exit_price : A)
    (exit_reason : string) (now : Z) : result A * t :=
  match positions p !! symbol with
  | None => (Ok (lit 0), p)
  | Some pos =>
      let popped :=
        {| initial_capital := initial_capital p;
           current_capital := current_capital p;
           positions := delete symbol (positions p);
           trades := trades p;
           equity_curve := equity_curve p |} in
      let pnl := (exit_price - entry_price pos) * quantity pos in
      match truediv (exit_price - entry_price pos) (entry_price pos) with
      | Raise e => (Raise e, popped)
      | Ok pnl_percent =>
          let trade :=
            {| trade_symbol := symbol;
               trade_entry_price := entry_price pos;
               trade_exit_price := exit_price;
               trade_quantity := quantity pos;
               trade_pnl := pnl;
               trade_pnl_percent := pnl_percent;
               trade_entry_time := entry_time pos;
               trade_exit_time := now;
               trade_reason := exit_reason |} in
          (Ok pnl,
           {| initial_capital := initial_capital p;
              current_capital := current_capital p + pnl;
              positions := delete symbol (positions p);
              trades := trades p ++ [trade];
              equity_curve := equity_curve p ++ [current_capital p + pnl] |})
      end
  end.
End Generic.
Arguments t A : clear implicits.
Arguments Position A : clear implicits.
Arguments Trade A : clear implicits.
End Portfolio.

(* ===================================================================== *)
(** ** Market data and signals *)
(* ===================================================================== *)

Module Data.
Section Generic.
Context {A : Type}.

(** A row of the OHLCV frame, with its index entry [time].  The index is
    taken to be free of duplicates (timestamps strictly increase). *)
Record Bar : Type := mkBar {
  time : Z;
  open_ : A;
  high : A;
  low : A;
  close : A;
  volume : A;
}.

Definition DataFrame : Type := list Bar.

(** [df.iloc[:i+1]]. *)
Definition prefix (df : DataFrame) (i : nat) : DataFrame := firstn (S i) df.

(** [df.iloc[a:b]]. *)
Definition slice (df : DataFrame) (a b : nat) : DataFrame :=
  firstn (b - a) (skipn a df).

(** [df.index.get_loc(t)]. *)
Fixpoint get_loc (t : Z) (df : DataFrame) : nat :=
  match df with
  | [] => O
  | b :: rest => if Z.eqb (time b) t then O else S (get_loc t rest)
  end.

(** The rows visited by [for i in range(start, len(df))], each with its
    position [i]. *)
Definition rows_from (start : nat) (df : DataFrame) : list (nat * Bar) :=
  combine (seq start (length df - start)) (skipn start df).

(** A signal: the pair [(signal, confidence)] a strategy returns, or the
    exception it raises. *)
Definition SignalFunc : Type := DataFrame -> result (string * A).
End Generic.
Arguments Bar A : clear implicits.
Arguments DataFrame A : clear implicits.
Arguments SignalFunc A : clear implicits.
End Data.

(* ===================================================================== *)
(** ** src/strategies/base.py: EnsembleStrategy *)
(* ===================================================================== *)

Module EnsembleStrategy.
Section Generic.
Context {A : Type} `{Arith A}.
Local Open Scope num_scope.

(** A sub-strategy, as far as the ensemble uses it. *)
Record BaseStrategy : Type := mkStrategy {
  name : string;
  generate_signal : Data.SignalFunc A;
}.

(** A [dict] from names to weights; Python dicts keep insertion order,
    which is the order in which [sum] adds the values. *)
Definition dict : Type := list (string * A).

(** [d[k] = v]. *)
Fixpoint dict_set (k : string) (v : A) (d : dict) : dict :=
  match d with
  | [] => [(k, v)]
  | (k', v') :: rest =>
      if String.eqb k' k then (k', v) :: rest else (k', v') :: dict_set k v rest
  end.

(** [d.get(k)]. *)
Fixpoint dict_get (k : string) (d : dict) : option A :=
  match d with
  | [] => None
  | (k', v') :: rest => if String.eqb k' k then Some v' else dict_get k rest
  end.

Definition values (d : dict) : list A := map snd d.
Definition keys (d : dict) : list string := map fst d.

Record t : Type := mk {
  sub_strategies : list BaseStrategy;
  weights : dict;
}.

(** [{s.name: 1.0 / len(strategies) for s in strategies}]. *)
Definition equal_weights (strategies : list BaseStrategy) : result dict :=
  fold_left
    (fun acc s =>
       try! d := acc in
       try! w := truediv (lit 1) (of_nat (length strategies)) in
       Ok (dict_set (name s) w d))
    strategies (Ok []).

(** [EnsembleStrategy.__init__]: [weights or {...}] (an empty dict counts
    as absent). *)
Definition init (strategies : list BaseStrategy) (weights : option dict)
    : result t :=
  match weights with
  | Some (kv :: d) => Ok (mk strategies (kv :: d))
  | _ => try! d := equal_weights strategies in Ok (mk strategies d)
  end.

(** [EnsembleStrategy.add_strategy]. *)
Definition add_strategy (e : t) (strategy : BaseStrategy) (weight : option A)
    : result unit * t :=
  let subs := (sub_strategies e ++ [strategy])%list in
  match weight with
  | Some w => (Ok tt, mk subs (dict_set (name strategy) w (weights e)))
  | None =>
      match truediv (lit 1) (of_nat (length subs)) with
      | Ok w => (Ok tt, mk subs (dict_set (name strategy) w (weights e)))
      | Raise x => (Raise x, mk subs (weights e))
      end
  end.

(** [{k: v / total for k, v in d.items()}]. *)
Fixpoint normalized (d : dict) (total : A) : result dict :=
  match d with
  | [] => Ok []
  | (k, v) :: rest =>
      try! v' := truediv v total in
      try! rest' := normalized rest total in
      Ok ((k, v') :: rest')
  end.

(** [EnsembleStrategy.set_strategy_weight].  The assignment
    [self.weights[strategy_name] = weight] is made before the division, so
    it survives an exception. *)
Definition set_strategy_weight (e : t) (strategy_name : string) (weight : A)
    : result unit * t :=
  let assigned := dict_set strategy_name weight (weights e) in
  let total := py_sum (values assigned) in
  match normalized assigned total with
  | Ok d => (Ok tt, mk (sub_strategies e) d)
  | Raise x => (Raise x, mk (sub_strategies e) assigned)
  end.

(** The scores accumulated by the loop of [generate_signal]. *)
Fixpoint scores (e : t) (df : Data.DataFrame A) (subs : list BaseStrategy)
    (buy_score sell_score : A) : result (A * A) :=
  match subs with
  | [] => Ok (buy_score, sell_score)
  | s :: rest =>
      try! sc := generate_signal s df in
      try! dflt := truediv (lit 1) (of_nat (length (sub_strategies e))) in
      let weight :=
        match dict_get (name s) (weights e) with Some w => w | None => dflt end in
      if String.eqb (fst sc) "BUY"
      then scores e df rest (buy_score + snd sc * weight) sell_score
      else if String.eqb (fst sc) "SELL"
      then scores e df rest buy_score (sell_score + snd sc * weight)
      else scores e df rest buy_score sell_score
  end.

(** [EnsembleStrategy.generate_signal]. *)
Definition ensemble_signal (e : t) : Data.SignalFunc A := fun df =>
  match sub_strategies e with
  | [] => Ok ("HOLD", lit 0)
  | _ =>
      try! bs := scores e df (sub_strategies e) (lit 0) (lit 0) in
      let buy_score := fst bs in
      let sell_score := snd bs in
      if (buy_score >? sell_score) && (buy_score >? lit 0.5)
      then Ok ("BUY", buy_score)
      else if (sell_score >? buy_score) && (sell_score >? lit 0.5)
      then Ok ("SELL", sell_score)
      else Ok ("HOLD", lit 0)
  end.
End Generic.
Arguments t A : clear implicits.
Arguments BaseStrategy A : clear implicits.
Arguments dict A : clear implicits.
End EnsembleStrategy.

(* ===================================================================== *)
(** ** src/backtesting/advanced.py *)
(* ===================================================================== *)

Module Advanced.
Import Data.
Section Generic.
Context {A : Type} `{Arith A}.
Local Open Scope num_scope.

Record ExecutionMetrics : Type := mkExecution {
  slippage_bps : A;
  commission_pct : A;
  spread_bps : A;
}.

(** The defaults of the dataclass. *)
Definition default_execution : ExecutionMetrics :=
  {| slippage_bps := lit 2.0; commission_pct := lit 0.001; spread_bps := lit 1.5 |}.

(** [ExecutionMetrics.get_slippage_multiplier]. *)
Definition get_slippage_multiplier (ex : ExecutionMetrics) (direction : string)
    : result A :=
  let base := lit 1 + slippage_bps ex / lit 10000 in
  let spread := lit 1 + spread_bps ex / lit 10000 in
  if String.eqb direction "buy" then Ok (base * spread)
  else truediv (lit 1) (base * spread).

(** [ExecutionMetrics.apply_costs]. *)
Definition apply_costs (ex : ExecutionMetrics) (pnl : A) : A :=
  pnl * (lit 1 - commission_pct ex).

Record Trade : Type := mkTrade {
  symbol : string;
  entry_time : Z;
  exit_time : Z;
  entry_price : A;
  exit_price : A;
  position_size : A;
  gross_pnl : A;
  net_pnl : A;
  net_pnl_pct : A;
  commission_paid : A;
  slippage_cost : A;
  holding_bars : Z;
  reason : string;
  confidence : A;
}.

(** The object [AdvancedBacktester]: its configuration and the three
    attributes [run] mutates. *)
Record t : Type := mk {
  initial_capital : A;
  max_position_pct : A;
  execution : ExecutionMetrics;
  capital : A;
  equity_curve : list A;
  trades : list Trade;
}.

(** [AdvancedBacktester.__init__]. *)
Definition init (initial_capital max_position_pct : A)
    (execution : option ExecutionMetrics) : t :=
  {| initial_capital := initial_capital;
     max_position_pct := max_position_pct;
     execution := match execution with Some ex => ex | None => default_execution end;
     capital := initial_capital;
     equity_curve := [initial_capital];
     trades := [] |}.

(** The locals [entry_price], [entry_time], [entry_confidence] and
    [position_size] of [run]: they are assigned together with
    [position = "LONG"] and read only while the position is open. *)
Record OpenPosition : Type := mkOpen {
  open_price : A;
  open_time : Z;
  open_confidence : A;
  open_size : A;
}.

(** The fields of [BacktestMetrics] the loop and the trade statistics
    fill in. *)
Record BacktestMetrics : Type := mkMetrics {
  starting_capital : A;
  m_trades : list Trade;
  winning_trades : nat;
  losing_trades : nat;
  m_gross_profit : A;
  m_gross_loss : A;
  total_trades : nat;
  ending_capital : A;
  max_capital : A;
  net_profit : A;
  m_equity_curve : list A;
  win_rate : A;
  profit_factor : A;
  total_return : A;
}.

(** The state the loop of [run] carries from bar to bar. *)
Record LoopState : Type := mkLoop {
  self : t;
  position : option OpenPosition;      (* [None], or ["LONG"] with its locals *)
  new_trades : list Trade;             (* [metrics.trades] *)
  wins : nat;                          (* [metrics.winning_trades] *)
  losses : nat;                        (* [metrics.losing_trades] *)
  gross_profit : A;
  gross_loss : A;
  capital_high : A;
}.

Definition start (bt : t) : LoopState :=
  {| self := bt; position := None; new_trades := []; wins := 0; losses := 0;
     gross_profit := lit 0; gross_loss := lit 0;
     capital_high := initial_capital bt |}.

(** [try: signal, confidence = signal_func(current_data)
     except: signal, confidence = "HOLD", 0.0]. *)
Definition guarded (signal_func : SignalFunc A) (current_data : DataFrame A)
    : string * A :=
  match signal_func current_data with
  | Ok sc => sc
  | Raise _ => ("HOLD", lit 0)
  end.

(** The trade record of a closing position and the bookkeeping shared by
    the two places that close one. *)
Definition closed_trade (bt : t) (sym : string) (op : OpenPosition)
    (exit_time : Z) (exit_price : A) (holding_bars : Z) (reason : string)
    : Trade :=
  let gross_pnl := (exit_price - open_price op) * open_size op in
  let commission :=
    absv (open_price op * open_size op) * commission_pct (execution bt)
    + absv (exit_price * open_size op) * commission_pct (execution bt) in
  {| symbol := sym;
     entry_time := open_time op;
     exit_time := exit_time;
     entry_price := open_price op;
     exit_price := exit_price;
     position_size := open_size op;
     gross_pnl := gross_pnl;
     net_pnl := gross_pnl - commission;
     net_pnl_pct := (exit_price - open_price op) / open_price op;
     commission_paid := commission;
     slippage_cost := lit 0;
     holding_bars := holding_bars;
     reason := reason;
     confidence := open_confidence op |}.

(** The first half of an iteration of the main loop, for the row [bar] at
    position [i]: the signal, then the entry or the exit. *)
Definition trade_step (df : DataFrame A) (signal_func : SignalFunc A)
    (sym : string) (st : LoopState) (i : nat) (bar : Bar A) : result LoopState :=
  let bt := self st in
  let current_data := prefix df i in
  let current_price := close bar in
  let current_time := time bar in
  let sc := guarded signal_func current_data in
  let signal := fst sc in
  let conf := snd sc in
  match position st with
  | None =>
      if String.eqb signal "BUY" && (conf >? lit 0.3) then
        (* entry *)
        let size := (capital bt * max_position_pct bt) / current_price in
        try! mult := get_slippage_multiplier (execution bt) "buy" in
        Ok {| self := bt;
              position := Some (mkOpen (current_price * mult) current_time conf size);
              new_trades := new_trades st; wins := wins st; losses := losses st;
              gross_profit := gross_profit st; gross_loss := gross_loss st;
              capital_high := capital_high st |}
      else Ok st
  | Some op =>
      if String.eqb signal "SELL" then
        (* exit *)
        try! mult := get_slippage_multiplier (execution bt) "sell" in
        let holding := (Z.of_nat i - Z.of_nat (get_loc (open_time op) df))%Z in
        let trade :=
          closed_trade bt sym op current_time (current_price * mult) holding "signal" in
        let won := net_pnl trade >? lit 0 in
        Ok {| self :=
                {| initial_capital := initial_capital bt;
                   max_position_pct := max_position_pct bt;
                   execution := execution bt;
                   capital := capital bt + net_pnl trade;
                   equity_curve :=
                     (equity_curve bt ++ [capital bt + net_pnl trade])%list;
                   trades := (trades bt ++ [trade])%list |};
              position := None;
              new_trades := (new_trades st ++ [trade])%list;
              wins := if won then S (wins st) else wins st;
              losses := if won then losses st else S (losses st);
              gross_profit :=
                if won then gross_profit st + gross_pnl trade else gross_profit st;
              gross_loss :=
                if won then gross_loss st
                else gross_loss st + absv (gross_pnl trade);
              capital_high := capital_high st |}
      else Ok st
  end.

(** The second half, "Update equity curve regardless": the capital when
    flat, the capital marked to market when long. *)
Definition mark_step (st1 : LoopState) (current_price : A) : LoopState :=
  let bt1 := self st1 in
  match position st1 with
  | None =>
      {| self :=
           {| initial_capital := initial_capital bt1;
              max_position_pct := max_position_pct bt1;
              execution := execution bt1;
              capital := capital bt1;
              equity_curve := (equity_curve bt1 ++ [capital bt1])%list;
              trades := trades bt1 |};
         position := None;
         new_trades := new_trades st1; wins := wins st1; losses := losses st1;
         gross_profit := gross_profit st1; gross_loss := gross_loss st1;
         capital_high := capital_high st1 |}
  | Some op =>
      let unrealized := (current_price - open_price op) * open_size op in
      let unrealized_equity := capital bt1 + unrealized in
      {| self :=
           {| initial_capital := initial_capital bt1;
              max_position_pct := max_position_pct bt1;
              execution := execution bt1;
              capital := capital bt1;
              equity_curve := (equity_curve bt1 ++ [unrealized_equity])%list;
              trades := trades bt1 |};
         position := Some op;
         new_trades := new_trades st1; wins := wins st1; losses := losses st1;
         gross_profit := gross_profit st1; gross_loss := gross_loss st1;
         capital_high := py_max (capital_high st1) unrealized_equity |}
  end.

(** One iteration of the main loop. *)
Definition step (df : DataFrame A) (signal_func : SignalFunc A) (sym : string)
    (st : LoopState) (i : nat) (bar : Bar A) : result LoopState :=
  try! st1 := trade_step df signal_func sym st i bar in
  Ok (mark_step st1 (close bar)).

(** [for i in range(warmup_periods, len(df)): ...]. *)
Fixpoint loop (df : DataFrame A) (signal_func : SignalFunc A) (sym : string)
    (st : LoopState) (rows : list (nat * Bar A)) : result LoopState :=
  match rows with
  | [] => Ok st
  | (i, bar) :: rest =>
      try! st' := step df signal_func sym st i bar in
      loop df signal_func sym st' rest
  end.

(** "Close any open position": at the last close, with no slippage and no
    entry in the equity curve. *)
Definition close_open (df : DataFrame A) (sym : string) (st : LoopState)
    : LoopState :=
  match position st, last df with
  | Some op, Some final =>
      let bt := self st in
      let holding :=
        (Z.of_nat (length df) - Z.of_nat (get_loc (open_time op) df))%Z in
      let trade :=
        closed_trade bt sym op (time final) (close final) holding "end_of_data" in
      let won := net_pnl trade >? lit 0 in
      {| self :=
           {| initial_capital := initial_capital bt;
              max_position_pct := max_position_pct bt;
              execution := execution bt;
              capital := capital bt + net_pnl trade;
              equity_curve := equity_curve bt;
              trades := (trades bt ++ [trade])%list |};
         position := Some op;
         new_trades := (new_trades st ++ [trade])%list;
         wins := if won then S (wins st) else wins st;
         losses := if won then losses st else S (losses st);
         gross_profit :=
           if won then gross_profit st + gross_pnl trade else gross_profit st;
         gross_loss :=
           if won then gross_loss st else gross_loss st + absv (gross_pnl trade);
         capital_high := capital_high st |}
  | _, _ => st
  end.

(** [max(xs)] on a non-empty list. *)
Definition py_max_list (xs : list A) : A :=
  match xs with
  | [] => lit 0
  | x :: rest => fold_left py_max rest x
  end.

(** [(self.capital - self.initial_capital) / self.initial_capital].
    [self.capital] is the Python number given to the constructor until the
    first trade adds a numpy scalar to it: on a zero initial capital the
    division raises in the first case and yields a NaN or an infinity in the
    second. *)
Definition return_ratio (bt : t) : result A :=
  match trades bt with
  | [] => truediv (capital bt - initial_capital bt) (initial_capital bt)
  | _ :: _ => Ok ((capital bt - initial_capital bt) / initial_capital bt)
  end.

(** "Calculate final metrics" and "Calculate return metrics". *)
Definition finish (st : LoopState) : result (t * BacktestMetrics) :=
  let bt := self st in
  let total := length (trades bt) in
  try! total_return := return_ratio bt in
  Ok (bt,
      {| starting_capital := initial_capital bt;
         m_trades := new_trades st;
         winning_trades := wins st;
         losing_trades := losses st;
         m_gross_profit := gross_profit st;
         m_gross_loss := gross_loss st;
         total_trades := total;
         ending_capital := capital bt;
         max_capital := py_max_list (equity_curve bt);
         net_profit := capital bt - initial_capital bt;
         m_equity_curve := equity_curve bt;
         win_rate :=
           if (0 <? total)%nat then of_nat (wins st) / of_nat total else lit 0;
         profit_factor :=
           if (0 <? total)%nat && (gross_loss st >? lit 0)
           then gross_profit st / gross_loss st else lit 0;
         total_return := total_return |}).

(** [AdvancedBacktester.run(df, signal_func, symbol, warmup_periods)]: the
    backtester after the call and the metrics returned.  The duration
    averages and the ratio statistics computed from the finished equity
    curve are not part of this record; the Sharpe ratio of the curve is
    [sharpe_of_equity] below. *)
Definition run (bt : t) (df : DataFrame A) (signal_func : SignalFunc A)
    (sym : string) (warmup_periods : nat) : result (t * BacktestMetrics) :=
  try! st := loop df signal_func sym (start bt) (rows_from warmup_periods df) in
  finish (close_open df sym st).

(** The number of bars the loop visits. *)
Definition bars_processed (df : DataFrame A) (warmup_periods : nat) : nat :=
  length df - warmup_periods.
End Generic.
Arguments t A : clear implicits.
Arguments Trade A : clear implicits.
Arguments ExecutionMetrics A : clear implicits.
Arguments BacktestMetrics A : clear implicits.
Arguments LoopState A : clear implicits.
Arguments OpenPosition A : clear implicits.

Local Open Scope num_scope.

(** [equity_series.pct_change()] without its leading [nan]. *)
Fixpoint pct_change (xs : list float) : list float :=
  match xs with
  | a :: (b :: _) as rest => (b / a - lit 1) :: pct_change rest
  | _ => []
  end.

(** [.dropna()]. *)
Definition dropna (xs : list float) : list float :=
  List.filter (fun x => negb (PrimFloat.is_nan x)) xs.

(** The Sharpe ratio [run] stores: [metrics.sharpe_ratio] keeps its default
    [0.0] unless there are returns and their deviation is positive. *)
Definition sharpe_of_equity (equity_curve : list float) : float :=
  let returns := dropna (pct_change equity_curve) in
  if (0 <? length returns)%nat then
    if Helpers.series_std returns >? lit 0
    then PrimFloat.sqrt (lit 252) * Helpers.series_mean returns
         / Helpers.series_std returns
    else lit 0
  else lit 0.
End Advanced.

(* ===================================================================== *)
(** ** src/backtesting/engine.py *)
(* ===================================================================== *)

Module Engine.
Import Data.
Section Generic.
Context {A : Type} `{Arith A}.
Local Open Scope num_scope.

Record Trade : Type := mkTrade {
  symbol : string;
  entry_time : Z;
  exit_time : Z;
  entry_price : A;
  exit_price : A;
  position_size : A;
  pnl : A;
  pnl_percent : A;
  reason : string;
}.

(** The object [BacktestEngine]; [strategy] stands for
    [self.strategy.generate_signal]. *)
Record t : Type := mk {
  strategy : SignalFunc A;
  initial_capital : A;
  commission : A;
  slippage_pips : A;
  trades : list Trade;
  equity_curve : list A;
  current_capital : A;
}.

(** [BacktestEngine.__init__]. *)
Definition init (strategy : SignalFunc A)
    (initial_capital commission slippage_pips : A) : t :=
  {| strategy := strategy;
     initial_capital := initial_capital;
     commission := commission;
     slippage_pips := slippage_pips;
     trades := [];
     equity_curve := [initial_capital];
     current_capital := initial_capital |}.

(** The locals [entry_price], [entry_time] and [position_size], assigned
    together with [position = "LONG"]. *)
Record OpenPosition : Type := mkOpen {
  open_price : A;
  open_time : Z;
  open_size : A;
}.

(** The fill prices of the two legs. *)
Definition buy_fill (e : t) (current_price : A) : A :=
  current_price * (lit 1 + slippage_pips e * lit 0.0001).
Definition sell_fill (e : t) (current_price : A) : A :=
  current_price * (lit 1 - slippage_pips e * lit 0.0001).

(** Appending a closed trade: the shared tail of the two closing paths. *)
Definition record_trade (e : t) (trade : Trade) : t :=
  {| strategy := strategy e;
     initial_capital := initial_capital e;
     commission := commission e;
     slippage_pips := slippage_pips e;
     trades := (trades e ++ [trade])%list;
     equity_curve := (equity_curve e ++ [current_capital e + pnl trade])%list;
     current_capital := current_capital e + pnl trade |}.

Definition closed_trade (e : t) (sym : string) (op : OpenPosition)
    (exit_time : Z) (exit_price : A) (reason : string) : Trade :=
  {| symbol := sym;
     entry_time := open_time op;
     exit_time := exit_time;
     entry_price := open_price op;
     exit_price := exit_price;
     position_size := open_size op;
     pnl := (exit_price - open_price op) * open_size op
            - initial_capital e * commission e;
     pnl_percent := (exit_price - open_price op) / open_price op;
     reason := reason |}.

(** One iteration of the loop of [run_backtest].  The call of the strategy
    is not guarded: what it raises leaves the method. *)
Definition step (df : DataFrame A) (sym : string)
    (st : t * option OpenPosition) (i : nat) (bar : Bar A)
    : result (t * option OpenPosition) :=
  let e := fst st in
  let current_data := prefix df i in
  let current_price := close bar in
  let current_time := time bar in
  try! sc := strategy e current_data in
  let signal := fst sc in
  let conf := snd sc in
  match snd st with
  | None =>
      if String.eqb signal "BUY" && (conf >? lit 0.5) then
        let size := initial_capital e * lit 0.05 / current_price in
        Ok (e, Some (mkOpen (buy_fill e current_price) current_time size))
      else Ok st
  | Some op =>
      if String.eqb signal "SELL" then
        let trade :=
          closed_trade e sym op current_time (sell_fill e current_price) "signal" in
        Ok (record_trade e trade, None)
      else Ok st
  end.

Fixpoint loop (df : DataFrame A) (sym : string)
    (st : t * option OpenPosition) (rows : list (nat * Bar A))
    : result (t * option OpenPosition) :=
  match rows with
  | [] => Ok st
  | (i, bar) :: rest =>
      try! st' := step df sym st i bar in
      loop df sym st' rest
  end.

(** "Close any remaining position". *)
Definition close_remaining (df : DataFrame A) (sym : string)
    (st : t * option OpenPosition) : t :=
  match snd st, last df with
  | Some op, Some final =>
      record_trade (fst st)
        (closed_trade (fst st) sym op (time final) (close final) "end_of_data")
  | _, _ => fst st
  end.

(** [BacktestEngine.run_backtest(df, symbol, start_idx)], up to the call of
    [_calculate_results]: the engine after the simulation, or the exception
    that ended it. *)
Definition run_backtest (e : t) (df : DataFrame A) (sym : string)
    (start_idx : nat) : result t :=
  try! st := loop df sym (e, None) (rows_from start_idx df) in
  Ok (close_remaining df sym st).

(** The two statistics [_calculate_results] takes from the trade list. *)
Definition results_win_rate (e : t) : A :=
  if (0 <? length (trades e))%nat
  then Helpers.calculate_win_rate (map pnl (trades e)) else lit 0.
Definition results_profit_factor (e : t) : A :=
  if (0 <? length (trades e))%nat
  then Helpers.calculate_profit_factor (map pnl (trades e)) else lit 0.
End Generic.
Arguments t A : clear implicits.
Arguments Trade A : clear implicits.
Arguments OpenPosition A : clear implicits.
End Engine.

(* ===================================================================== *)
(** ** src/backtesting/validator.py: walk-forward analysis *)
(* ===================================================================== *)

Module Validator.
Import Data.

Section Windows.
Variables (train_period test_period step len : nat).
(** With [step = 0] the [while] loop of the source does not advance. *)
Hypothesis step_pos : (0 < step)%nat.

(** The values [i] takes in
    [while i + train_period + test_period < len(df): ...; i += step]. *)
Equations? window_starts (i : nat) : list nat by wf (len - i)%nat lt :=
  window_starts i with lt_dec (i + train_period + test_period) len := {
    | left _ => i :: window_starts (i + step)%nat;
    | right _ => [] }.
Proof. lia. Qed.
End Windows.

Section Generic.
Context {A : Type} `{Arith A}.
Local Open Scope num_scope.

(** An element of [results["test_results"]] (without the Sharpe ratio,
    which is computed from the equity curve at [float]). *)
Record WindowResult : Type := mkWindow {
  period : nat;
  ret : A;
  window_win_rate : A;
  window_trades : nat;
}.

Record Results : Type := mkResults {
  total_tests : nat;
  avg_return : A;
  avg_win_rate : A;
  profitable_periods : nat;
  test_results : list WindowResult;
}.

(** The body of the loop for the window that starts at [i].  The line it
    prints reads [test_data.index[0]], which fails on an empty slice. *)
Definition run_window (strategy_func : SignalFunc A) (df : DataFrame A)
    (train_period test_period i : nat) : result (Advanced.BacktestMetrics A) :=
  let test_data := slice df (i + train_period) (i + train_period + test_period) in
  match test_data with
  | [] => Raise IndexError
  | _ :: _ =>
      let backtester := Advanced.init (lit 100000) (lit 0.02) None in
      try! r := Advanced.run backtester test_data strategy_func "STOCK" 20 in
      Ok (snd r)
  end.

Fixpoint run_windows (strategy_func : SignalFunc A) (df : DataFrame A)
    (train_period test_period : nat) (starts : list nat)
    (acc : list WindowResult) : result (list WindowResult) :=
  match starts with
  | [] => Ok acc
  | i :: rest =>
      try! metrics := run_window strategy_func df train_period test_period i in
      run_windows strategy_func df train_period test_period rest
        (acc ++ [ {| period := length acc + 1;
                     ret := Advanced.total_return metrics;
                     window_win_rate := Advanced.win_rate metrics;
                     window_trades := Advanced.total_trades metrics |} ])%list
  end.

(** [StrategyValidator.walk_forward_test]. *)
Definition walk_forward_test (strategy_func : SignalFunc A) (df : DataFrame A)
    (train_period test_period step : nat) (step_pos : (0 < step)%nat)
    : result Results :=
  let starts :=
    window_starts train_period test_period step (length df) step_pos 0 in
  try! rs := run_windows strategy_func df train_period test_period starts [] in
  let n := length rs in
  Ok {| total_tests := n;
        avg_return :=
          if (0 <? n)%nat then py_sum (map ret rs) / of_nat n else lit 0;
        avg_win_rate :=
          if (0 <? n)%nat then py_sum (map window_win_rate rs) / of_nat n
          else lit 0;
        profitable_periods :=
          if (0 <? n)%nat
          then length (List.filter (fun r => ret r >? lit 0) rs) else 0%nat;
        test_results := rs |}.
End Generic.
Arguments WindowResult A : clear implicits.
Arguments Results A : clear implicits.

(** The defaults of the signature: [train_period=252], [test_period=63],
    [step=21]. *)
Definition default_step_pos : (0 < 21)%nat := Nat.lt_0_succ 20.
End Validator.


(* ===================================================================== *)
(** ** Further operators of the source *)
(* ===================================================================== *)

(** Unary minus. *)
Class Negate (A : Type) : Type := neg : A -> A.

#[export] Instance float_negate : Negate float := PrimFloat.opp.
#[export] Instance Q_negate : Negate Q := Qopp.

Section MorePythonNumbers.
Context {A : Type} `{Arith A}.
Local Open Scope num_scope.

(** [x <= y]: less than or equal, false as soon as a NaN is involved. *)
Definition py_le (x y : A) : bool := (x <? y) || (x =? y).

(** A NaN is the one value that differs from itself ([isna], [dropna]). *)
Definition py_isnan (x : A) : bool := negb (x =? x).

(** [s in l] for a list of names. *)
Definition name_in (s : string) (l : list string) : bool :=
  existsb (String.eqb s) l.
End MorePythonNumbers.

(* ===================================================================== *)
(** ** src/risk_management/risk.py, continued *)
(* ===================================================================== *)

Module RiskLimits.
Section Generic.
Context {A : Type} `{Arith A} `{Negate A}.
Local Open Scope num_scope.

(** [RiskMonitor.is_daily_loss_exceeded]. *)
Definition is_daily_loss_exceeded (m : RiskMonitor.t A) : bool :=
  RiskMonitor.daily_pnl m <? neg (RiskMonitor.max_daily_loss m).

(** [RiskMonitor.should_stop_trading] (the warnings it logs left out). *)
Definition should_stop_trading (m : RiskMonitor.t A) : bool :=
  if RiskMonitor.is_drawdown_exceeded m then true
  else if is_daily_loss_exceeded m then true
  else false.
End Generic.
End RiskLimits.

Module StopLossManager.
Section Generic.
Context {A : Type} `{Arith A}.
Local Open Scope num_scope.

(** [StopLossManager.update_trailing_stop]. *)
Definition update_trailing_stop (current_price current_stop trailing_distance : A)
    (is_long : bool) : A :=
  if is_long then
    let new_stop := current_price - trailing_distance in
    py_max new_stop current_stop
  else
    let new_stop := current_price + trailing_distance in
    py_min new_stop current_stop.
End Generic.
End StopLossManager.

Module CorrelationManager.
Section Generic.
Context {A : Type} `{Arith A}.
Local Open Scope num_scope.

(** The correlation matrix, as far as the filter reads it: its column and
    row labels and [correlation_matrix.loc[row, column]]. *)
Record CorrelationMatrix : Type := mkMatrix {
  columns : list string;
  index : list string;
  loc : string -> string -> A;
}.

(** The inner loop: the largest absolute correlation of the pair with the
    pairs kept so far. *)
Fixpoint max_corr_with (cm : CorrelationMatrix) (a_pair : string)
    (filtered_pairs : list string) (max_corr : A) : A :=
  match filtered_pairs with
  | [] => max_corr
  | existing_pair :: rest =>
      if name_in a_pair (columns cm) && name_in existing_pair (index cm)
      then max_corr_with cm a_pair rest
             (py_max max_corr (absv (loc cm existing_pair a_pair)))
      else max_corr_with cm a_pair rest max_corr
  end.

(** The outer loop, over [pairs[1:]]. *)
Fixpoint filter_loop (cm : CorrelationMatrix) (max_correlation : A)
    (pairs filtered_pairs : list string) : list string :=
  match pairs with
  | [] => filtered_pairs
  | a_pair :: rest =>
      if py_le (max_corr_with cm a_pair filtered_pairs (lit 0)) max_correlation
      then filter_loop cm max_correlation rest (filtered_pairs ++ [a_pair])%list
      else filter_loop cm max_correlation rest filtered_pairs
  end.

(** [CorrelationManager.filter_correlated_pairs]; [pairs[0]] on an empty
    list is an [IndexError]. *)
Definition filter_correlated_pairs (pairs : list string) (cm : CorrelationMatrix)
    (max_correlation : A) : result (list string) :=
  match pairs with
  | [] => Raise IndexError
  | first :: rest => Ok (filter_loop cm max_correlation rest [first])
  end.
End Generic.
Arguments CorrelationMatrix A : clear implicits.
End CorrelationManager.

Module PortfolioOps.
Section Generic.
Context {A : Type} `{Arith A}.
Local Open Scope num_scope.

(** [Portfolio.get_position_value]. *)
Definition get_position_value (p : Portfolio.t A) (symbol : string)
    (current_price : A) : A :=
  match Portfolio.positions p !! symbol with
  | None => lit 0
  | Some pos => Portfolio.quantity pos * current_price
  end.

(** A call of one of the two mutating methods. *)
Inductive call : Type :=
| AddPosition (symbol : string) (quantity entry_price stop_loss take_profit : A)
              (now : Z)
| ClosePosition (symbol : string) (exit_price : A) (exit_reason : string)
                (now : Z).

(** The portfolio after a call (whether it returned or raised). *)
Definition after (p : Portfolio.t A) (c : call) : Portfolio.t A :=
  match c with
  | AddPosition symbol quantity entry_price stop_loss take_profit now =>
      Portfolio.add_position p symbol quantity entry_price stop_loss take_profit now
  | ClosePosition symbol exit_price exit_reason now =>
      snd (Portfolio.close_position p symbol exit_price exit_reason now)
  end.

(** The portfolio after a sequence of calls. *)
Definition after_all (p : Portfolio.t A) (calls : list call) : Portfolio.t A :=
  fold_left after calls p.
End Generic.
Arguments call A : clear implicits.
End PortfolioOps.

(* ===================================================================== *)
(** ** src/utils/helpers.py, continued *)
(* ===================================================================== *)

Module Returns.
Section Generic.
Context {A : Type} `{Arith A}.
Local Open Scope num_scope.

(** [Series.pct_change()] without its leading NaN. *)
Fixpoint pct_change (xs : list A) : list A :=
  match xs with
  | a :: (b :: _) as rest => (b / a - lit 1) :: pct_change rest
  | _ => []
  end.

(** [.dropna()]. *)
Definition dropna (xs : list A) : list A :=
  List.filter (fun x => negb (py_isnan x)) xs.

(** [calculate_returns(prices)]. *)
Definition calculate_returns (prices : list A) : list A :=
  dropna (pct_change prices).

(** [Series.cumprod()]: numpy's running product, with a NaN entry read as 1
    for the product and put back as a NaN in the result. *)
Fixpoint cumprod_from (acc : A) (xs : list A) : list A :=
  match xs with
  | [] => []
  | x :: rest =>
      if py_isnan x then x :: cumprod_from acc rest
      else (acc * x) :: cumprod_from (acc * x) rest
  end.

Definition cumprod (xs : list A) : list A := cumprod_from (lit 1) xs.

(** [Series.expanding().max()]: the largest value so far, NaN entries left
    out (a NaN only while there is no value yet). *)
Fixpoint expanding_max_from (m : option A) (xs : list A) : list A :=
  match xs with
  | [] => []
  | x :: rest =>
      let m' :=
        if py_isnan x then m
        else match m with
             | None => Some x
             | Some v => Some (if v <? x then x else v)
             end in
      match m' with
      | None => x :: expanding_max_from m' rest       (* still NaN *)
      | Some v => v :: expanding_max_from m' rest
      end
  end.

(** [(cumulative - running_max) / running_max], then [.fillna(0)]. *)
Definition filled_drawdown (cumulative running_max : list A) : list A :=
  map (fun cm =>
         let d := (fst cm - snd cm) / snd cm in
         if py_isnan d then lit 0 else d)
      (combine cumulative running_max).

(** The smallest entry of a non-empty series without NaN ([idxmin], then
    [.loc]). *)
Definition series_min (xs : list A) : A :=
  match xs with
  | [] => lit 0
  | x :: rest => fold_left (fun a y => if y <? a then y else a) rest x
  end.

(** The first component of [calculate_max_drawdown(prices)].  The leading
    entry of [prices.pct_change()] is a NaN, so the first entry of the
    drawdown series is the [0] that [fillna] puts there. *)
Definition calculate_max_drawdown (prices : list A) : A :=
  match prices with
  | [] => lit 0
  | _ :: _ =>
      let cumulative := cumprod (map (fun r => lit 1 + r) (pct_change prices)) in
      let running_max := expanding_max_from None cumulative in
      let drawdown := lit 0 :: filled_drawdown cumulative running_max in
      if forallb (fun d => d =? lit 0) drawdown then lit 0
      else series_min drawdown
  end.
End Generic.
End Returns.

(* ===================================================================== *)
(** ** src/backtesting/advanced.py, continued: statistics of a finished run *)
(* ===================================================================== *)

Module Statistics.
Section Generic.
Context {A : Type} `{Arith A}.
Local Open Scope num_scope.

(** "Count max consecutive losses". *)
Fixpoint count_consecutive (trades : list (Advanced.Trade A))
    (consecutive_losses max_consecutive : nat) : nat :=
  match trades with
  | [] => max_consecutive
  | trade :: rest =>
      if py_le (Advanced.net_pnl trade) (lit 0)
      then count_consecutive rest (S consecutive_losses)
             (Nat.max max_consecutive (S consecutive_losses))
      else count_consecutive rest 0 max_consecutive
  end.

Definition max_consecutive_losses (trades : list (Advanced.Trade A)) : nat :=
  count_consecutive trades 0 0.

(** [equity_series.cummax()]: a NaN entry gives a NaN and is left out of the
    running maximum. *)
Fixpoint cummax_from (m : option A) (xs : list A) : list A :=
  match xs with
  | [] => []
  | x :: rest =>
      if py_isnan x then x :: cummax_from m rest
      else
        let m' := match m with
                  | None => x
                  | Some v => if v <? x then x else v
                  end in
        m' :: cummax_from (Some m') rest
  end.

Definition cummax (xs : list A) : list A := cummax_from None xs.

(** [(equity_series - cummax) / cummax]. *)
Definition drawdown_curve (equity_curve : list A) : list A :=
  map (fun ec => (fst ec - snd ec) / snd ec)
      (combine equity_curve (cummax equity_curve)).

(** [Series.min()]: the smallest entry that is not a NaN (a NaN when there
    is none). *)
Definition nanmin (xs : list A) : A :=
  match Returns.dropna xs with
  | [] => hd (lit 0) xs
  | x :: rest => fold_left (fun a y => if y <? a then y else a) rest x
  end.

(** [metrics.max_drawdown]: computed when there is at least one return,
    [0.0] otherwise. *)
Definition max_drawdown (equity_curve : list A) : A :=
  if (0 <? length (Returns.calculate_returns equity_curve))%nat
  then nanmin (drawdown_curve equity_curve)
  else lit 0.
End Generic.
End Statistics.

(* ===================================================================== *)
(** ** src/backtesting/validator.py, continued *)
(* ===================================================================== *)

Module Analysis.
Section Generic.
Context {A : Type} `{Arith A}.
Local Open Scope num_scope.

(** "Analyze loss streaks" in [analyze_drawdown_recovery]: the streak in
    progress and the list [analysis["consecutive_loss_streaks"]]. *)
Fixpoint loss_streaks_from (trades : list (Advanced.Trade A)) (streak : nat)
    (streaks : list nat) : nat * list nat :=
  match trades with
  | [] => (streak, streaks)
  | trade :: rest =>
      if py_le (Advanced.net_pnl trade) (lit 0)
      then loss_streaks_from rest (S streak) streaks
      else loss_streaks_from rest 0
             (if (0 <? streak)%nat then (streaks ++ [streak])%list else streaks)
  end.

Definition consecutive_loss_streaks (trades : list (Advanced.Trade A)) : list nat :=
  snd (loss_streaks_from trades 0 []).
End Generic.
End Analysis.

(* ===================================================================== *)
(** ** src/backtesting/engine.py, continued: the grid search *)
(* ===================================================================== *)

Module Optimizer.
Section Grid.
Context {V : Type}.

(** [itertools.product] of the value lists: the last list varies fastest. *)
Fixpoint product (values : list (list V)) : list (list V) :=
  match values with
  | [] => [[]]
  | v :: rest => flat_map (fun x => map (cons x) (product rest)) v
  end.

(** [BacktestEngine._generate_parameter_combinations]; [param_grid] is a
    dict, its keys are distinct. *)
Definition _generate_parameter_combinations (param_grid : list (string * list V))
    : list (list (string * V)) :=
  map (fun combination => combine (map fst param_grid) combination)
      (product (map snd param_grid)).

(** [params.update(params_dict)]. *)
Definition update (params params_dict : list (string * V)) : list (string * V) :=
  fold_left (fun d kv => EnsembleStrategy.dict_set (fst kv) (snd kv) d)
            params_dict params.
End Grid.

Section Search.
Context {V R : Type}.
(** [backtest params] stands for the body of the loop between the update of
    the parameters and the comparison: the engine is reset, [run_backtest]
    runs with the strategy's current parameters and its results are returned
    (or its exception leaves the method). *)
Variable backtest : list (string * V) -> result R.
Variable sharpe_ratio : R -> float.

(** The loop of [optimize_parameters]: the strategy's parameters, the best
    Sharpe ratio and the best pair so far. *)
Fixpoint search (combinations : list (list (string * V)))
    (params : list (string * V)) (best_sharpe : float)
    (best : option (list (string * V) * R))
    : result (option (list (string * V) * R) * list (string * V)) :=
  match combinations with
  | [] => Ok (best, params)
  | params_dict :: rest =>
      let params' := update params params_dict in
      try! results := backtest params' in
      if PrimFloat.ltb best_sharpe (sharpe_ratio results)
      then search rest params' (sharpe_ratio results) (Some (params_dict, results))
      else search rest params' best_sharpe best
  end.

(** The results of the runs, in the order of the loop. *)
Fixpoint runs (combinations : list (list (string * V)))
    (params : list (string * V)) : result (list R) :=
  match combinations with
  | [] => Ok []
  | params_dict :: rest =>
      let params' := update params params_dict in
      try! results := backtest params' in
      try! others := runs rest params' in
      Ok (results :: others)
  end.

(** [BacktestEngine.optimize_parameters]: [(best_params, best_results)]
    ([None] for both when no run was better than minus infinity) and the
    parameters the strategy is left with. *)
Definition optimize_parameters (params : list (string * V))
    (parameter_grid : list (string * list V))
    : result (option (list (string * V) * R) * list (string * V)) :=
  search (_generate_parameter_combinations parameter_grid) params
         PrimFloat.neg_infinity None.
End Search.
End Optimizer.

(* ===================================================================== *)
(** ** Auxiliary notions and sample inputs *)
(* ===================================================================== *)

(** *** Notions used in the statements *)

(** What [RiskMonitor.update_capital] keeps true, in exact arithmetic. *)
Definition peak_inv (m : RiskMonitor.t Q) : Prop :=
  (RiskMonitor.current_capital m <= RiskMonitor.peak_capital m)%Q
  /\ (1 <= RiskMonitor.peak_capital m)%Q.

(** What [RiskMonitor.update_capital] keeps true on binary64, special
    values included. *)
Definition peak_inv_float (m : RiskMonitor.t float) : Prop :=
  ltb (RiskMonitor.peak_capital m) (RiskMonitor.current_capital m) = false
  /\ ltb (RiskMonitor.peak_capital m) (lit 1) = false
  /\ PrimFloat.is_nan (RiskMonitor.peak_capital m) = false.

(** [clamp(x, lo, hi)], as the specification writes the Kelly fraction. *)
Definition clamp (x lo hi : Q) : Q := Qmax lo (Qmin x hi).

(** The number of trades closed on a SELL signal (as opposed to the forced
    close at the end of the data). *)
Definition signal_exits {A : Type} (ts : list (Advanced.Trade A)) : nat :=
  length (List.filter (fun t => String.eqb (Advanced.reason t) "signal") ts).

(** A signal function with its failures replaced by [("HOLD", 0.0)]. *)
Definition failures_as_hold {A : Type} `{Arith A} (f : Data.SignalFunc A)
    : Data.SignalFunc A :=
  fun current_data => Ok (Advanced.guarded f current_data).

(** The sum of the stored weights of an ensemble. *)
Definition weight_total {A : Type} `{Arith A} (e : EnsembleStrategy.t A) : A :=
  py_sum (EnsembleStrategy.values (EnsembleStrategy.weights e)).

(** The number of windows the specification states for a series of length
    [L]: [floor((L - 252 - 63)/21) + 1], and 0 when that is negative. *)
Definition stated_window_count (L : Z) : Z :=
  Z.max 0 ((L - 252 - 63) / 21 + 1).

(** *** Sample inputs *)

(** A bar whose four prices are [price]. *)
Definition flat_bar (t : Z) (price : Q) : Data.Bar float :=
  Data.mkBar t (lit price) (lit price) (lit price) (lit price) (lit 1000).

(** Three bars closing at 100, 110 and 120. *)
Definition rising_prices : Data.DataFrame float :=
  [flat_bar 0 100; flat_bar 1 110; flat_bar 2 120].

(** A series of [n] bars closing at 100. *)
Definition flat_series (n : nat) : Data.DataFrame float :=
  map (fun i => flat_bar (Z.of_nat i) 100) (seq 0 n).

(** A signal function that buys on the first bar, sells on the second and
    holds afterwards. *)
Definition buy_sell_hold : Data.SignalFunc float := fun current_data =>
  match length current_data with
  | 1%nat => Ok ("BUY", lit 0.9)
  | 2%nat => Ok ("SELL", lit 0.9)
  | _ => Ok ("HOLD", lit 0)
  end.

(** A signal function that buys on the first bar and holds afterwards. *)
Definition buy_and_hold : Data.SignalFunc float := fun current_data =>
  match length current_data with
  | 1%nat => Ok ("BUY", lit 0.9)
  | _ => Ok ("HOLD", lit 0)
  end.

(** A signal function that always holds, and one that fails on every bar. *)
Definition always_holds : Data.SignalFunc float := fun _ => Ok ("HOLD", lit 0).

Definition always_raises : Data.SignalFunc float := fun _ =>
  Raise (StrategyError "no signal").

(** A sub-strategy that always holds, under a given name. *)
Definition holding {A : Type} `{Arith A} (n : string)
    : EnsembleStrategy.BaseStrategy A :=
  EnsembleStrategy.mkStrategy n (fun _ => Ok ("HOLD", lit 0)).

(** A portfolio holding one GBPUSD position. *)
Definition one_position : Portfolio.t float :=
  Portfolio.add_position (Portfolio.init (lit 100000))
    "GBPUSD" (lit 1000) (lit 1.25) (lit 1.2) (lit 1.3) 0.


(** *** Notions used in the further properties *)

(** The capital after a list of closed trades, added in order. *)
Definition capital_after {A : Type} `{Arith A} (capital : A)
    (trades : list (Advanced.Trade A)) : A :=
  fold_left (fun c t => add c (Advanced.net_pnl t)) trades capital.

(** The successive capitals of [BacktestEngine] along a list of closed
    trades. *)
Fixpoint running_capital {A : Type} `{Arith A} (capital : A)
    (trades : list (Engine.Trade A)) : list A :=
  match trades with
  | [] => []
  | t :: rest =>
      add capital (Engine.pnl t) :: running_capital (add capital (Engine.pnl t)) rest
  end.

(** 1 for an open position, 0 for none. *)
Definition open_count {X : Type} (position : option X) : nat :=
  match position with Some _ => 1 | None => 0 end.


(** What the loop of [AdvancedBacktester.run] maintains, relative to the
    state [st0] it started from and the number [n] of rows processed since:
    the trades recorded since are the same on the backtester and in the
    metrics, every one of them was counted as a win or as a loss, the capital
    is the starting capital plus their net P&L in order, and each took an
    entry bar and an exit bar. *)
Definition accounted {A : Type} `{Arith A} (st0 st : Advanced.LoopState A)
    (n : nat) : Prop :=
  exists closed : list (Advanced.Trade A),
    Advanced.new_trades st = (Advanced.new_trades st0 ++ closed)%list
    /\ Advanced.trades (Advanced.self st)
       = (Advanced.trades (Advanced.self st0) ++ closed)%list
    /\ Advanced.capital (Advanced.self st)
       = capital_after (Advanced.capital (Advanced.self st0)) closed
    /\ (Advanced.wins st + Advanced.losses st
        = Advanced.wins st0 + Advanced.losses st0 + length closed)%nat
    /\ (2 * length closed + open_count (Advanced.position st)
        <= n + open_count (Advanced.position st0))%nat.


(** The capital of [BacktestEngine] after a list of closed trades. *)
Definition engine_capital_after {A : Type} `{Arith A} (capital : A)
    (trades : list (Engine.Trade A)) : A :=
  fold_left (fun c t => add c (Engine.pnl t)) trades capital.

(** The P&L the engine books for a trade: the price difference times the
    size, less the commission rate times the INITIAL capital. *)
Definition engine_pnl_booked {A : Type} `{Arith A} (e : Engine.t A)
    (t : Engine.Trade A) : Prop :=
  Engine.pnl t
  = sub (mul (sub (Engine.exit_price t) (Engine.entry_price t))
             (Engine.position_size t))
        (mul (Engine.initial_capital e) (Engine.commission e)).

(** What the loop of [BacktestEngine.run_backtest] maintains, relative to
    the engine [e0] it started from and the number [n] of rows processed. *)
Definition engine_accounted {A : Type} `{Arith A} (e0 : Engine.t A)
    (st : Engine.t A * option (Engine.OpenPosition A)) (n : nat) : Prop :=
  exists closed : list (Engine.Trade A),
    Engine.trades (fst st) = (Engine.trades e0 ++ closed)%list
    /\ Engine.equity_curve (fst st)
       = (Engine.equity_curve e0
          ++ running_capital (Engine.current_capital e0) closed)%list
    /\ Engine.current_capital (fst st)
       = engine_capital_after (Engine.current_capital e0) closed
    /\ (2 * length closed + open_count (snd st) <= n)%nat
    /\ Engine.initial_capital (fst st) = Engine.initial_capital e0
    /\ Engine.commission (fst st) = Engine.commission e0
    /\ Forall (engine_pnl_booked e0) closed.


(** A signal function that differs from [buy_sell_hold] on frames of one
    row and of more than three rows only. *)
Definition sell_then_hold : Data.SignalFunc float := fun current_data =>
  match length current_data with
  | 2%nat => Ok ("SELL", lit 0.9)
  | 3%nat => Ok ("HOLD", lit 0)
  | _ => Raise (StrategyError "unexpected frame")
  end.


(** The running totals [c + x1], [c + x1 + x2], ... and the last of them. *)
Fixpoint running_sum {A : Type} `{Arith A} (c : A) (xs : list A) : list A :=
  match xs with
  | [] => []
  | x :: rest => add c x :: running_sum (add c x) rest
  end.

Definition sum_from {A : Type} `{Arith A} (c : A) (xs : list A) : A :=
  fold_left add xs c.

(** The ledger of a [Portfolio] that was created with the capital [c]: the
    equity curve lists the capital after each recorded trade, the current
    capital is the last entry, and each trade's P&L is the price difference
    times the quantity. *)
Definition ledger {A : Type} `{Arith A} (c : A) (p : Portfolio.t A) : Prop :=
  Portfolio.initial_capital p = c
  /\ Portfolio.equity_curve p
     = c :: running_sum c (map Portfolio.trade_pnl (Portfolio.trades p))
  /\ Portfolio.current_capital p
     = sum_from c (map Portfolio.trade_pnl (Portfolio.trades p))
  /\ Forall (fun t =>
               Portfolio.trade_pnl t
               = mul (sub (Portfolio.trade_exit_price t)
                          (Portfolio.trade_entry_price t))
                     (Portfolio.trade_quantity t))
            (Portfolio.trades p).


(** The weight [generate_signal] of the ensemble gives a sub-strategy:
    its entry in the dict, or one over the number of sub-strategies. *)
Definition assigned_weight (e : EnsembleStrategy.t Q)
    (s : EnsembleStrategy.BaseStrategy Q) : Q :=
  match EnsembleStrategy.dict_get (EnsembleStrategy.name s)
          (EnsembleStrategy.weights e) with
  | Some w => w
  | None => 1 / inject_Z (Z.of_nat (length (EnsembleStrategy.sub_strategies e)))
  end.

(** The sub-strategy answers on [df] with a confidence in [[0,1]]. *)
Definition confident (df : Data.DataFrame Q)
    (s : EnsembleStrategy.BaseStrategy Q) : Prop :=
  exists (signal : string) (confidence : Q),
    EnsembleStrategy.generate_signal s df = Ok (signal, confidence)
    /\ (0 <= confidence <= 1)%Q.

(** Sub-strategies that always answer with a fixed signal. *)
Definition answering {A : Type} `{Arith A} (n signal : string) (confidence : A)
    : EnsembleStrategy.BaseStrategy A :=
  EnsembleStrategy.mkStrategy n (fun _ => Ok (signal, confidence)).

(** A sub-strategy that fails. *)
Definition failing {A : Type} `{Arith A} (n : string)
    : EnsembleStrategy.BaseStrategy A :=
  EnsembleStrategy.mkStrategy n (fun _ => Raise (StrategyError "no data")).


(** A trade the statistics count as a loss: [trade.net_pnl <= 0]. *)
Definition is_loss {A : Type} `{Arith A} (t : Advanced.Trade A) : bool :=
  py_le (Advanced.net_pnl t) (lit 0).

Definition count_losses {A : Type} `{Arith A} (trades : list (Advanced.Trade A))
    : nat :=
  length (List.filter is_loss trades).


(** The pair [p] is within the limit [max_correlation] of every pair of
    [kept] the correlation matrix knows it with. *)
Definition compatible (cm : CorrelationManager.CorrelationMatrix Q)
    (max_correlation : Q) (kept : list string) (p : string) : Prop :=
  forall a : string,
    In a kept ->
    name_in p (CorrelationManager.columns cm)
    && name_in a (CorrelationManager.index cm) = true ->
    (Qabs (CorrelationManager.loc cm a p) <= max_correlation)%Q.

(** A three-pair correlation matrix: EURUSD and GBPUSD move together. *)
Definition fx_correlations : CorrelationManager.CorrelationMatrix Q :=
  CorrelationManager.mkMatrix
    ["EURUSD"; "GBPUSD"; "USDJPY"] ["EURUSD"; "GBPUSD"; "USDJPY"]
    (fun a b =>
       if String.eqb a b then 1%Q
       else if (String.eqb a "USDJPY" || String.eqb b "USDJPY")%bool then (-0.3)%Q
       else 0.9%Q).

(** A backtest whose Sharpe ratio is the value of the parameter [fast]. *)
Definition fast_period_backtest (params : list (string * float)) : result float :=
  match EnsembleStrategy.dict_get "fast" params with
  | Some v => Ok v
  | None => Raise (StrategyError "no fast period")
  end.


(** A series that never falls. *)
Fixpoint nondecreasing (xs : list Q) : Prop :=
  match xs with
  | a :: (b :: _) as rest => (a <= b)%Q /\ nondecreasing rest
  | _ => True
  end.

(** The smallest of [a] and the entries of [xs], as [Series.min] and
    [idxmin] find it. *)
Definition min_from {A : Type} `{Arith A} (a : A) (xs : list A) : A :=
  fold_left (fun a y => if ltb y a then y else a) xs a.

(** The drawdowns of the entries [xs] against the running maximum, which is
    [m] before them. *)
Definition drawdowns_from {A : Type} `{Arith A} (m : option A) (xs : list A)
    : list A :=
  map (fun ec => div (sub (fst ec) (snd ec)) (snd ec))
      (combine xs (Statistics.cummax_from m xs)).

(** An equity curve that gains 10, loses 22 and recovers 2. *)
Definition sample_equity : list Q := [100; 110; 88; 90]%Q.


(** A trade the metrics count as a win: [net_pnl > 0]. *)
Definition is_win {A : Type} `{Arith A} (t : Advanced.Trade A) : bool :=
  ltb (lit 0) (Advanced.net_pnl t).

(** [metrics.gross_profit] and [metrics.gross_loss] after a list of trades:
    a trade is filed by the sign of its NET P&L and adds its GROSS P&L. *)
Definition gross_profit_from {A : Type} `{Arith A} (g : A)
    (trades : list (Advanced.Trade A)) : A :=
  fold_left (fun g t => if is_win t then add g (Advanced.gross_pnl t) else g)
            trades g.

Definition gross_loss_from {A : Type} `{Arith A} (g : A)
    (trades : list (Advanced.Trade A)) : A :=
  fold_left (fun g t => if is_win t then g else add g (absv (Advanced.gross_pnl t)))
            trades g.

(** How [AdvancedBacktester.run] books a trade under the execution settings
    [ex]: commission on both legs, and a zero in [slippage_cost]. *)
Definition booked {A : Type} `{Arith A} (ex : Advanced.ExecutionMetrics A)
    (t : Advanced.Trade A) : Prop :=
  Advanced.gross_pnl t
  = mul (sub (Advanced.exit_price t) (Advanced.entry_price t))
        (Advanced.position_size t)
  /\ Advanced.commission_paid t
     = add (mul (absv (mul (Advanced.entry_price t) (Advanced.position_size t)))
                (Advanced.commission_pct ex))
           (mul (absv (mul (Advanced.exit_price t) (Advanced.position_size t)))
                (Advanced.commission_pct ex))
  /\ Advanced.net_pnl t = sub (Advanced.gross_pnl t) (Advanced.commission_paid t)
  /\ Advanced.slippage_cost t = lit 0.

(** What the loop of [AdvancedBacktester.run] maintains about the tallies of
    the metrics, relative to the state [st0] it started from. *)
Definition tallied {A : Type} `{Arith A} (st0 st : Advanced.LoopState A) : Prop :=
  exists closed : list (Advanced.Trade A),
    Advanced.new_trades st = (Advanced.new_trades st0 ++ closed)%list
    /\ Advanced.wins st
       = (Advanced.wins st0 + length (List.filter is_win closed))%nat
    /\ Advanced.losses st
       = (Advanced.losses st0
          + length (List.filter (fun t => negb (is_win t)) closed))%nat
    /\ Advanced.gross_profit st = gross_profit_from (Advanced.gross_profit st0) closed
    /\ Advanced.gross_loss st = gross_loss_from (Advanced.gross_loss st0) closed
    /\ Advanced.execution (Advanced.self st) = Advanced.execution (Advanced.self st0)
    /\ Forall (booked (Advanced.execution (Advanced.self st0))) closed.


(** A number with the sign [s], a zero of either sign included; never a
    NaN. *)
Definition sf_signed (s : bool) (x : spec_float) : Prop :=
  match x with
  | S754_zero _ => True
  | S754_infinity s' | S754_finite s' _ _ => s' = s
  | S754_nan => False
  end.

(** Both capitals of a monitor are finite numbers. *)
Definition finite_inv (m : RiskMonitor.t float) : Prop :=
  PrimFloat.is_finite (RiskMonitor.peak_capital m) = true
  /\ PrimFloat.is_finite (RiskMonitor.current_capital m) = true.

(** A double that is a finite number above zero. *)
Definition positive_finite (x : float) : Prop :=
  PrimFloat.is_finite x = true /\ PrimFloat.ltb 0 x = true.

(** On binary64: the absolute correlation of the pair [p] with every pair of
    [kept] the matrix knows it with is not above the limit (a NaN is not
    above anything). *)
Definition within_limit (cm : CorrelationManager.CorrelationMatrix float)
    (max_correlation : float) (kept : list string) (p : string) : Prop :=
  forall a : string,
    In a kept ->
    name_in p (CorrelationManager.columns cm)
    && name_in a (CorrelationManager.index cm) = true ->
    PrimFloat.ltb max_correlation (PrimFloat.abs (CorrelationManager.loc cm a p))
    = false.

(* ===================================================================== *)
(** * Properties *)
(* ===================================================================== *)

(** ** Reading the exact instance *)

Ltac unfold_Q :=
  cbv [lit add sub mul div absv ltb eqb Q_arith of_nat] in *.

Ltac unfold_float :=
  cbv [lit add sub mul div absv ltb eqb float_arith] in *.

Lemma Q_ltb_true (x y : Q) : ltb x y = true <-> (x < y)%Q.
Proof.
  unfold_Q. rewrite negb_true_iff. split; intros Hxy.
  - apply Qnot_le_lt. intros Hle. apply Qle_bool_iff in Hle. congruence.
  - destruct (Qle_bool y x) eqn:E; [|reflexivity].
    apply Qle_bool_iff in E. exfalso. eapply Qlt_not_le; eassumption.
Qed.

Lemma Q_ltb_false (x y : Q) : ltb x y = false <-> (y <= x)%Q.
Proof.
  unfold_Q. rewrite negb_false_iff. apply Qle_bool_iff.
Qed.

Lemma Q_eqb_true (x y : Q) : eqb x y = true <-> (x == y)%Q.
Proof. unfold_Q. apply Qeq_bool_iff. Qed.

Lemma Q_eqb_false (x y : Q) : eqb x y = false <-> ~ (x == y)%Q.
Proof.
  unfold_Q. split; intros Hxy.
  - intros Heq. apply Qeq_bool_iff in Heq. congruence.
  - destruct (Qeq_bool x y) eqn:E; [|reflexivity].
    apply Qeq_bool_iff in E. contradiction.
Qed.

(** ** Portfolio.close_position *)

(** C9.  Closing a symbol that has no open position returns [0.0] and leaves
    the portfolio as it was: capital, open positions, trades and equity
    curve are those before the call. *)
Theorem close_position_absent {A : Type} `{Arith A}
    (p : Portfolio.t A) (symbol : string) (exit_price : A)
    (exit_reason : string) (now : Z) :
  Portfolio.positions p !! symbol = None ->
  let r := Portfolio.close_position p symbol exit_price exit_reason now in
  fst r = Ok (lit 0)
  /\ Portfolio.current_capital (snd r) = Portfolio.current_capital p
  /\ Portfolio.positions (snd r) = Portfolio.positions p
  /\ Portfolio.trades (snd r) = Portfolio.trades p
  /\ Portfolio.equity_curve (snd r) = Portfolio.equity_curve p
  /\ snd r = p.
Proof.
  intros Habsent r. subst r. unfold Portfolio.close_position.
  rewrite Habsent. cbn. repeat split; reflexivity.
Qed.

Lemma close_position_absent_witness :
  Portfolio.positions one_position !! "EURUSD" = None
  /\ fst (Portfolio.close_position one_position "EURUSD" (lit 1.1) "manual" 5)
     = Ok (lit 0)
  /\ snd (Portfolio.close_position one_position "EURUSD" (lit 1.1) "manual" 5)
     = one_position.
Proof.
  assert (Habsent : Portfolio.positions one_position !! "EURUSD" = None)
    by (vm_compute; reflexivity).
  split; [exact Habsent|].
  pose proof (close_position_absent one_position "EURUSD" (lit 1.1) "manual" 5
                Habsent) as Hc.
  cbv zeta in Hc. split; [apply Hc | apply Hc].
Defined.

(** The branch that does find the position removes it and records a trade
    (here the position of [one_position], closed above its entry price). *)
Example close_position_present :
  let r := Portfolio.close_position one_position "GBPUSD" (lit 1.5) "manual" 5 in
  is_ok (fst r) = true
  /\ Portfolio.positions (snd r) !! "GBPUSD" = None
  /\ length (Portfolio.trades (snd r)) = 1%nat
  /\ length (Portfolio.equity_curve (snd r)) = 2%nat.
Proof. vm_compute. repeat split; reflexivity. Qed.

(** ** RiskMonitor *)

Section RiskMonitorQ.
Import RiskMonitor.

Lemma peak_inv_init (md mdl mps : Q) : peak_inv (init md mdl mps).
Proof. split; cbn; unfold_Q; lra. Qed.

Lemma peak_inv_update (m : RiskMonitor.t Q) (c : Q) :
  peak_inv m -> peak_inv (update_capital m c).
Proof.
  intros [Hcur Hpeak]. unfold peak_inv.
  cbn [update_capital peak_capital current_capital].
  destruct (ltb (peak_capital m) c) eqn:E.
  - apply Q_ltb_true in E. split; lra.
  - apply Q_ltb_false in E. split; lra.
Qed.

Lemma peak_inv_updates (cs : list Q) (m : RiskMonitor.t Q) :
  peak_inv m -> peak_inv (updates m cs).
Proof.
  revert m. induction cs as [|c cs IH]; intros m Hm; cbn.
  - exact Hm.
  - apply IH, peak_inv_update, Hm.
Qed.

Lemma peak_inv_drawdown (m : RiskMonitor.t Q) :
  peak_inv m -> peak_is_zero m = false /\ (0 <= get_current_drawdown m)%Q.
Proof.
  intros [Hcur Hpeak].
  assert (Hz : peak_is_zero m = false).
  { unfold peak_is_zero. apply Q_eqb_false. unfold_Q. lra. }
  split; [exact Hz|].
  unfold get_current_drawdown. rewrite Hz. unfold_Q.
  apply Qle_shift_div_l; lra.
Qed.
End RiskMonitorQ.

(** *** Division by zero on binary64 *)

Section BinaryDivision.
Local Open Scope float_scope.

(** A double equal to 0 is one of the two zeros. *)
Lemma float_zero_inv (y : float) :
  (y =? 0) = true -> exists s, Prim2SF y = S754_zero s.
Proof.
  rewrite FloatAxioms.eqb_spec. change (Prim2SF 0) with (S754_zero false).
  destruct (Prim2SF y) as [s| s | |s m e]; cbn; try discriminate.
  - intros _. exists s. reflexivity.
  - destruct s; discriminate.
  - destruct s; discriminate.
Qed.

(** IEEE division by zero: the quotient is an infinity or a NaN. *)
Lemma div_by_zero_not_finite (x y : float) :
  (y =? 0) = true -> is_finite (x / y) = false.
Proof.
  intros Hy. destruct (float_zero_inv y Hy) as [sy Hsy].
  unfold is_finite, is_nan, is_infinity.
  rewrite !FloatAxioms.eqb_spec, FloatAxioms.abs_spec, FloatAxioms.div_spec, Hsy.
  change (Prim2SF infinity) with (S754_infinity false).
  destruct (Prim2SF x) as [sx| sx | |sx mx ex]; cbn; try reflexivity;
    destruct (xorb sx sy); reflexivity.
Qed.
End BinaryDivision.

(** *** The same invariant as the interpreter sees it

    On binary64 the order is read through [SFcompare].  The peak is never
    below the current capital nor below 1.0, and never a NaN, whatever values
    (NaN and infinities included) [update_capital] receives. *)

Section BinaryOrder.

Ltac compare_cases :=
  repeat match goal with
         | H : context [Z.compare ?a ?b] |- _ => destruct (Z.compare_spec a b)
         | |- context [Z.compare ?a ?b] => destruct (Z.compare_spec a b)
         | H : context [Pos.compare ?a ?b] |- _ => destruct (Pos.compare_spec a b)
         | |- context [Pos.compare ?a ?b] => destruct (Pos.compare_spec a b)
         end.

Lemma SFcompare_refl (x : spec_float) :
  x <> S754_nan -> SFcompare x x = Some Eq.
Proof.
  destruct x as [s|s| |s m e]; intros Hx; try congruence; cbn.
  - reflexivity.
  - destruct s; reflexivity.
  - change (Pos.compare_cont Eq m m) with (Pos.compare m m).
    rewrite Z.compare_refl, Pos.compare_refl. destruct s; reflexivity.
Qed.

Lemma SFcompare_antisym (x y : spec_float) :
  SFcompare y x = option_map CompOpp (SFcompare x y).
Proof.
  destruct x as [sx|sx| |sx mx ex], y as [sy|sy| |sy my ey]; cbn;
    try reflexivity; try (destruct sx; reflexivity); try (destruct sy; reflexivity);
    try (destruct sx, sy; reflexivity).
  change (Pos.compare_cont Eq mx my) with (Pos.compare mx my).
  change (Pos.compare_cont Eq my mx) with (Pos.compare my mx).
  rewrite (Z.compare_antisym ex ey), (Pos.compare_antisym mx my).
  destruct sx, sy; cbn; try reflexivity;
    destruct (ex ?= ey)%Z, (mx ?= my)%positive; reflexivity.
Qed.

Lemma SFltb_trans (x y z : spec_float) :
  SFltb x y = true -> SFltb y z = true -> SFltb x z = true.
Proof.
  unfold SFltb.
  destruct x as [sx|sx| |sx mx ex], y as [sy|sy| |sy my ey],
           z as [sz|sz| |sz mz ez]; cbn;
    try discriminate; try (destruct sx, sy, sz; cbn; congruence);
    try (destruct sx, sy; cbn; congruence);
    try (destruct sy, sz; cbn; congruence);
    try (destruct sx, sz; cbn; congruence).
  all: repeat match goal with
         | |- context [Pos.compare_cont Eq ?a ?b] =>
             change (Pos.compare_cont Eq a b) with (Pos.compare a b)
         end.
  all: destruct sx, sy, sz; cbn; try discriminate; try reflexivity.
  all: compare_cases; cbn; try discriminate; try reflexivity; try lia.
Qed.

Local Open Scope float_scope.

Lemma float_is_nan_spec (x : float) :
  PrimFloat.is_nan x = false <-> Prim2SF x <> S754_nan.
Proof.
  unfold PrimFloat.is_nan. rewrite FloatAxioms.eqb_spec. unfold SFeqb. split.
  - intros Hx Hnan. rewrite Hnan in Hx. discriminate.
  - intros Hx. rewrite (SFcompare_refl _ Hx). reflexivity.
Qed.

Lemma float_ltb_irrefl (x : float) : (x <? x) = false.
Proof.
  rewrite FloatAxioms.ltb_spec. unfold SFltb.
  destruct (Prim2SF x) as [s|s| |s m e] eqn:Hx; try reflexivity;
    rewrite SFcompare_refl by discriminate; reflexivity.
Qed.

Lemma float_ltb_trans (x y z : float) :
  (x <? y) = true -> (y <? z) = true -> (x <? z) = true.
Proof. rewrite !FloatAxioms.ltb_spec. apply SFltb_trans. Qed.

(** A strict comparison that succeeds has no NaN on either side. *)
Lemma float_ltb_not_nan (x y : float) :
  (x <? y) = true -> PrimFloat.is_nan x = false /\ PrimFloat.is_nan y = false.
Proof.
  rewrite FloatAxioms.ltb_spec. unfold SFltb. intros Hlt.
  split; apply float_is_nan_spec; intros Hnan; rewrite Hnan in Hlt;
    [|destruct (Prim2SF x)]; discriminate.
Qed.

(** Away from NaN the order is total. *)
Lemma float_not_ltb_leb (x y : float) :
  PrimFloat.is_nan x = false -> PrimFloat.is_nan y = false ->
  (x <? y) = false -> (y <=? x) = true.
Proof.
  rewrite !float_is_nan_spec, FloatAxioms.ltb_spec, FloatAxioms.leb_spec.
  unfold SFltb, SFleb. rewrite (SFcompare_antisym (Prim2SF x) (Prim2SF y)).
  intros Hx Hy.
  assert (Hc : exists c, SFcompare (Prim2SF x) (Prim2SF y) = Some c).
  { destruct (Prim2SF x), (Prim2SF y); try congruence; cbn; eauto. }
  destruct Hc as [c Hc]. rewrite Hc. destruct c; cbn; congruence.
Qed.

Lemma float_ltb_leb (x y : float) : (x <? y) = true -> (x <=? y) = true.
Proof.
  rewrite FloatAxioms.ltb_spec, FloatAxioms.leb_spec. unfold SFltb, SFleb.
  destruct (SFcompare (Prim2SF x) (Prim2SF y)) as [[| |]|]; congruence.
Qed.

(** A zero is below 1.0. *)
Lemma float_zero_below_one (x : float) : (x =? 0) = true -> (x <? 1) = true.
Proof.
  intros Hx. destruct (float_zero_inv x Hx) as [s Hs].
  rewrite FloatAxioms.ltb_spec, Hs. reflexivity.
Qed.
Lemma SFleb_ltb_trans (x y z : spec_float) :
  SFleb x y = true -> SFltb y z = true -> SFltb x z = true.
Proof.
  unfold SFltb, SFleb.
  destruct x as [sx|sx| |sx mx ex], y as [sy|sy| |sy my ey],
           z as [sz|sz| |sz mz ez]; cbn;
    try discriminate; try (destruct sx, sy, sz; cbn; congruence);
    try (destruct sx, sy; cbn; congruence);
    try (destruct sy, sz; cbn; congruence);
    try (destruct sx, sz; cbn; congruence).
  all: repeat match goal with
         | |- context [Pos.compare_cont Eq ?a ?b] =>
             change (Pos.compare_cont Eq a b) with (Pos.compare a b)
         end.
  all: destruct sx, sy, sz; cbn; try discriminate; try reflexivity.
  all: compare_cases; cbn; try discriminate; try reflexivity; try lia.
Qed.

Lemma SFltb_leb_trans (x y z : spec_float) :
  SFltb x y = true -> SFleb y z = true -> SFltb x z = true.
Proof.
  unfold SFltb, SFleb.
  destruct x as [sx|sx| |sx mx ex], y as [sy|sy| |sy my ey],
           z as [sz|sz| |sz mz ez]; cbn;
    try discriminate; try (destruct sx, sy, sz; cbn; congruence);
    try (destruct sx, sy; cbn; congruence);
    try (destruct sy, sz; cbn; congruence);
    try (destruct sx, sz; cbn; congruence).
  all: repeat match goal with
         | |- context [Pos.compare_cont Eq ?a ?b] =>
             change (Pos.compare_cont Eq a b) with (Pos.compare a b)
         end.
  all: destruct sx, sy, sz; cbn; try discriminate; try reflexivity.
  all: compare_cases; cbn; try discriminate; try reflexivity; try lia.
Qed.

Lemma float_leb_ltb_trans (x y z : float) :
  (x <=? y) = true -> (y <? z) = true -> (x <? z) = true.
Proof. rewrite !FloatAxioms.ltb_spec, FloatAxioms.leb_spec. apply SFleb_ltb_trans. Qed.

Lemma float_ltb_leb_trans (x y z : float) :
  (x <? y) = true -> (y <=? z) = true -> (x <? z) = true.
Proof. rewrite !FloatAxioms.ltb_spec, FloatAxioms.leb_spec. apply SFltb_leb_trans. Qed.

(** What is at most a value is not above it. *)
Lemma float_leb_not_ltb (x y : float) : (x <=? y) = true -> (y <? x) = false.
Proof.
  intros Hle. destruct (y <? x) eqn:Hlt; [|reflexivity].
  pose proof (float_leb_ltb_trans x y x Hle Hlt) as Habs.
  rewrite float_ltb_irrefl in Habs. discriminate.
Qed.

Lemma float_leb_not_nan (x y : float) :
  (x <=? y) = true -> PrimFloat.is_nan x = false /\ PrimFloat.is_nan y = false.
Proof.
  rewrite FloatAxioms.leb_spec. unfold SFleb. intros Hle.
  split; apply float_is_nan_spec; intros Hnan; rewrite Hnan in Hle;
    [|destruct (Prim2SF x)]; discriminate.
Qed.

(** [x <= y] as the interpreter decides it: below or equal. *)
Lemma float_py_le (x y : float) : py_le x y = (x <=? y).
Proof.
  unfold py_le. change (ltb x y) with (x <? y). change (eqb x y) with (x =? y).
  rewrite FloatAxioms.ltb_spec, FloatAxioms.eqb_spec, FloatAxioms.leb_spec.
  unfold SFltb, SFeqb, SFleb.
  destruct (SFcompare (Prim2SF x) (Prim2SF y)) as [[| |]|]; reflexivity.
Qed.
End BinaryOrder.

Section BinaryRounding.
Local Open Scope Z_scope.

Lemma iter_pos_preserves {X : Type} (P : X -> Prop) (f : X -> X) :
  (forall x, P x -> P (f x)) ->
  forall (n : positive) (x : X), P x -> P (SpecFloat.iter_pos f n x).
Proof.
  intros Hf. induction n as [n IH|n IH|]; intros x Hx; cbn [SpecFloat.iter_pos].
  - apply IH, IH, Hf, Hx.
  - apply IH, IH, Hx.
  - apply Hf, Hx.
Qed.

Lemma shr_1_nonneg (mrs : shr_record) : 0 <= shr_m mrs -> 0 <= shr_m (shr_1 mrs).
Proof.
  destruct mrs as [m r s]. cbn [shr_m]. intros Hm.
  destruct m as [|[p|p|]|p]; cbn; lia.
Qed.

Lemma shr_fexp_nonneg (m e : Z) (l : location) :
  0 <= m -> 0 <= shr_m (fst (shr_fexp prec emax m e l)).
Proof.
  intros Hm. unfold shr_fexp, shr.
  assert (Hstart : 0 <= shr_m (shr_record_of_loc m l))
    by (destruct l as [|[| |]]; exact Hm).
  destruct (fexp prec emax (Zdigits2 m + e) - e) as [|n|n]; cbn [fst];
    try exact Hstart.
  apply (iter_pos_preserves (fun mrs => 0 <= shr_m mrs)); [|exact Hstart].
  exact shr_1_nonneg.
Qed.

Lemma round_nearest_even_nonneg (m : Z) (l : location) :
  0 <= m -> 0 <= round_nearest_even m l.
Proof.
  intros Hm. destruct l as [|[| |]]; cbn; try lia.
  destruct (Z.even m); lia.
Qed.

(** Rounding a non-negative integer gives the sign it is told, and never a
    NaN. *)
Lemma binary_round_aux_signed (s : bool) (m e : Z) (l : location) :
  0 <= m -> sf_signed s (binary_round_aux prec emax s m e l).
Proof.
  intros Hm. unfold binary_round_aux.
  pose proof (shr_fexp_nonneg m e l Hm) as Hfirst.
  destruct (shr_fexp prec emax m e l) as [mrs' e']. cbn [fst] in Hfirst.
  pose proof (shr_fexp_nonneg _ e' loc_Exact
                (round_nearest_even_nonneg _ (loc_of_shr_record mrs') Hfirst))
    as Hsecond.
  destruct (shr_fexp prec emax _ e' loc_Exact) as [mrs'' e'']. cbn [fst] in Hsecond.
  destruct (shr_m mrs'') as [|p|p]; [exact I| |lia].
  destruct (e'' <=? emax - prec); reflexivity.
Qed.

Lemma binary_normalize_signed (m e : Z) :
  (0 <= m -> sf_signed false (binary_normalize prec emax m e false))
  /\ (m <= 0 -> sf_signed true (binary_normalize prec emax m e false)).
Proof.
  unfold binary_normalize, binary_round.
  destruct m as [|p|p]; split; intros Hm; try exact I; try lia.
  - destruct (shl_align p e _) as [mz ez]. apply binary_round_aux_signed. lia.
  - destruct (shl_align p e _) as [mz ez]. apply binary_round_aux_signed. lia.
Qed.

Lemma div_core_nonneg (mx my : positive) (ex ey : Z) :
  0 <= fst (fst (SFdiv_core_binary prec emax (Z.pos mx) ex (Z.pos my) ey)).
Proof.
  unfold SFdiv_core_binary. cbv zeta.
  match goal with
  | |- context [Z.div_eucl ?a ?b] =>
      assert (Ha : 0 <= a);
      [|pose proof (Z_div_mod a b ltac:(lia)) as Hdiv;
        destruct (Z.div_eucl a b) as [q r]; cbn [fst]]
  end.
  - destruct (ex - ey - _) as [|s|s]; [lia| |lia].
    apply Z.shiftl_nonneg. lia.
  - destruct Hdiv as [Heq Hr]. nia.
Qed.

(** The quotient by a finite number has the product of the signs. *)
Lemma SFdiv_signed (sx sy : bool) (x : spec_float) (my : positive) (ey : Z) :
  sf_signed sx x ->
  sf_signed (xorb sx sy) (SFdiv prec emax x (S754_finite sy my ey)).
Proof.
  intros Hx. destruct x as [s|s| |s mx ex]; cbn [sf_signed] in Hx; cbn [SFdiv].
  - exact I.
  - subst s. reflexivity.
  - contradiction.
  - subst s. pose proof (div_core_nonneg mx my ex ey) as Hq.
    destruct (SFdiv_core_binary prec emax (Z.pos mx) ex (Z.pos my) ey)
      as [[q e'] l]. cbn [fst] in Hq.
    apply binary_round_aux_signed. exact Hq.
Qed.
End BinaryRounding.

Section BinaryAlignment.
Local Open Scope Z_scope.

(** The number of digits of a mantissa. *)
Lemma digits2_pos_bounds (m : positive) :
  2 ^ (Z.pos (digits2_pos m) - 1) <= Z.pos m < 2 ^ Z.pos (digits2_pos m).
Proof.
  induction m as [m IH|m IH|]; cbn [digits2_pos].
  - rewrite Pos2Z.inj_succ.
    replace (Z.succ (Z.pos (digits2_pos m)) - 1) with (Z.pos (digits2_pos m)) by lia.
    rewrite Z.pow_succ_r by lia.
    assert (Hsplit : 2 ^ Z.pos (digits2_pos m)
                     = 2 * 2 ^ (Z.pos (digits2_pos m) - 1)).
    { rewrite <- Z.pow_succ_r by lia. f_equal. lia. }
    rewrite (Pos2Z.inj_xI m). lia.
  - rewrite Pos2Z.inj_succ.
    replace (Z.succ (Z.pos (digits2_pos m)) - 1) with (Z.pos (digits2_pos m)) by lia.
    rewrite Z.pow_succ_r by lia.
    assert (Hsplit : 2 ^ Z.pos (digits2_pos m)
                     = 2 * 2 ^ (Z.pos (digits2_pos m) - 1)).
    { rewrite <- Z.pow_succ_r by lia. f_equal. lia. }
    rewrite (Pos2Z.inj_xO m). lia.
  - cbn. lia.
Qed.

(** What validity says of a mantissa and its exponent. *)
Lemma bounded_mantissa (m : positive) (e : Z) :
  bounded prec emax m e = true ->
  Z.pos m < 2 ^ prec
  /\ SpecFloat.emin prec emax <= e
  /\ (SpecFloat.emin prec emax < e -> 2 ^ (prec - 1) <= Z.pos m).
Proof.
  unfold bounded, canonical_mantissa, fexp. intros Hb.
  apply andb_prop in Hb. destruct Hb as [Hcanon _].
  apply Z.eqb_eq in Hcanon.
  pose proof (digits2_pos_bounds m) as [Hlow Hhigh].
  set (d := Z.pos (digits2_pos m)) in *.
  assert (Hd : d <= prec) by lia.
  split; [|split].
  - apply (Z.lt_le_trans _ (2 ^ d)); [exact Hhigh|].
    apply Z.pow_le_mono_r; lia.
  - lia.
  - intros He. assert (Heq : d = prec) by lia. rewrite <- Heq. exact Hlow.
Qed.

(** Aligning a mantissa to a lower exponent multiplies it by the power of
    two between them. *)
Lemma shl_align_value (m : positive) (e e' : Z) :
  e' <= e -> Z.pos (fst (shl_align m e e')) = Z.pos m * 2 ^ (e - e').
Proof.
  intros He. unfold shl_align.
  destruct (e' - e) as [|d|d] eqn:Hd; cbn [fst].
  - replace (e - e') with 0 by lia. lia.
  - lia.
  - change (Pos.iter xO m d) with (shift_pos d m).
    rewrite shift_pos_correct. replace (e - e') with (Z.pos d) by lia.
    change (2 ^ Z.pos d) with (Z.pow_pos 2 d). lia.
Qed.

(** The aligned mantissas of two valid numbers compare as the numbers'
    magnitudes do: by exponent first, then by mantissa. *)
Lemma aligned_compare (mx my : positive) (ex ey : Z) :
  bounded prec emax mx ex = true -> bounded prec emax my ey = true ->
  (Z.pos (fst (shl_align mx ex (Z.min ex ey)))
     ?= Z.pos (fst (shl_align my ey (Z.min ex ey))))
  = match ex ?= ey with
    | Lt => Lt
    | Gt => Gt
    | Eq => Pos.compare_cont Eq mx my
    end.
Proof.
  intros Hx Hy.
  destruct (bounded_mantissa mx ex Hx) as (Hxhigh & Hxe & Hxlow).
  destruct (bounded_mantissa my ey Hy) as (Hyhigh & Hye & Hylow).
  rewrite !shl_align_value by lia.
  assert (Hprec : 2 ^ prec = 2 * 2 ^ (prec - 1)) by reflexivity.
  destruct (Z.compare_spec ex ey) as [Heq|Hlt|Hgt].
  - subst ey. rewrite Z.min_id, Z.sub_diag, !Z.mul_1_r. reflexivity.
  - rewrite Z.min_l by lia. rewrite Z.sub_diag, Z.mul_1_r.
    apply Z.compare_lt_iff.
    assert (Hpow : 2 <= 2 ^ (ey - ex)).
    { change 2 with (2 ^ 1) at 1. apply Z.pow_le_mono_r; lia. }
    specialize (Hylow ltac:(lia)). nia.
  - rewrite Z.min_r by lia. rewrite Z.sub_diag, Z.mul_1_r.
    apply Z.compare_gt_iff.
    assert (Hpow : 2 <= 2 ^ (ex - ey)).
    { change 2 with (2 ^ 1) at 1. apply Z.pow_le_mono_r; lia. }
    specialize (Hxlow ltac:(lia)). nia.
Qed.

(** The difference of two valid finite numbers has the sign their comparison
    gives. *)
Lemma SFsub_finite_signed (sx sy : bool) (mx my : positive) (ex ey : Z) :
  bounded prec emax mx ex = true -> bounded prec emax my ey = true ->
  match SFcompare (S754_finite sx mx ex) (S754_finite sy my ey) with
  | Some Lt =>
      sf_signed true (SFsub prec emax (S754_finite sx mx ex) (S754_finite sy my ey))
  | Some Gt =>
      sf_signed false (SFsub prec emax (S754_finite sx mx ex) (S754_finite sy my ey))
  | Some Eq =>
      SFsub prec emax (S754_finite sx mx ex) (S754_finite sy my ey)
      = S754_zero false
  | None => False
  end.
Proof.
  intros Hx Hy. pose proof (aligned_compare mx my ex ey Hx Hy) as Halign.
  cbn [SFsub SFcompare]. cbv zeta.
  set (X := Z.pos (fst (shl_align mx ex (Z.min ex ey)))) in *.
  set (Y := Z.pos (fst (shl_align my ey (Z.min ex ey)))) in *.
  assert (HX : 0 < X) by (subst X; lia).
  assert (HY : 0 < Y) by (subst Y; lia).
  set (e := Z.min ex ey).
  destruct sx, sy; cbn [cond_Zopp].
  - (* both negative *)
    destruct (ex ?= ey) eqn:He.
    + destruct (Pos.compare_cont Eq mx my) eqn:Hm; cbn [CompOpp].
      * apply Z.compare_eq in Halign. replace (- X - - Y) with 0 by lia. reflexivity.
      * change (X < Y) in Halign.
        apply (proj1 (binary_normalize_signed (- X - - Y) e)). lia.
      * change (X > Y) in Halign.
        apply (proj2 (binary_normalize_signed (- X - - Y) e)). lia.
    + change (X < Y) in Halign.
      apply (proj1 (binary_normalize_signed (- X - - Y) e)). lia.
    + change (X > Y) in Halign.
      apply (proj2 (binary_normalize_signed (- X - - Y) e)). lia.
  - apply (proj2 (binary_normalize_signed (- X - Y) e)). lia.
  - apply (proj1 (binary_normalize_signed (X - - Y) e)). lia.
  - destruct (ex ?= ey) eqn:He.
    + destruct (Pos.compare_cont Eq mx my) eqn:Hm.
      * apply Z.compare_eq in Halign. replace (X - Y) with 0 by lia. reflexivity.
      * change (X < Y) in Halign.
        apply (proj2 (binary_normalize_signed (X - Y) e)). lia.
      * change (X > Y) in Halign.
        apply (proj1 (binary_normalize_signed (X - Y) e)). lia.
    + change (X < Y) in Halign.
      apply (proj2 (binary_normalize_signed (X - Y) e)). lia.
    + change (X > Y) in Halign.
      apply (proj1 (binary_normalize_signed (X - Y) e)). lia.
Qed.
End BinaryAlignment.

Section BinarySigns.
Local Open Scope float_scope.

(** A double that is neither a NaN nor an infinity is a zero or a finite
    number. *)
Lemma float_finite_spec (x : float) :
  PrimFloat.is_finite x = true ->
  match Prim2SF x with
  | S754_zero _ | S754_finite _ _ _ => True
  | _ => False
  end.
Proof.
  unfold PrimFloat.is_finite, PrimFloat.is_nan, PrimFloat.is_infinity.
  rewrite !FloatAxioms.eqb_spec, FloatAxioms.abs_spec.
  change (Prim2SF infinity) with (S754_infinity false).
  destruct (Prim2SF x) as [s|[|]| |s m e]; cbn; intros Hfin;
    first [exact I | discriminate Hfin].
Qed.

Lemma float_leb_zero_signed (x : float) :
  (0 <=? x) = true <-> sf_signed false (Prim2SF x).
Proof.
  rewrite FloatAxioms.leb_spec. change (Prim2SF 0) with (S754_zero false).
  destruct (Prim2SF x) as [s|[|]| |[|] m e]; cbn; intuition congruence.
Qed.

Lemma float_leb_signed_zero (x : float) :
  (x <=? 0) = true <-> sf_signed true (Prim2SF x).
Proof.
  rewrite FloatAxioms.leb_spec. change (Prim2SF 0) with (S754_zero false).
  destruct (Prim2SF x) as [s|[|]| |[|] m e]; cbn; intuition congruence.
Qed.

(** The difference of two finite doubles has the sign of their comparison:
    it is not below zero when the first is not below the second. *)
Lemma float_sub_signed (x y : float) :
  PrimFloat.is_finite x = true -> PrimFloat.is_finite y = true ->
  ((x <? y) = false -> (0 <=? x - y) = true)
  /\ ((y <? x) = false -> (x - y <=? 0) = true).
Proof.
  intros Hx Hy. apply float_finite_spec in Hx, Hy.
  rewrite float_leb_zero_signed, float_leb_signed_zero.
  rewrite !FloatAxioms.ltb_spec, FloatAxioms.sub_spec.
  pose proof (Prim2SF_valid x) as Hvx. pose proof (Prim2SF_valid y) as Hvy.
  unfold SF64sub, SFltb.
  destruct (Prim2SF x) as [sx|sx| |sx mx ex]; try contradiction;
    destruct (Prim2SF y) as [sy|sy| |sy my ey]; try contradiction.
  - destruct sx, sy; cbn; split; trivial.
  - destruct sy; cbn; split; intros; trivial; discriminate.
  - destruct sx; cbn; split; intros; trivial; discriminate.
  - cbn [valid_binary] in Hvx, Hvy.
    pose proof (SFsub_finite_signed sx sy mx my ex ey Hvx Hvy) as Hsub.
    assert (Hanti :
      SFcompare (S754_finite sy my ey) (S754_finite sx mx ex)
      = match SFcompare (S754_finite sx mx ex) (S754_finite sy my ey) with
        | Some c => Some (CompOpp c)
        | None => None
        end).
    { apply SFcompare_antisym. }
    rewrite Hanti.
    destruct (SFcompare (S754_finite sx mx ex) (S754_finite sy my ey))
      as [[| |]|]; cbn [CompOpp]; try contradiction.
    + rewrite Hsub. split; intros; exact I.
    + split; [discriminate|intros _; exact Hsub].
    + split; [intros _; exact Hsub|discriminate].
Qed.

(** The quotient of a double that is not below zero by a positive finite
    double is not below zero (and not a NaN). *)
Lemma float_div_signed (a p : float) :
  (0 <=? a) = true -> PrimFloat.is_finite p = true -> (0 <? p) = true ->
  (0 <=? a / p) = true.
Proof.
  intros Ha Hp Hpos. apply float_finite_spec in Hp.
  apply float_leb_zero_signed in Ha. apply float_leb_zero_signed.
  rewrite FloatAxioms.ltb_spec in Hpos. change (Prim2SF 0) with (S754_zero false) in Hpos.
  rewrite FloatAxioms.div_spec. unfold SF64div.
  destruct (Prim2SF p) as [s|s| |s m e]; try contradiction; try discriminate.
  destruct s; [discriminate|].
  exact (SFdiv_signed false false (Prim2SF a) m e Ha).
Qed.

(** A finite double that is at least 1.0 is above zero. *)
Lemma float_one_above_zero (p : float) :
  (1 <=? p) = true -> (0 <? p) = true.
Proof.
  rewrite FloatAxioms.leb_spec, FloatAxioms.ltb_spec.
  change (Prim2SF 0) with (S754_zero false).
  change (Prim2SF 1) with (S754_finite false 4503599627370496 (-52)).
  destruct (Prim2SF p) as [s|[|]| |[|] m e]; cbn; try discriminate; reflexivity.
Qed.
End BinarySigns.

Section RiskMonitorFloat.
Import RiskMonitor.

Lemma peak_inv_float_init (md mdl mps : float) :
  peak_inv_float (init md mdl mps).
Proof. repeat split; vm_compute; reflexivity. Qed.

Lemma peak_inv_float_update (m : RiskMonitor.t float) (c : float) :
  peak_inv_float m -> peak_inv_float (update_capital m c).
Proof.
  intros (Hcur & Hone & Hnan). unfold peak_inv_float.
  cbn [update_capital peak_capital current_capital].
  destruct (ltb (peak_capital m) c) eqn:E.
  - change (PrimFloat.ltb (peak_capital m) c = true) in E.
    split; [apply float_ltb_irrefl|]. split.
    + destruct (ltb c (lit 1)) eqn:Hc; [|reflexivity].
      change (PrimFloat.ltb c (lit 1) = true) in Hc.
      pose proof (float_ltb_trans _ _ _ E Hc) as Hlt.
      change (ltb (peak_capital m) (lit 1) = true) in Hlt. congruence.
    + apply (float_ltb_not_nan _ _ E).
  - repeat split; assumption.
Qed.

Lemma peak_inv_float_updates (cs : list float) (m : RiskMonitor.t float) :
  peak_inv_float m -> peak_inv_float (updates m cs).
Proof.
  revert m. induction cs as [|c cs IH]; intros m Hm; cbn.
  - exact Hm.
  - apply IH, peak_inv_float_update, Hm.
Qed.

(** On binary64, for every sequence of capitals: the peak is not below the
    current capital, it is at least 1.0, the guard of [get_current_drawdown]
    is not taken, and the peak is at least the current capital whenever the
    latter is not a NaN. *)
Lemma risk_monitor_float_invariant (md mdl mps : float) (capitals : list float) :
  let m := updates (init md mdl mps) capitals in
  ltb (peak_capital m) (current_capital m) = false
  /\ PrimFloat.leb (lit 1) (peak_capital m) = true
  /\ peak_is_zero m = false
  /\ (PrimFloat.is_nan (current_capital m) = false ->
      PrimFloat.leb (current_capital m) (peak_capital m) = true).
Proof.
  intros m.
  destruct (peak_inv_float_updates capitals (init md mdl mps)
              (peak_inv_float_init md mdl mps)) as (Hcur & Hone & Hnan).
  fold m in Hcur, Hone, Hnan.
  split; [exact Hcur|]. split; [|split].
  - apply float_not_ltb_leb; [exact Hnan|vm_compute; reflexivity|exact Hone].
  - unfold peak_is_zero. destruct (eqb (peak_capital m) (lit 0)) eqn:Hz;
      [|reflexivity].
    apply float_zero_below_one in Hz.
    change (ltb (peak_capital m) (lit 1) = true) in Hz. congruence.
  - intros Hc. apply float_not_ltb_leb; assumption.
Qed.
End RiskMonitorFloat.

Section RiskMonitorFinite.
Import RiskMonitor.

Lemma finite_inv_init (md mdl mps : float) : finite_inv (init md mdl mps).
Proof. split; vm_compute; reflexivity. Qed.

Lemma finite_inv_update (m : RiskMonitor.t float) (c : float) :
  PrimFloat.is_finite c = true -> finite_inv m -> finite_inv (update_capital m c).
Proof.
  intros Hc [Hpeak _]. unfold finite_inv.
  cbn [update_capital peak_capital current_capital].
  split; [|exact Hc]. destruct (ltb (peak_capital m) c); assumption.
Qed.

Lemma finite_inv_updates (cs : list float) (m : RiskMonitor.t float) :
  Forall (fun c => PrimFloat.is_finite c = true) cs ->
  finite_inv m -> finite_inv (updates m cs).
Proof.
  intros Hcs. revert m. induction Hcs as [|c cs Hc _ IH]; intros m Hm; cbn.
  - exact Hm.
  - apply IH, finite_inv_update; assumption.
Qed.

Lemma float_finite_not_nan (x : float) :
  PrimFloat.is_finite x = true -> PrimFloat.is_nan x = false.
Proof.
  unfold PrimFloat.is_finite. destruct (PrimFloat.is_nan x); [discriminate|reflexivity].
Qed.

(** On binary64, for capitals that are finite numbers: the peak is at least
    the current capital and the drawdown is not below zero. *)
Lemma risk_monitor_finite_drawdown (md mdl mps : float) (capitals : list float) :
  List.Forall (fun c => PrimFloat.is_finite c = true) capitals ->
  let m := updates (init md mdl mps) capitals in
  PrimFloat.leb (current_capital m) (peak_capital m) = true
  /\ PrimFloat.leb (lit 1) (peak_capital m) = true
  /\ PrimFloat.leb (lit 0) (get_current_drawdown m) = true
  /\ peak_is_zero m = false.
Proof.
  intros Hfinite m.
  destruct (risk_monitor_float_invariant md mdl mps capitals)
    as (Hcur & Hone & Hzero & Hle).
  destruct (finite_inv_updates capitals (init md mdl mps) Hfinite
              (finite_inv_init md mdl mps)) as [Hpeak Hcurrent].
  fold m in Hcur, Hone, Hzero, Hle, Hpeak, Hcurrent.
  split; [apply Hle, float_finite_not_nan, Hcurrent|].
  split; [exact Hone|]. split; [|exact Hzero].
  unfold get_current_drawdown. rewrite Hzero.
  change (PrimFloat.leb 0 (PrimFloat.div
            (PrimFloat.sub (peak_capital m) (current_capital m))
            (peak_capital m)) = true).
  apply float_div_signed.
  - apply (proj1 (float_sub_signed _ _ Hpeak Hcurrent)). exact Hcur.
  - exact Hpeak.
  - apply float_one_above_zero. exact Hone.
Qed.
End RiskMonitorFinite.

(** In exact arithmetic: the invariant, the sign of the drawdown and the
    guard. *)
Lemma risk_monitor_exact_invariant (md mdl mps : Q) (capitals : list Q) :
  let m := RiskMonitor.updates (RiskMonitor.init md mdl mps) capitals in
  (RiskMonitor.current_capital m <= RiskMonitor.peak_capital m)%Q
  /\ (1 <= RiskMonitor.peak_capital m)%Q
  /\ (0 <= RiskMonitor.get_current_drawdown m)%Q
  /\ RiskMonitor.peak_is_zero m = false.
Proof.
  intros m.
  assert (Hinv : peak_inv m) by apply peak_inv_updates, peak_inv_init.
  destruct (peak_inv_drawdown m Hinv) as [Hz Hdd].
  destruct Hinv as [Hcur Hpeak]. auto.
Qed.

(** C10 (amended).  After any sequence of [update_capital] calls on a fresh
    monitor with capitals that are finite numbers, the peak is at least the
    current capital and at least its initial value 1.0, the drawdown is not
    below zero and the guard [peak_capital == 0] of [get_current_drawdown] is
    never taken: in exact arithmetic, and on binary64 for doubles that are
    neither a NaN nor an infinity.  For every sequence of doubles whatsoever
    the peak is never below the current capital, is at least 1.0 and the
    guard is never taken. *)
Theorem risk_monitor_peak_invariant :
  (forall (md mdl mps : Q) (capitals : list Q),
      let m := RiskMonitor.updates (RiskMonitor.init md mdl mps) capitals in
      (RiskMonitor.current_capital m <= RiskMonitor.peak_capital m)%Q
      /\ (1 <= RiskMonitor.peak_capital m)%Q
      /\ (0 <= RiskMonitor.get_current_drawdown m)%Q
      /\ RiskMonitor.peak_is_zero m = false)
  /\ (forall (md mdl mps : float) (capitals : list float),
        let m := RiskMonitor.updates (RiskMonitor.init md mdl mps) capitals in
        ltb (RiskMonitor.peak_capital m) (RiskMonitor.current_capital m) = false
        /\ PrimFloat.leb (lit 1) (RiskMonitor.peak_capital m) = true
        /\ RiskMonitor.peak_is_zero m = false
        /\ (PrimFloat.is_nan (RiskMonitor.current_capital m) = false ->
            PrimFloat.leb (RiskMonitor.current_capital m)
                          (RiskMonitor.peak_capital m) = true))
  /\ (forall (md mdl mps : float) (capitals : list float),
        Forall (fun c => PrimFloat.is_finite c = true) capitals ->
        let m := RiskMonitor.updates (RiskMonitor.init md mdl mps) capitals in
        PrimFloat.leb (RiskMonitor.current_capital m)
                      (RiskMonitor.peak_capital m) = true
        /\ PrimFloat.leb (lit 1) (RiskMonitor.peak_capital m) = true
        /\ PrimFloat.leb (lit 0) (RiskMonitor.get_current_drawdown m) = true
        /\ RiskMonitor.peak_is_zero m = false).
Proof.
  split; [|split].
  - exact risk_monitor_exact_invariant.
  - exact risk_monitor_float_invariant.
  - exact risk_monitor_finite_drawdown.
Qed.

Lemma risk_monitor_peak_invariant_witness :
  let m := RiskMonitor.updates
             (RiskMonitor.init (lit 0.20) (lit 0.05) (lit 0.05) : RiskMonitor.t float)
             [lit 100000; lit 95000] in
  Forall (fun c => PrimFloat.is_finite c = true) [lit 100000; lit 95000 : float]
  /\ PrimFloat.is_nan (RiskMonitor.current_capital m) = false
  /\ PrimFloat.leb (RiskMonitor.current_capital m) (RiskMonitor.peak_capital m)
     = true
  /\ PrimFloat.leb (lit 0) (RiskMonitor.get_current_drawdown m) = true
  /\ RiskMonitor.peak_is_zero m = false.
Proof.
  intros m.
  assert (Hfinite : Forall (fun c => PrimFloat.is_finite c = true)
                           [lit 100000; lit 95000 : float])
    by (repeat constructor).
  assert (Hnan : PrimFloat.is_nan (RiskMonitor.current_capital m) = false)
    by (vm_compute; reflexivity).
  destruct (proj2 (proj2 risk_monitor_peak_invariant)
              (lit 0.20) (lit 0.05) (lit 0.05) [lit 100000; lit 95000] Hfinite)
    as (_ & _ & Hdd & Hzero).
  split; [exact Hfinite|]. split; [exact Hnan|].
  split; [|split; [exact Hdd|exact Hzero]].
  exact (proj2 (proj2 (proj2 (proj1 (proj2 risk_monitor_peak_invariant)
                                (lit 0.20) (lit 0.05) (lit 0.05)
                                [lit 100000; lit 95000]))) Hnan).
Defined.

(** A capital that is no finite number breaks the order and the sign: after
    [update_capital(inf)] the drawdown is [(inf - inf) / inf], a NaN, which
    is not at least zero; after [update_capital(nan)] the peak stays at 1.0
    against a current capital of NaN, and [peak >= current] is false. *)
Lemma risk_monitor_drawdown_nan :
  (let m := RiskMonitor.updates
              (RiskMonitor.init (lit 0.20) (lit 0.05) (lit 0.05))
              [PrimFloat.infinity] in
   PrimFloat.is_nan (RiskMonitor.get_current_drawdown m) = true
   /\ PrimFloat.leb (lit 0) (RiskMonitor.get_current_drawdown m) = false)
  /\ (let m := RiskMonitor.updates
                 (RiskMonitor.init (lit 0.20) (lit 0.05) (lit 0.05))
                 [PrimFloat.nan] in
      PrimFloat.leb (RiskMonitor.current_capital m) (RiskMonitor.peak_capital m)
      = false).
Proof. repeat split; vm_compute; reflexivity. Qed.

(** The run of the repository's test: up to 100000, down to 95000, a drawdown
    of five percent, as the interpreter computes it. *)
Example risk_monitor_run :
  let m0 := RiskMonitor.init (lit 0.20) (lit 0.05) (lit 0.05) : RiskMonitor.t float in
  let m1 := RiskMonitor.update_capital m0 (lit 100000) in
  let m2 := RiskMonitor.update_capital m1 (lit 95000) in
  RiskMonitor.get_current_drawdown m1 = lit 0
  /\ RiskMonitor.peak_capital m2 = lit 100000
  /\ RiskMonitor.get_current_drawdown m2 = lit 0.05
  /\ RiskMonitor.is_drawdown_exceeded m2 = false.
Proof. vm_compute. repeat split; reflexivity. Qed.

(** ** Kelly position sizing *)

Lemma py_min_Q (x y : Q) : (py_min x y == Qmin x y)%Q.
Proof.
  unfold py_min. destruct (ltb y x) eqn:E.
  - apply Q_ltb_true in E. symmetry. apply Q.min_r. lra.
  - apply Q_ltb_false in E. symmetry. apply Q.min_l. exact E.
Qed.

Lemma py_max_Q (x y : Q) : (py_max x y == Qmax x y)%Q.
Proof.
  unfold py_max. destruct (ltb x y) eqn:E.
  - apply Q_ltb_true in E. symmetry. apply Q.max_r. lra.
  - apply Q_ltb_false in E. symmetry. apply Q.max_l. exact E.
Qed.

Lemma clamp_unit_range (x : Q) : (0 <= clamp x 0 1 <= 1)%Q.
Proof.
  unfold clamp. split.
  - apply Q.le_max_l.
  - apply Q.max_lub; [lra|apply Q.le_min_r].
Qed.

Lemma truediv_Q_ok (x y : Q) : ~ (y == 0)%Q -> truediv x y = Ok (x / y)%Q.
Proof.
  intros Hy. unfold truediv. apply Q_eqb_false in Hy.
  cbv [lit Q_arith] in *. rewrite Hy. reflexivity.
Qed.

(** [PositionSizer.kelly_criterion] with no average loss or no wins. *)
Lemma kelly_zero (w aw al f : Q) :
  (al == 0 \/ w == 0)%Q -> PositionSizer.kelly_criterion w aw al f = Ok 0%Q.
Proof.
  intros Hz. unfold PositionSizer.kelly_criterion.
  destruct Hz as [Hz|Hz]; apply Q_eqb_true in Hz; cbv [lit Q_arith] in *;
    rewrite Hz; [reflexivity | rewrite orb_true_r; reflexivity].
Qed.

(** [PositionSizer.kelly_criterion] on the branch that computes. *)
Lemma kelly_clamped (w aw al f : Q) :
  ~ (al == 0)%Q -> ~ (w == 0)%Q -> ~ (aw == 0)%Q ->
  exists r : Q,
    PositionSizer.kelly_criterion w aw al f = Ok r
    /\ (r == clamp (f * ((w * aw - (1 - w) * al) / aw)) 0 1)%Q.
Proof.
  intros Hal Hw Haw. unfold PositionSizer.kelly_criterion.
  apply Q_eqb_false in Hal, Hw. cbv [lit Q_arith] in Hal, Hw |- *.
  rewrite Hal, Hw. cbn [orb].
  rewrite (truediv_Q_ok _ aw Haw). cbn [bind].
  eexists. split; [reflexivity|].
  unfold clamp. rewrite py_max_Q, py_min_Q. unfold_Q.
  apply Q.max_compat; [reflexivity|].
  apply Q.min_compat; [|reflexivity].
  ring.
Qed.

(** On binary64 the value returned is in [[0,1]] for all arguments, special
    values included: [min] and [max] keep a NaN out of the result. *)
Lemma kelly_float_range (w aw al f r : float) :
  PositionSizer.kelly_criterion w aw al f = Ok r ->
  PrimFloat.leb (lit 0) r = true /\ PrimFloat.leb r (lit 1) = true.
Proof.
  unfold PositionSizer.kelly_criterion.
  destruct (_ || _).
  { intros [= <-]. split; vm_compute; reflexivity. }
  destruct (truediv _ aw) as [kelly|x]; cbn [bind]; [|discriminate].
  intros [= <-]. unfold py_max, py_min. unfold_float.
  set (x := PrimFloat.mul kelly f).
  destruct (PrimFloat.ltb (Q2float 1) x) eqn:Hone.
  { split; vm_compute; reflexivity. }
  destruct (PrimFloat.ltb (Q2float 0) x) eqn:Hzero.
  - split; [apply float_ltb_leb; exact Hzero|].
    apply float_not_ltb_leb;
      [vm_compute; reflexivity | apply (float_ltb_not_nan _ _ Hzero) | exact Hone].
  - split; vm_compute; reflexivity.
Qed.

(** C7 (amended).  Kelly sizing returns 0 when [avg_loss == 0] or
    [win_rate == 0]; otherwise, for a non-zero [avg_win], it returns
    [clamp(kelly_fraction * (win_rate*avg_win - (1-win_rate)*avg_loss)/avg_win, 0, 1)],
    a value of [[0,1]]; and with [win_rate=0.55], [avg_win=1.5],
    [avg_loss=1.0], [kelly_fraction=0.25] it yields [0.0625].  On binary64
    every value it returns lies in [[0,1]]. *)
Theorem kelly_sizing :
  (forall w aw al f : Q,
      (al == 0 \/ w == 0)%Q -> PositionSizer.kelly_criterion w aw al f = Ok 0%Q)
  /\ (forall w aw al f : Q,
        ~ (al == 0)%Q -> ~ (w == 0)%Q -> ~ (aw == 0)%Q ->
        exists r : Q,
          PositionSizer.kelly_criterion w aw al f = Ok r
          /\ (r == clamp (f * ((w * aw - (1 - w) * al) / aw)) 0 1)%Q
          /\ (0 <= r <= 1)%Q)
  /\ (exists r : Q,
        (PositionSizer.kelly_criterion (A:=Q) 0.55 1.5 1.0 0.25)%Q = Ok r
        /\ (r == 0.0625)%Q)
  /\ (forall w aw al f r : float,
        PositionSizer.kelly_criterion w aw al f = Ok r ->
        PrimFloat.leb (lit 0) r = true /\ PrimFloat.leb r (lit 1) = true).
Proof.
  split; [exact kelly_zero|]. split; [|split].
  - intros w aw al f Hal Hw Haw.
    destruct (kelly_clamped w aw al f Hal Hw Haw) as [r [Hr Hc]].
    exists r. split; [exact Hr|]. split; [exact Hc|].
    rewrite Hc. apply clamp_unit_range.
  - eexists. split; [vm_compute; reflexivity|]. vm_compute. reflexivity.
  - exact kelly_float_range.
Qed.

Lemma kelly_sizing_witness :
  exists r : Q,
    (PositionSizer.kelly_criterion (A:=Q) 0.6 2 1 0.5)%Q = Ok r
    /\ (r == clamp (0.5 * ((0.6 * 2 - (1 - 0.6) * 1) / 2)) 0 1)%Q
    /\ (0 <= r <= 1)%Q.
Proof.
  apply (proj1 (proj2 kelly_sizing) 0.6 2 1 0.5)%Q; vm_compute; discriminate.
Defined.

(** The value the specification's example states, [0.1375], is not what the
    code yields on the example's inputs: the interpreter computes
    [0.062500000000000014] (the double [0x1.0000000000001p-4]), exact
    arithmetic gives [1/16]. *)
Lemma kelly_example_is_not_01375 :
  PositionSizer.kelly_criterion (A:=float) (lit 0.55) (lit 1.5) (lit 1.0) (lit 0.25)
    = Ok 0x1.0000000000001p-4%float
  /\ exists r : Q,
       (PositionSizer.kelly_criterion (A:=Q) 0.55 1.5 1.0 0.25)%Q = Ok r
       /\ (r == 1 # 16)%Q /\ ~ (0.13 <= r)%Q.
Proof.
  split; [vm_compute; reflexivity|].
  eexists. split; [vm_compute; reflexivity|].
  split; [vm_compute; reflexivity | vm_compute; intros Hle; apply Hle; reflexivity].
Qed.

(** Without the safety factor and the clamp: [helpers.kelly_criterion]. *)
Example helpers_kelly_example :
  (exists r : Q,
     (Helpers.kelly_criterion (A:=Q) 0.55 1.5 1.0)%Q = Ok r /\ (r == 0.25)%Q)
  /\ (Helpers.kelly_criterion (A:=Q) 0.55 0 1.0)%Q = Raise ZeroDivisionError.
Proof.
  split; [|vm_compute; reflexivity].
  eexists. split; vm_compute; reflexivity.
Qed.

(** A zero [avg_win] with non-zero [avg_loss] and [win_rate] is a division
    by zero. *)
Example kelly_zero_avg_win :
  PositionSizer.kelly_criterion (A:=float) (lit 0.55) (lit 0) (lit 1.0) (lit 0.25)
  = Raise ZeroDivisionError.
Proof. vm_compute. reflexivity. Qed.

(** ** Fill prices *)

Section FillPrices.
Context {A : Type} `{Arith A}.
Import Advanced.
Local Open Scope num_scope.

(** The BUY multiplier is the product of the slippage and spread factors. *)
Lemma buy_multiplier (ex : ExecutionMetrics A) :
  get_slippage_multiplier ex "buy"
  = Ok ((lit 1 + slippage_bps ex / lit 10000) * (lit 1 + spread_bps ex / lit 10000)).
Proof. reflexivity. Qed.

(** Any other direction divides 1 by that product. *)
Lemma sell_multiplier (ex : ExecutionMetrics A) :
  get_slippage_multiplier ex "sell"
  = truediv (lit 1)
      ((lit 1 + slippage_bps ex / lit 10000) * (lit 1 + spread_bps ex / lit 10000)).
Proof. reflexivity. Qed.

(** A bar that opens a position records the close times the BUY multiplier
    as entry price. *)
Lemma step_entry_price (df : Data.DataFrame A) (f : Data.SignalFunc A)
    (sym : string) (st : LoopState A) (i : nat) (bar : Data.Bar A) (c m : A) :
  position st = None ->
  guarded f (Data.prefix df i) = ("BUY", c) ->
  (c >? lit 0.3) = true ->
  get_slippage_multiplier (execution (self st)) "buy" = Ok m ->
  exists st' op,
    step df f sym st i bar = Ok st'
    /\ position st' = Some op
    /\ open_price op = Data.close bar * m.
Proof.
  intros Hflat Hsig Hconf Hm. unfold step, trade_step.
  rewrite Hflat, Hsig. cbn [fst snd]. rewrite Hconf.
  replace (String.eqb "BUY" "BUY") with true by reflexivity. cbn [andb].
  rewrite Hm. cbn [bind]. unfold mark_step. cbn [self position].
  eexists. eexists. split; [reflexivity|]. split; reflexivity.
Qed.

(** A SELL bar on an open position appends a trade whose exit price is the
    close times the SELL multiplier. *)
Lemma step_exit_price (df : Data.DataFrame A) (f : Data.SignalFunc A)
    (sym : string) (st : LoopState A) (i : nat) (bar : Data.Bar A)
    (op : OpenPosition A) (c m : A) :
  position st = Some op ->
  guarded f (Data.prefix df i) = ("SELL", c) ->
  get_slippage_multiplier (execution (self st)) "sell" = Ok m ->
  exists st' tr,
    step df f sym st i bar = Ok st'
    /\ trades (self st') = (trades (self st) ++ [tr])%list
    /\ entry_price tr = open_price op
    /\ exit_price tr = Data.close bar * m
    /\ reason tr = "signal".
Proof.
  intros Hopen Hsig Hm. unfold step, trade_step.
  rewrite Hopen, Hsig. cbn [fst snd].
  replace (String.eqb "SELL" "SELL") with true by reflexivity.
  rewrite Hm. cbn [bind]. unfold mark_step. cbn [self position trades].
  eexists. eexists. split; [reflexivity|].
  cbn. repeat split; reflexivity.
Qed.
End FillPrices.

Lemma Q_times_reciprocal (r x : Q) :
  ~ (x == 0)%Q -> (r * (1 / x) == r / x)%Q.
Proof. intros Hx. field. exact Hx. Qed.

(** C5 (amended).  In [AdvancedBacktester] a BUY fills at
    [raw * (1 + slippage_bps/10000) * (1 + spread_bps/10000)] and a SELL at
    [raw / ((1 + slippage_bps/10000) * (1 + spread_bps/10000))]: the whole
    BUY multiplier, spread factor included, is replaced by its reciprocal.
    [BacktestEngine] fills at [raw * (1 + slippage_pips * 0.0001)] and
    [raw * (1 - slippage_pips * 0.0001)]. *)
Theorem fill_price_formula (ex : Advanced.ExecutionMetrics Q) (raw : Q) :
  let base := (1 + Advanced.slippage_bps ex / 10000)%Q in
  let spread := (1 + Advanced.spread_bps ex / 10000)%Q in
  (exists m : Q,
      Advanced.get_slippage_multiplier ex "buy" = Ok m
      /\ (raw * m == raw * base * spread)%Q)
  /\ (~ (base * spread == 0)%Q ->
      exists m : Q,
        Advanced.get_slippage_multiplier ex "sell" = Ok m
        /\ (raw * m == raw / (base * spread))%Q)
  /\ (forall e : Engine.t Q,
        (Engine.buy_fill e raw == raw * (1 + Engine.slippage_pips e * 0.0001))%Q
        /\ (Engine.sell_fill e raw == raw * (1 - Engine.slippage_pips e * 0.0001))%Q).
Proof.
  intros base spread. split; [|split].
  - eexists. split; [apply buy_multiplier|]. unfold_Q. subst base spread. ring.
  - intros Hnz. eexists. split.
    + rewrite sell_multiplier. apply truediv_Q_ok. exact Hnz.
    + unfold_Q. apply Q_times_reciprocal. exact Hnz.
  - intros e. unfold Engine.buy_fill, Engine.sell_fill. unfold_Q.
    split; reflexivity.
Qed.

Lemma fill_price_formula_witness :
  exists m : Q,
    Advanced.get_slippage_multiplier (A:=Q) Advanced.default_execution "sell" = Ok m
    /\ (100 * m == 100 / ((1 + 2.0 / 10000) * (1 + 1.5 / 10000)))%Q.
Proof.
  refine (proj1 (proj2 (fill_price_formula Advanced.default_execution 100)) _).
  vm_compute. discriminate.
Defined.

(** With the default costs (2 bps slippage, 1.5 bps spread) a SELL of a price
    of 100 does not fill at [100 * (1/(1 + 2/10000)) * (1 + 1.5/10000)]: it
    fills strictly below it, in exact arithmetic and as the interpreter
    computes. *)
Lemma sell_fill_divides_by_spread :
  (exists m : Q,
      Advanced.get_slippage_multiplier (A:=Q) Advanced.default_execution "sell" = Ok m
      /\ (100 * m < 100 * (1 / (1 + 2.0 / 10000)) * (1 + 1.5 / 10000))%Q)
  /\ (exists m : float,
        Advanced.get_slippage_multiplier (A:=float) Advanced.default_execution "sell"
        = Ok m
        /\ ((lit 100 * m)
            <? (lit 100 * (lit 1 / (lit 1 + lit 2.0 / lit 10000))
                * (lit 1 + lit 1.5 / lit 10000)))%num = true).
Proof.
  split.
  - eexists. split; [vm_compute; reflexivity|]. vm_compute. reflexivity.
  - eexists. split; [vm_compute; reflexivity|]. vm_compute. reflexivity.
Qed.

(** ** Profit factor *)

Section ProfitFactorQ.
Import Helpers.

Lemma series_sum_Q_acc (xs : list Q) (a : Q) :
  (fold_left Qplus xs a == a + fold_left Qplus xs 0)%Q.
Proof.
  revert a. induction xs as [|x xs IH]; intros a; cbn.
  - ring.
  - rewrite IH, (IH (0 + x)%Q). ring.
Qed.

Lemma series_sum_Q_cons (x : Q) (xs : list Q) :
  (series_sum (x :: xs) == x + series_sum xs)%Q.
Proof.
  unfold series_sum. unfold_Q. cbn. rewrite series_sum_Q_acc. ring.
Qed.

(** With no negative entry, the sum of the losses is 0. *)
Lemma no_losses_sum (pnl : list Q) :
  Forall (fun x => (0 <= x)%Q) pnl ->
  List.filter (fun x => ltb x (lit 0)) pnl = [].
Proof.
  induction 1 as [|x xs Hx _ IH]; [reflexivity|].
  cbn [List.filter]. pose proof (proj2 (Q_ltb_false x 0%Q) Hx) as Hf.
  change (ltb x (lit 0) = false) in Hf. rewrite Hf. exact IH.
Qed.

(** Gains and no losses: the profit factor returned is [0.0]. *)
Lemma profit_factor_no_losses (pnl : list Q) :
  Forall (fun x => (0 <= x)%Q) pnl -> calculate_profit_factor pnl = 0%Q.
Proof.
  intros Hpos. unfold calculate_profit_factor.
  rewrite (no_losses_sum pnl Hpos). reflexivity.
Qed.

(** With losses, it is the gains over the absolute value of the losses. *)
Lemma profit_factor_ratio (pnl : list Q) :
  let gains := series_sum (List.filter (fun x => ltb (lit 0) x) pnl) in
  let losses := series_sum (List.filter (fun x => ltb x (lit 0)) pnl) in
  ~ (losses == 0)%Q ->
  (calculate_profit_factor pnl == gains / Qabs losses)%Q.
Proof.
  intros gains losses Hnz. unfold calculate_profit_factor.
  fold gains. fold losses.
  destruct (ltb (lit 0) (absv losses)) eqn:E; [reflexivity|].
  apply Q_ltb_false in E. unfold_Q. exfalso. apply Hnz.
  pose proof (Qle_Qabs losses) as Hup.
  pose proof (Qle_Qabs (- losses)) as Hdown.
  rewrite Qabs_opp in Hdown. lra.
Qed.
End ProfitFactorQ.

(** C4 (what the code computes).  The profit factor is the sum of the
    positive P&Ls over the absolute value of the sum of the negative ones:
    the trades [+100, +50, -30, -20] give [150/50 = 3.0].  With gains and no
    losses, where the specification and the repository's test expect an
    unbounded value, the code reports the finite number [0.0]: so for the
    trades [+100, +50, +75] in [calculate_profit_factor], and so for the
    [profit_factor] of a backtest whose only trade wins. *)
Theorem profit_factor_on_examples :
  Helpers.calculate_profit_factor (A:=float)
    [lit 100; lit 50; lit (-30); lit (-20)] = lit 3
  /\ Helpers.calculate_profit_factor (A:=float) [lit 100; lit 50; lit 75] = lit 0
  /\ (exists bt m,
        Advanced.run (Advanced.init (lit 100000) (lit 0.02) None)
          rising_prices buy_sell_hold "STOCK" 0 = Ok (bt, m)
        /\ Advanced.total_trades m = 1%nat
        /\ Advanced.winning_trades m = 1%nat
        /\ (Advanced.m_gross_profit m >? lit 0)%num = true
        /\ Advanced.m_gross_loss m = lit 0
        /\ Advanced.profit_factor m = lit 0).
Proof.
  split; [vm_compute; reflexivity|].
  split; [vm_compute; reflexivity|].
  eexists. eexists. split; [vm_compute; reflexivity|].
  vm_compute. repeat split; reflexivity.
Qed.

(** ** Walk-forward windows *)

Section WindowCount.
Variables (train_period test_period step len : nat).
Hypothesis step_pos : (0 < step)%nat.

(** The number of iterations of the [while] loop that starts at [i]. *)
Lemma window_starts_length (i : nat) :
  length (Validator.window_starts train_period test_period step len step_pos i)
  = if (i + train_period + test_period <? len)%nat
    then ((len - (i + train_period + test_period) - 1) / step + 1)%nat
    else 0%nat.
Proof.
  funelim (Validator.window_starts train_period test_period step len step_pos i).
  - (* the guard holds: one window, and the loop goes on from [i + step] *)
    cbn [length].
    match goal with IH : length _ = _ |- _ => rewrite IH end.
    destruct (Nat.ltb_spec (i + train_period + test_period) len) as [_|Hge];
      [|lia].
    destruct (Nat.ltb_spec (i + step + train_period + test_period) len)
      as [Hnext|Hlast].
    + replace (len - (i + train_period + test_period) - 1)%nat
        with ((len - (i + step + train_period + test_period) - 1) + 1 * step)%nat
        by lia.
      rewrite Nat.div_add by lia. lia.
    + rewrite Nat.div_small by lia. reflexivity.
  - (* the guard fails: no window *)
    destruct (Nat.ltb_spec (i + train_period + test_period) len); [lia|reflexivity].
Qed.

(** Every start the loop visits leaves room for a test window that ends
    before the last row. *)
Lemma window_starts_in_range (i j : nat) :
  In j (Validator.window_starts train_period test_period step len step_pos i) ->
  (i <= j /\ j + train_period + test_period < len)%nat.
Proof.
  funelim (Validator.window_starts train_period test_period step len step_pos i);
    [|intros []].
  intros [Hhead|Htail].
  - subst. lia.
  - match goal with
    | IH : forall _, In _ _ -> _ |- _ => specialize (IH _ Htail)
    end. lia.
Qed.
End WindowCount.

(** With the defaults of the signature. *)
Lemma default_window_count (len : nat) :
  length (Validator.window_starts 252 63 21 len Validator.default_step_pos 0)
  = if (len <=? 315)%nat then 0%nat else ((len - 316) / 21 + 1)%nat.
Proof.
  rewrite window_starts_length.
  destruct (Nat.ltb_spec (0 + 252 + 63) len), (Nat.leb_spec len 315); try lia.
  replace (len - (0 + 252 + 63) - 1)%nat with (len - 316)%nat by lia.
  reflexivity.
Qed.

(** ** The loop of AdvancedBacktester.run *)

Section AdvancedLoop.
Context {A : Type} `{Arith A}.
Import Advanced.
Local Open Scope num_scope.

Lemma signal_exits_app (ts us : list (Trade A)) :
  signal_exits (ts ++ us) = (signal_exits ts + signal_exits us)%nat.
Proof. unfold signal_exits. rewrite List.filter_app, length_app. reflexivity. Qed.

(** The entry or exit of an iteration: an exit on a SELL signal appends one
    equity value and one trade marked ["signal"]; nothing else touches the
    curve.  The configuration is not touched. *)
Lemma trade_step_equity (df : Data.DataFrame A) (f : Data.SignalFunc A)
    (sym : string) (st st1 : LoopState A) (i : nat) (bar : Data.Bar A) :
  trade_step df f sym st i bar = Ok st1 ->
  (length (equity_curve (self st1)) + signal_exits (new_trades st)
   = length (equity_curve (self st)) + signal_exits (new_trades st1))%nat
  /\ initial_capital (self st1) = initial_capital (self st)
  /\ execution (self st1) = execution (self st).
Proof.
  unfold trade_step.
  destruct (position st) as [op|].
  - destruct (String.eqb _ "SELL").
    + destruct (get_slippage_multiplier _ "sell") as [mult|e]; cbn [bind];
        [|discriminate].
      intros [= <-]. cbn [self equity_curve new_trades initial_capital execution].
      rewrite length_app, signal_exits_app. unfold signal_exits at 3.
      cbn. repeat split; lia.
    + intros [= <-]. repeat split; lia.
  - destruct (_ && _).
    + rewrite buy_multiplier. cbn [bind]. intros [= <-]. cbn. repeat split; lia.
    + intros [= <-]. repeat split; lia.
Qed.

(** The equity update of an iteration: exactly one value. *)
Lemma mark_step_equity (st1 : LoopState A) (price : A) :
  length (equity_curve (self (mark_step st1 price)))
  = S (length (equity_curve (self st1)))
  /\ new_trades (mark_step st1 price) = new_trades st1
  /\ initial_capital (self (mark_step st1 price)) = initial_capital (self st1)
  /\ execution (self (mark_step st1 price)) = execution (self st1).
Proof.
  unfold mark_step. destruct (position st1); cbn; rewrite length_app; cbn;
    repeat split; lia.
Qed.

(** What one iteration does to the equity curve: one value for the bar, and
    one more when the bar closes a position on a SELL signal. *)
Lemma step_equity (df : Data.DataFrame A) (f : Data.SignalFunc A) (sym : string)
    (st st' : LoopState A) (i : nat) (bar : Data.Bar A) :
  step df f sym st i bar = Ok st' ->
  (length (equity_curve (self st')) + signal_exits (new_trades st)
   = length (equity_curve (self st)) + 1 + signal_exits (new_trades st'))%nat
  /\ initial_capital (self st') = initial_capital (self st)
  /\ execution (self st') = execution (self st).
Proof.
  unfold step.
  destruct (trade_step df f sym st i bar) as [st1|e] eqn:Htrade; cbn [bind];
    [|discriminate].
  intros [= <-].
  destruct (trade_step_equity _ _ _ _ _ _ _ Htrade) as (Hlen & Hcap & Hex).
  destruct (mark_step_equity st1 (Data.close bar)) as (Hlen1 & Htr & Hcap1 & Hex1).
  rewrite Hlen1, Htr, Hcap1, Hex1. repeat split; [lia|assumption|assumption].
Qed.

(** An iteration fails only when the SELL multiplier does. *)
Lemma step_ok (df : Data.DataFrame A) (f : Data.SignalFunc A) (sym : string)
    (st : LoopState A) (i : nat) (bar : Data.Bar A) (m : A) :
  get_slippage_multiplier (execution (self st)) "sell" = Ok m ->
  exists st', step df f sym st i bar = Ok st'.
Proof.
  intros Hm. unfold step, trade_step. rewrite Hm, buy_multiplier. cbn [bind].
  destruct (position st); [destruct (String.eqb _ _)|destruct (_ && _)];
    cbn [bind]; eexists; reflexivity.
Qed.

Lemma loop_equity (df : Data.DataFrame A) (f : Data.SignalFunc A) (sym : string)
    (rows : list (nat * Data.Bar A)) (st st' : LoopState A) :
  loop df f sym st rows = Ok st' ->
  (length (equity_curve (self st')) + signal_exits (new_trades st)
   = length (equity_curve (self st)) + length rows
     + signal_exits (new_trades st'))%nat
  /\ initial_capital (self st') = initial_capital (self st)
  /\ execution (self st') = execution (self st).
Proof.
  revert st. induction rows as [|[i bar] rows IH]; intros st; cbn [loop].
  - intros [= <-]. cbn [length]. repeat split; lia.
  - destruct (step df f sym st i bar) as [st1|e] eqn:Hstep; cbn [bind];
      [|discriminate].
    intros Hloop. destruct (IH _ Hloop) as (Hlen & Hcap & Hex).
    destruct (step_equity _ _ _ _ _ _ _ Hstep) as (Hlen1 & Hcap1 & Hex1).
    cbn [length]. repeat split; [lia|congruence|congruence].
Qed.

Lemma loop_ok (df : Data.DataFrame A) (f : Data.SignalFunc A) (sym : string)
    (rows : list (nat * Data.Bar A)) (st : LoopState A) (m : A) :
  get_slippage_multiplier (execution (self st)) "sell" = Ok m ->
  exists st', loop df f sym st rows = Ok st'.
Proof.
  revert st. induction rows as [|[i bar] rows IH]; intros st Hm; cbn [loop].
  - eexists. reflexivity.
  - destruct (step_ok df f sym st i bar m Hm) as [st1 Hstep].
    rewrite Hstep. cbn [bind]. apply IH.
    destruct (step_equity _ _ _ _ _ _ _ Hstep) as (_ & _ & Hex).
    rewrite Hex. exact Hm.
Qed.

Lemma rows_from_length (df : Data.DataFrame A) (start : nat) :
  length (Data.rows_from start df) = bars_processed df start.
Proof.
  unfold Data.rows_from, bars_processed.
  rewrite length_combine, length_seq, length_skipn. lia.
Qed.

(** The forced close at the end adds a trade, not an equity value. *)
Lemma close_open_equity (df : Data.DataFrame A) (sym : string) (st : LoopState A) :
  equity_curve (self (close_open df sym st)) = equity_curve (self st)
  /\ signal_exits (new_trades (close_open df sym st)) = signal_exits (new_trades st)
  /\ initial_capital (self (close_open df sym st)) = initial_capital (self st).
Proof.
  unfold close_open.
  destruct (position st), (last df);
    cbn [self equity_curve new_trades initial_capital]; try tauto.
  rewrite signal_exits_app. unfold signal_exits at 2. cbn.
  repeat split; lia.
Qed.

(** The exact length of the equity curve after a completed run. *)
Lemma run_equity_length (bt bt' : t A) (df : Data.DataFrame A)
    (f : Data.SignalFunc A) (sym : string) (warmup : nat)
    (m : BacktestMetrics A) :
  run bt df f sym warmup = Ok (bt', m) ->
  length (equity_curve bt')
  = (length (equity_curve bt) + bars_processed df warmup
     + signal_exits (m_trades m))%nat
  /\ m_equity_curve m = equity_curve bt'.
Proof.
  unfold run.
  destruct (loop df f sym (start bt) (Data.rows_from warmup df)) as [st|e] eqn:Hloop;
    cbn [bind]; [|discriminate].
  unfold finish.
  destruct (return_ratio _) as [tr|e]; cbn [bind]; [|discriminate].
  intros [= <- <-]. cbn [m_trades m_equity_curve].
  destruct (loop_equity _ _ _ _ _ _ Hloop) as (Hlen & _ & _).
  destruct (close_open_equity df sym st) as (Heq & Hex & _).
  rewrite Heq, Hex, rows_from_length in *. cbn in Hlen.
  split; [lia|reflexivity].
Qed.

Lemma return_ratio_ok (bt : t A) :
  (initial_capital bt =? lit 0) = false ->
  return_ratio bt = Ok ((capital bt - initial_capital bt) / initial_capital bt).
Proof.
  intros Hcap. unfold return_ratio, truediv. rewrite Hcap.
  destruct (trades bt); reflexivity.
Qed.

(** A run ends without an exception when the SELL multiplier is defined and
    the initial capital is not zero. *)
Lemma run_ok (bt : t A) (df : Data.DataFrame A) (f : Data.SignalFunc A)
    (sym : string) (warmup : nat) (m : A) :
  get_slippage_multiplier (execution bt) "sell" = Ok m ->
  (initial_capital bt =? lit 0) = false ->
  exists bt' metrics, run bt df f sym warmup = Ok (bt', metrics).
Proof.
  intros Hm Hcap. unfold run.
  destruct (loop_ok df f sym (Data.rows_from warmup df) (start bt) m Hm)
    as [st Hloop].
  rewrite Hloop. cbn [bind]. unfold finish.
  destruct (loop_equity _ _ _ _ _ _ Hloop) as (_ & Hinit & _).
  destruct (close_open_equity df sym st) as (_ & _ & Hinit').
  rewrite (return_ratio_ok (self (close_open df sym st)))
    by (rewrite Hinit', Hinit; exact Hcap).
  cbn [bind]. eexists. eexists. reflexivity.
Qed.
End AdvancedLoop.

(** ** Walk-forward analysis *)

Section WalkForward.
Context {A : Type} `{Arith A}.
Import Validator.

(** The backtester of a window: 100000 of capital and the default costs. *)
Hypothesis capital_nonzero : eqb (lit 100000) (lit 0) = false.
Hypothesis default_sell_multiplier :
  is_ok (Advanced.get_slippage_multiplier Advanced.default_execution "sell") = true.

(** A slice that ends inside the frame has all its rows. *)
Lemma slice_length (df : Data.DataFrame A) (a b : nat) :
  (b <= length df)%nat -> length (Data.slice df a b) = (b - a)%nat.
Proof.
  intros Hb. unfold Data.slice. rewrite length_firstn, length_skipn. lia.
Qed.

Lemma run_window_ok (f : Data.SignalFunc A) (df : Data.DataFrame A)
    (train_period test_period i : nat) :
  (0 < test_period)%nat ->
  (i + train_period + test_period < length df)%nat ->
  exists metrics, run_window f df train_period test_period i = Ok metrics.
Proof.
  intros Htest Hroom. unfold run_window.
  pose proof (slice_length df (i + train_period)
                (i + train_period + test_period) ltac:(lia)) as Hlen.
  destruct (Data.slice df _ _) as [|bar test_data] eqn:Hslice;
    [cbn in Hlen; lia|].
  destruct (Advanced.get_slippage_multiplier Advanced.default_execution "sell")
    as [m|e] eqn:Hm; [|discriminate].
  edestruct (run_ok (Advanced.init (lit 100000) (lit 0.02) None))
    as (bt' & metrics & Hrun); [exact Hm|exact capital_nonzero|].
  rewrite Hrun. cbn [bind snd]. eexists. reflexivity.
Qed.

Lemma run_windows_ok (f : Data.SignalFunc A) (df : Data.DataFrame A)
    (train_period test_period : nat) (starts : list nat)
    (acc : list (WindowResult A)) :
  (0 < test_period)%nat ->
  (forall i, In i starts -> (i + train_period + test_period < length df)%nat) ->
  exists rs,
    run_windows f df train_period test_period starts acc = Ok rs
    /\ length rs = (length acc + length starts)%nat.
Proof.
  intros Htest. revert acc.
  induction starts as [|i starts IH]; intros acc Hroom; cbn [run_windows].
  - exists acc. split; [reflexivity|cbn; lia].
  - destruct (run_window_ok f df train_period test_period i Htest
                (Hroom i (or_introl eq_refl))) as [metrics Hw].
    rewrite Hw. cbn [bind].
    edestruct IH as (rs & Hrs & Hlen);
      [intros j Hj; apply Hroom; right; exact Hj|].
    exists rs. split; [exact Hrs|].
    rewrite Hlen, length_app. cbn. lia.
Qed.

(** The analysis returns, with one result per iteration of its loop. *)
Lemma walk_forward_total (f : Data.SignalFunc A) (df : Data.DataFrame A)
    (train_period test_period step : nat) (step_pos : (0 < step)%nat) :
  (0 < test_period)%nat ->
  exists r,
    walk_forward_test f df train_period test_period step step_pos = Ok r
    /\ total_tests r
       = length (window_starts train_period test_period step (length df) step_pos 0)
    /\ length (test_results r) = total_tests r.
Proof.
  intros Htest. unfold walk_forward_test.
  edestruct (run_windows_ok f df train_period test_period
               (window_starts train_period test_period step (length df) step_pos 0)
               [] Htest)
    as (rs & Hrs & Hlen).
  { intros i Hi. apply window_starts_in_range in Hi. lia. }
  rewrite Hrs. cbn [bind]. eexists. split; [reflexivity|].
  cbn [total_tests test_results]. split; [exact Hlen|reflexivity].
Qed.
End WalkForward.

Lemma default_walk_forward_total
    (strategy_func : Data.SignalFunc float) (df : Data.DataFrame float) :
  exists r,
    Validator.walk_forward_test strategy_func df 252 63 21
      Validator.default_step_pos = Ok r
    /\ Validator.total_tests r
       = length (Validator.window_starts 252 63 21 (length df)
                   Validator.default_step_pos 0).
Proof.
  destruct (walk_forward_total (A:=float) (H:=float_arith)
              ltac:(vm_compute; reflexivity) ltac:(vm_compute; reflexivity)
              strategy_func df 252 63 21 Validator.default_step_pos
              ltac:(lia))
    as (r & Hr & Htotal & _).
  exists r. split; assumption.
Qed.

(** C6 (amended).  Walk-forward analysis over a series of length [L] with
    [train_period=252], [test_period=63] and [step=21] evaluates a window for
    each [i = 0, 21, 42, ...] with [i + 252 + 63 < L]: none when [L <= 315],
    and [floor((L - 316)/21) + 1] otherwise. *)
Theorem walk_forward_window_count
    (strategy_func : Data.SignalFunc float) (df : Data.DataFrame float) :
  exists r,
    Validator.walk_forward_test strategy_func df 252 63 21
      Validator.default_step_pos = Ok r
    /\ Validator.total_tests r
       = (if (length df <=? 315)%nat then 0 else (length df - 316) / 21 + 1)%nat
    /\ length (Validator.test_results r) = Validator.total_tests r.
Proof.
  destruct (walk_forward_total (A:=float) (H:=float_arith)
              ltac:(vm_compute; reflexivity) ltac:(vm_compute; reflexivity)
              strategy_func df 252 63 21 Validator.default_step_pos
              ltac:(lia))
    as (r & Hr & Htotal & Hlen).
  exists r. split; [exact Hr|]. split; [|exact Hlen].
  rewrite Htotal. apply default_window_count.
Qed.

(** On 315 bars (one training window and one test window end to end) the loop
    evaluates no window, and on 336 bars one; the stated count is 1 and 2. *)
Lemma walk_forward_count_at_315 :
  (exists r,
      Validator.walk_forward_test always_holds (flat_series 315) 252 63 21
        Validator.default_step_pos = Ok r
      /\ Validator.total_tests r = 0%nat)
  /\ stated_window_count 315 = 1%Z
  /\ length (Validator.window_starts 252 63 21 336 Validator.default_step_pos 0)
     = 1%nat
  /\ stated_window_count 336 = 2%Z.
Proof.
  split; [|split; [reflexivity|split; [|reflexivity]]].
  - destruct (default_walk_forward_total always_holds (flat_series 315))
      as (r & Hr & Htotal).
    exists r. split; [exact Hr|]. rewrite Htotal. reflexivity.
  - rewrite default_window_count. reflexivity.
Qed.

(** ** Ensemble weights *)

Section EnsembleWeights.
Context {A : Type} `{Arith A}.
Import EnsembleStrategy.

(** On any arithmetic, dividing every weight by a total that does not compare
    equal to zero never raises and stores each quotient. *)
Lemma normalized_quotients (d : dict A) (total : A) :
  eqb total (lit 0) = false ->
  normalized d total = Ok (map (fun kv => (fst kv, div (snd kv) total)) d).
Proof.
  intros Hnz. induction d as [|[k v] d IH]; cbn [normalized map fst snd].
  - reflexivity.
  - unfold truediv. rewrite Hnz, IH. reflexivity.
Qed.

(** A total that compares equal to zero raises at the first weight. *)
Lemma normalized_raises (k : string) (v : A) (d : dict A) (total : A) :
  eqb total (lit 0) = true ->
  normalized ((k, v) :: d) total = Raise ZeroDivisionError.
Proof.
  intros Hz. cbn [normalized]. unfold truediv. rewrite Hz. reflexivity.
Qed.
End EnsembleWeights.

Section EnsembleWeightsQ.
Import EnsembleStrategy.

Lemma py_sum_Q_cons (x : Q) (xs : list Q) : (py_sum (x :: xs) == x + py_sum xs)%Q.
Proof. exact (series_sum_Q_cons x xs). Qed.

(** Dividing every weight by a non-zero total never raises. *)
Lemma normalized_Q (d : dict Q) (total : Q) :
  ~ (total == 0)%Q ->
  normalized d total = Ok (map (fun kv => (fst kv, (snd kv / total)%Q)) d).
Proof.
  intros Hnz. induction d as [|[k v] d IH]; cbn [normalized map fst snd].
  - reflexivity.
  - rewrite (truediv_Q_ok v total Hnz), IH. reflexivity.
Qed.

(** A zero total with at least one weight is a [ZeroDivisionError]. *)
Lemma normalized_zero_total (k : string) (v : Q) (d : dict Q) (total : Q) :
  (total == 0)%Q -> normalized ((k, v) :: d) total = Raise ZeroDivisionError.
Proof.
  intros Hz. cbn [normalized]. unfold truediv.
  apply Q_eqb_true in Hz. cbv [lit Q_arith] in *. rewrite Hz. reflexivity.
Qed.

Lemma sum_of_quotients (d : dict Q) (total : Q) :
  (py_sum (values (map (fun kv => (fst kv, (snd kv / total)%Q)) d))
   == py_sum (values d) / total)%Q.
Proof.
  unfold values. induction d as [|[k v] d IH]; cbn [map fst snd].
  - unfold py_sum. cbn. unfold Qdiv. ring.
  - rewrite !py_sum_Q_cons, IH. unfold Qdiv. ring.
Qed.

Lemma keys_of_quotients (d : dict Q) (total : Q) :
  keys (map (fun kv => (fst kv, (snd kv / total)%Q)) d) = keys d.
Proof.
  unfold keys. rewrite map_map. reflexivity.
Qed.

(** [d[k] = v] stores [v] under [k]. *)
Lemma dict_get_set {A : Type} (k : string) (v : A) (d : dict A) :
  dict_get k (dict_set k v d) = Some v.
Proof.
  induction d as [|[k' v'] d IH]; cbn.
  - rewrite String.eqb_refl. reflexivity.
  - destruct (String.eqb k' k) eqn:E; cbn; rewrite E; [reflexivity|exact IH].
Qed.
End EnsembleWeightsQ.

(** An assignment leaves the dict non-empty. *)
Lemma dict_set_cons {A : Type} (k : string) (v : A) (d : EnsembleStrategy.dict A) :
  exists kv rest, EnsembleStrategy.dict_set k v d = kv :: rest.
Proof.
  destruct d as [|[k' v'] d]; cbn; [eauto|].
  destruct (String.eqb k' k); eauto.
Qed.

(** C8 (amended).  After a call of [set_strategy_weight] whose updated
    weights do not add up to zero, every stored weight has been divided by
    their total, in floating point and in exact arithmetic alike; the names
    and the sub-strategies are unchanged.  In exact arithmetic the stored
    weights then sum to 1; nothing is stated of the sum of the rounded
    quotients on binary64.  When the updated weights add up to zero the call
    raises [ZeroDivisionError] and leaves the assignment in place,
    un-normalized.  [add_strategy] stores the weight it is given and
    normalizes nothing. *)
Theorem set_strategy_weight_normalizes :
  (forall (A : Type) (arith : Arith A)
          (e : EnsembleStrategy.t A) (strategy_name : string) (weight : A),
      let assigned :=
        EnsembleStrategy.dict_set strategy_name weight (EnsembleStrategy.weights e) in
      let total := py_sum (EnsembleStrategy.values assigned) in
      (eqb total (lit 0) = false ->
       EnsembleStrategy.set_strategy_weight e strategy_name weight
       = (Ok tt,
          EnsembleStrategy.mk (EnsembleStrategy.sub_strategies e)
            (map (fun kv => (fst kv, div (snd kv) total)) assigned)))
      /\ (eqb total (lit 0) = true ->
          EnsembleStrategy.set_strategy_weight e strategy_name weight
          = (Raise ZeroDivisionError,
             EnsembleStrategy.mk (EnsembleStrategy.sub_strategies e) assigned))
      /\ (forall strategy : EnsembleStrategy.BaseStrategy A,
            EnsembleStrategy.add_strategy e strategy (Some weight)
            = (Ok tt,
               EnsembleStrategy.mk
                 (EnsembleStrategy.sub_strategies e ++ [strategy])%list
                 (EnsembleStrategy.dict_set (EnsembleStrategy.name strategy)
                    weight (EnsembleStrategy.weights e)))))
  /\ (forall (e : EnsembleStrategy.t Q) (strategy_name : string) (weight : Q),
        let assigned :=
          EnsembleStrategy.dict_set strategy_name weight
            (EnsembleStrategy.weights e) in
        let total := py_sum (EnsembleStrategy.values assigned) in
        (~ (total == 0)%Q ->
         exists e',
           EnsembleStrategy.set_strategy_weight e strategy_name weight
           = (Ok tt, e')
           /\ (weight_total e' == 1)%Q
           /\ EnsembleStrategy.weights e'
              = map (fun kv => (fst kv, (snd kv / total)%Q)) assigned
           /\ EnsembleStrategy.keys (EnsembleStrategy.weights e')
              = EnsembleStrategy.keys assigned
           /\ EnsembleStrategy.sub_strategies e'
              = EnsembleStrategy.sub_strategies e)
        /\ ((total == 0)%Q ->
            EnsembleStrategy.set_strategy_weight e strategy_name weight
            = (Raise ZeroDivisionError,
               EnsembleStrategy.mk (EnsembleStrategy.sub_strategies e) assigned))).
Proof.
  split.
  - intros A arith e strategy_name weight assigned total. split; [|split].
    + intros Hnz. unfold EnsembleStrategy.set_strategy_weight.
      fold assigned. fold total.
      rewrite (normalized_quotients assigned total Hnz). reflexivity.
    + intros Hz. unfold EnsembleStrategy.set_strategy_weight.
      fold assigned. fold total.
      destruct (dict_set_cons strategy_name weight (EnsembleStrategy.weights e))
        as ([k v] & rest & Hset).
      fold assigned in Hset. rewrite Hset.
      rewrite (normalized_raises k v rest total Hz). reflexivity.
    + intros strategy. reflexivity.
  - intros e strategy_name weight assigned total. split.
    + intros Hnz. unfold EnsembleStrategy.set_strategy_weight.
      fold assigned. fold total. rewrite (normalized_Q assigned total Hnz).
      eexists. split; [reflexivity|].
      cbn [EnsembleStrategy.weights EnsembleStrategy.sub_strategies].
      unfold weight_total. cbn [EnsembleStrategy.weights].
      split; [|split; [reflexivity|split; [apply keys_of_quotients|reflexivity]]].
      rewrite sum_of_quotients. fold total. unfold Qdiv.
      apply Qmult_inv_r. exact Hnz.
    + intros Hz. unfold EnsembleStrategy.set_strategy_weight.
      fold assigned. fold total.
      destruct (dict_set_cons strategy_name weight (EnsembleStrategy.weights e))
        as ([k v] & rest & Hset).
      fold assigned in Hset. rewrite Hset.
      rewrite (normalized_zero_total k v rest total Hz). reflexivity.
Qed.

Lemma set_strategy_weight_normalizes_witness :
  (exists e',
      EnsembleStrategy.set_strategy_weight
        (EnsembleStrategy.mk [holding "MeanReversion"; holding "RSI"]
           [("MeanReversion", 0.5%Q); ("RSI", 0.5%Q)])
        "RSI" 1.5%Q = (Ok tt, e')
      /\ (weight_total e' == 1)%Q
      /\ EnsembleStrategy.weights e'
         = [("MeanReversion", (0.5 / (0 + 0.5 + 1.5))%Q);
            ("RSI", (1.5 / (0 + 0.5 + 1.5))%Q)])
  /\ EnsembleStrategy.set_strategy_weight
       (EnsembleStrategy.mk [holding "MeanReversion"; holding "RSI"]
          [("MeanReversion", lit 0.5); ("RSI", lit 0.5)])
       "RSI" (lit 1.5 : float)
     = (Ok tt,
        EnsembleStrategy.mk [holding "MeanReversion"; holding "RSI"]
          [("MeanReversion", div (lit 0.5) (add (add (lit 0) (lit 0.5)) (lit 1.5)));
           ("RSI", div (lit 1.5) (add (add (lit 0) (lit 0.5)) (lit 1.5)))]).
Proof.
  split.
  - destruct (proj1 (proj2 set_strategy_weight_normalizes
                       (EnsembleStrategy.mk [holding "MeanReversion"; holding "RSI"]
                          [("MeanReversion", 0.5%Q); ("RSI", 0.5%Q)])
                       "RSI" 1.5%Q) ltac:(vm_compute; discriminate))
      as (e' & Hset & Hsum & Hweights & _).
    exists e'. split; [exact Hset|]. split; [exact Hsum|exact Hweights].
  - apply (proj1 (proj1 set_strategy_weight_normalizes float float_arith
                    (EnsembleStrategy.mk [holding "MeanReversion"; holding "RSI"]
                       [("MeanReversion", lit 0.5); ("RSI", lit 0.5)])
                    "RSI" (lit 1.5))).
    vm_compute. reflexivity.
Defined.

(** Calls that set a weight and leave the weights away from a sum of 1:
    [add_strategy] stores the new weight and normalizes nothing (0.5, 0.5 and
    1/3 add up to 4/3); [set_strategy_weight] with weights that cancel raises
    [ZeroDivisionError] after the assignment (the only weight set to 0 leaves
    a sum of 0); and on binary64 two weights of [2^1023] have the total
    [+infinity], so that both stored quotients are 0 and their sum is 0. *)
Lemma weights_not_summing_to_one :
  (exists e0 e1 : EnsembleStrategy.t float,
      EnsembleStrategy.init [holding "MeanReversion"; holding "RSI"] None = Ok e0
      /\ EnsembleStrategy.add_strategy e0 (holding "MACD") None = (Ok tt, e1)
      /\ ltb (lit 1.3) (weight_total e1) = true)
  /\ (exists e0 e1 : EnsembleStrategy.t Q,
        EnsembleStrategy.init [holding "MeanReversion"; holding "RSI"] None = Ok e0
        /\ EnsembleStrategy.add_strategy e0 (holding "MACD") None = (Ok tt, e1)
        /\ (weight_total e1 == 4 # 3)%Q)
  /\ (exists e0 e1 : EnsembleStrategy.t float,
        EnsembleStrategy.init [holding "RSI"] None = Ok e0
        /\ EnsembleStrategy.set_strategy_weight e0 "RSI" (lit 0)
           = (Raise ZeroDivisionError, e1)
        /\ weight_total e1 = lit 0)
  /\ (exists e1 : EnsembleStrategy.t float,
        EnsembleStrategy.set_strategy_weight
          (EnsembleStrategy.mk [holding "A"; holding "B"]
             [("A", 0x1p1023%float); ("B", lit 0.5)])
          "B" (0x1p1023%float)
        = (Ok tt, e1)
        /\ EnsembleStrategy.weights e1 = [("A", lit 0); ("B", lit 0)]
        /\ weight_total e1 = lit 0).
Proof.
  split; [|split; [|split]].
  - eexists. eexists. split; [vm_compute; reflexivity|].
    split; vm_compute; reflexivity.
  - eexists. eexists. split; [vm_compute; reflexivity|].
    split; vm_compute; reflexivity.
  - eexists. eexists. split; [vm_compute; reflexivity|].
    split; vm_compute; reflexivity.
  - eexists. split; [vm_compute; reflexivity|].
    split; vm_compute; reflexivity.
Qed.

(** Rounding: as the interpreter computes, the normalized weights of
    0.1, 0.2 and 0.3 are each the quotient by the total, whatever their sum
    then rounds to. *)
Example set_strategy_weight_float :
  exists e',
    EnsembleStrategy.set_strategy_weight
      (EnsembleStrategy.mk [holding "A"; holding "B"; holding "C"]
         [("A", lit 0.1); ("B", lit 0.2); ("C", lit 0.9)])
      "C" (lit 0.3 : float) = (Ok tt, e')
    /\ EnsembleStrategy.keys (EnsembleStrategy.weights e') = ["A"; "B"; "C"]
    /\ ltb (absv (sub (weight_total e') (lit 1))) (lit 0.000000001) = true.
Proof.
  eexists. split; [vm_compute; reflexivity|]. split; vm_compute; reflexivity.
Qed.

(** ** Sharpe ratio *)


(** [calculate_sharpe_ratio] returns [sqrt(periods_per_year) * mean / std] of
    the excess returns whenever [periods_per_year] is not zero. *)
Lemma sharpe_ratio_value (returns : list float) (rf ppy : float) :
  eqb ppy (lit 0) = false ->
  Helpers.calculate_sharpe_ratio returns rf ppy
  = Ok (let excess := map (fun r => sub r (div rf ppy)) returns in
        div (mul (PrimFloat.sqrt ppy) (Helpers.series_mean excess))
            (Helpers.series_std excess)).
Proof.
  intros Hppy. unfold Helpers.calculate_sharpe_ratio, truediv.
  rewrite Hppy. reflexivity.
Qed.

(** C3 (amended).  The Sharpe ratio computation returns
    [sqrt(periods_per_year) * mean(excess) / std(excess)].  A zero standard
    deviation signals no error: [calculate_sharpe_ratio] returns that
    quotient, an infinity or a NaN, and [AdvancedBacktester.run] keeps the
    default [0.0] whenever the deviation of the returns is not positive. *)
Theorem sharpe_ratio_degenerate :
  (forall (returns : list float) (rf ppy : float),
      eqb ppy (lit 0) = false ->
      let excess := map (fun r => sub r (div rf ppy)) returns in
      Helpers.calculate_sharpe_ratio returns rf ppy
      = Ok (div (mul (PrimFloat.sqrt ppy) (Helpers.series_mean excess))
                (Helpers.series_std excess))
      /\ (eqb (Helpers.series_std excess) (lit 0) = true ->
          exists v, Helpers.calculate_sharpe_ratio returns rf ppy = Ok v
                    /\ PrimFloat.is_finite v = false))
  /\ (forall equity_curve : list float,
        ltb (lit 0)
            (Helpers.series_std (Advanced.dropna (Advanced.pct_change equity_curve)))
        = false ->
        Advanced.sharpe_of_equity equity_curve = lit 0).
Proof.
  split.
  - intros returns rf ppy Hppy excess.
    pose proof (sharpe_ratio_value returns rf ppy Hppy) as Hvalue.
    cbv zeta in Hvalue. fold excess in Hvalue.
    split; [exact Hvalue|].
    intros Hstd. eexists. split; [exact Hvalue|].
    apply div_by_zero_not_finite. exact Hstd.
  - intros equity_curve Hstd. unfold Advanced.sharpe_of_equity.
    rewrite Hstd. destruct (_ <? _)%nat; reflexivity.
Qed.

Lemma sharpe_ratio_degenerate_witness :
  (exists v,
      Helpers.calculate_sharpe_ratio [lit 0.5; lit 0.5] (lit 0.02) (lit 252) = Ok v
      /\ PrimFloat.is_finite v = false)
  /\ Advanced.sharpe_of_equity [lit 100; lit 100; lit 100] = lit 0.
Proof.
  split.
  - refine (proj2 (proj1 sharpe_ratio_degenerate
                     [lit 0.5; lit 0.5] (lit 0.02) (lit 252) _) _);
      vm_compute; reflexivity.
  - apply (proj2 sharpe_ratio_degenerate). vm_compute. reflexivity.
Defined.

(** No 'undefined' error is signalled: two equal returns (zero deviation)
    give [+infinity], an empty series and a single return give [nan], and a
    flat equity curve gives a Sharpe ratio of [0.0] in the backtest metrics. *)
Lemma sharpe_ratio_signals_nothing :
  Helpers.calculate_sharpe_ratio_default [lit 0.5; lit 0.5] = Ok PrimFloat.infinity
  /\ Helpers.series_std (map (fun r => sub r (div (lit 0.02) (lit 252)))
                             [lit 0.5; lit 0.5]) = lit 0
  /\ Helpers.calculate_sharpe_ratio_default [] = Ok PrimFloat.nan
  /\ Helpers.calculate_sharpe_ratio_default [lit 0.01] = Ok PrimFloat.nan
  /\ Advanced.sharpe_of_equity [lit 100; lit 100; lit 100] = lit 0
  /\ Advanced.sharpe_of_equity [lit 100] = lit 0.
Proof. repeat split; vm_compute; reflexivity. Qed.

(** The one exception the function can raise: a zero [periods_per_year]. *)
Example sharpe_ratio_zero_periods :
  Helpers.calculate_sharpe_ratio [lit 0.01; lit 0.02] (lit 0.02) (lit 0)
  = Raise ZeroDivisionError.
Proof. vm_compute. reflexivity. Qed.

(** ** Strategy failures during a run *)

Section StrategyFailures.
Context {A : Type} `{Arith A}.
Import Advanced.
Local Open Scope num_scope.

(** The loop consults the signal function through [guarded] only. *)
Lemma loop_guarded (df : Data.DataFrame A) (f : Data.SignalFunc A) (sym : string)
    (rows : list (nat * Data.Bar A)) (st : LoopState A) :
  loop df f sym st rows = loop df (failures_as_hold f) sym st rows.
Proof.
  revert st. induction rows as [|[i bar] rows IH]; intros st; cbn [loop].
  - reflexivity.
  - change (step df (failures_as_hold f) sym st i bar) with (step df f sym st i bar).
    destruct (step df f sym st i bar); cbn [bind]; [apply IH|reflexivity].
Qed.

(** A bar on which the signal is [("HOLD", 0.0)] trades nothing. *)
Lemma trade_step_hold (df : Data.DataFrame A) (f : Data.SignalFunc A)
    (sym : string) (st : LoopState A) (i : nat) (bar : Data.Bar A) :
  guarded f (Data.prefix df i) = ("HOLD", lit 0) ->
  trade_step df f sym st i bar = Ok st.
Proof.
  intros Hhold. unfold trade_step. rewrite Hhold. cbn [fst snd].
  replace (String.eqb "HOLD" "BUY") with false by reflexivity.
  replace (String.eqb "HOLD" "SELL") with false by reflexivity.
  destruct (position st); reflexivity.
Qed.

(** A signal function that raises is read as [("HOLD", 0.0)]. *)
Lemma guarded_raise (f : Data.SignalFunc A) (d : Data.DataFrame A) :
  is_ok (f d) = false -> guarded f d = ("HOLD", lit 0).
Proof.
  unfold guarded. destruct (f d); [discriminate|reflexivity].
Qed.

(** With no position and a signal function that always raises, the loop
    appends the unchanged capital once per row and does nothing else. *)
Lemma loop_all_raise (df : Data.DataFrame A) (f : Data.SignalFunc A) (sym : string)
    (rows : list (nat * Data.Bar A)) (st : LoopState A) :
  (forall d, is_ok (f d) = false) ->
  position st = None ->
  exists st',
    loop df f sym st rows = Ok st'
    /\ position st' = None
    /\ new_trades st' = new_trades st
    /\ wins st' = wins st /\ losses st' = losses st
    /\ trades (self st') = trades (self st)
    /\ capital (self st') = capital (self st)
    /\ initial_capital (self st') = initial_capital (self st)
    /\ equity_curve (self st')
       = (equity_curve (self st) ++ repeat (capital (self st)) (length rows))%list.
Proof.
  intros Hraise. revert st.
  induction rows as [|[i bar] rows IH]; intros st Hflat; cbn [loop].
  - exists st. rewrite app_nil_r. repeat split; auto.
  - unfold step.
    rewrite (trade_step_hold df f sym st i bar (guarded_raise f _ (Hraise _))).
    cbn [bind]. unfold mark_step at 1. rewrite Hflat.
    match goal with |- context [loop df f sym ?s rows] => set (st1 := s) end.
    destruct (IH st1 eq_refl)
      as (st' & Hloop & Hpos & Htr & Hw & Hl & Hts & Hcap & Hinit & Heq).
    exists st'. split; [exact Hloop|].
    subst st1. cbn [self new_trades wins losses trades capital initial_capital
                    equity_curve] in *.
    repeat split; try assumption.
    rewrite Heq, <- app_assoc. reflexivity.
Qed.
End StrategyFailures.

(** [BacktestEngine.run_backtest] does not guard the call of the strategy. *)
Section EngineFailures.
Context {A : Type} `{Arith A}.
Import Engine.

Lemma engine_loop_app (df : Data.DataFrame A) (sym : string)
    (pre post : list (nat * Data.Bar A)) (st : t A * option (OpenPosition A)) :
  loop df sym st (pre ++ post)
  = (try! st1 := loop df sym st pre in loop df sym st1 post).
Proof.
  revert st. induction pre as [|[i bar] pre IH]; intros st; cbn [loop app bind].
  - reflexivity.
  - destruct (step df sym st i bar); cbn [bind]; [apply IH|reflexivity].
Qed.

(** The strategy is part of the configuration: no iteration replaces it. *)
Lemma engine_step_strategy (df : Data.DataFrame A) (sym : string)
    (st st' : t A * option (OpenPosition A)) (i : nat) (bar : Data.Bar A) :
  step df sym st i bar = Ok st' -> strategy (fst st') = strategy (fst st).
Proof.
  unfold step.
  destruct (strategy (fst st) (Data.prefix df i)) as [[signal conf]|x];
    cbn [bind fst snd]; [|discriminate].
  destruct (snd st) as [op|].
  - destruct (String.eqb signal "SELL"); intros [= <-]; reflexivity.
  - destruct (_ && _); intros [= <-]; reflexivity.
Qed.

Lemma engine_loop_strategy (df : Data.DataFrame A) (sym : string)
    (rows : list (nat * Data.Bar A)) (st st' : t A * option (OpenPosition A)) :
  loop df sym st rows = Ok st' -> strategy (fst st') = strategy (fst st).
Proof.
  revert st. induction rows as [|[i bar] rows IH]; intros st; cbn [loop].
  - intros [= <-]. reflexivity.
  - destruct (step df sym st i bar) as [st1|x] eqn:Hstep; cbn [bind];
      [|discriminate].
    intros Hloop. rewrite (IH _ Hloop). exact (engine_step_strategy _ _ _ _ _ _ Hstep).
Qed.

(** The exception the strategy raises on a bar, the bars before it having
    been processed, is the outcome of the run. *)
Lemma engine_propagates (e : t A) (df : Data.DataFrame A) (sym : string)
    (start_idx i : nat) (bar : Data.Bar A)
    (pre rest : list (nat * Data.Bar A))
    (st : t A * option (OpenPosition A)) (x : exn) :
  Data.rows_from start_idx df = (pre ++ (i, bar) :: rest)%list ->
  loop df sym (e, None) pre = Ok st ->
  strategy e (Data.prefix df i) = Raise x ->
  run_backtest e df sym start_idx = Raise x.
Proof.
  intros Hrows Hpre Hraise. unfold run_backtest.
  rewrite Hrows, engine_loop_app, Hpre. cbn [bind loop]. unfold step.
  rewrite (engine_loop_strategy _ _ _ _ _ Hpre). cbn [fst].
  rewrite Hraise. reflexivity.
Qed.
End EngineFailures.

(** C2 (amended).  In [AdvancedBacktester.run] an exception of the signal
    function on a bar is caught and read as [("HOLD", 0.0)] for that bar, and
    the simulation goes on: the run is the run with the failures replaced.
    A signal function that raises on every bar gives, for a non-zero initial
    capital, a completed run that trades nothing and whose equity curve gains
    the unchanged capital once per bar.  [BacktestEngine.run_backtest] does
    not guard the call: the exception of the strategy on a bar, the bars
    before it having been processed, ends the run. *)
Theorem strategy_failure_is_hold {A : Type} `{Arith A} :
  (forall (bt : Advanced.t A) (df : Data.DataFrame A) (f : Data.SignalFunc A)
          (sym : string) (warmup : nat),
      Advanced.run bt df f sym warmup
      = Advanced.run bt df (failures_as_hold f) sym warmup)
  /\ (forall (bt : Advanced.t A) (df : Data.DataFrame A) (f : Data.SignalFunc A)
            (sym : string) (warmup : nat),
        (forall d, is_ok (f d) = false) ->
        eqb (Advanced.initial_capital bt) (lit 0) = false ->
        exists bt' m,
          Advanced.run bt df f sym warmup = Ok (bt', m)
          /\ Advanced.m_trades m = []
          /\ Advanced.winning_trades m = 0%nat
          /\ Advanced.losing_trades m = 0%nat
          /\ Advanced.trades bt' = Advanced.trades bt
          /\ Advanced.total_trades m = length (Advanced.trades bt)
          /\ Advanced.capital bt' = Advanced.capital bt
          /\ Advanced.equity_curve bt'
             = (Advanced.equity_curve bt
                ++ repeat (Advanced.capital bt)
                     (Advanced.bars_processed df warmup))%list)
  /\ (forall (e : Engine.t A) (df : Data.DataFrame A) (sym : string)
            (start_idx i : nat) (bar : Data.Bar A)
            (pre rest : list (nat * Data.Bar A))
            (st : Engine.t A * option (Engine.OpenPosition A)) (x : exn),
        Data.rows_from start_idx df = (pre ++ (i, bar) :: rest)%list ->
        Engine.loop df sym (e, None) pre = Ok st ->
        Engine.strategy e (Data.prefix df i) = Raise x ->
        Engine.run_backtest e df sym start_idx = Raise x).
Proof.
  split; [|split; [|exact engine_propagates]].
  - intros bt df f sym warmup. unfold Advanced.run.
    rewrite loop_guarded. reflexivity.
  - intros bt df f sym warmup Hraise Hcap. unfold Advanced.run.
    destruct (loop_all_raise df f sym (Data.rows_from warmup df)
                (Advanced.start bt) Hraise eq_refl)
      as (st & Hloop & Hpos & Htr & Hw & Hl & Hts & Hc & Hinit & Heq).
    rewrite Hloop. cbn [bind].
    unfold Advanced.close_open. rewrite Hpos.
    unfold Advanced.finish.
    rewrite (return_ratio_ok (Advanced.self st)) by (rewrite Hinit; exact Hcap).
    cbn [Advanced.start Advanced.self bind] in *.
    eexists. eexists. split; [reflexivity|].
    cbn [Advanced.m_trades Advanced.winning_trades Advanced.losing_trades
         Advanced.total_trades].
    rewrite rows_from_length in Heq.
    cbn [Advanced.new_trades Advanced.wins Advanced.losses] in *.
    rewrite Hts. repeat split; assumption.
Qed.

Lemma strategy_failure_is_hold_witness :
  exists bt' m,
    Advanced.run (Advanced.init (lit 100000) (lit 0.02) None)
      rising_prices always_raises "STOCK" 0 = Ok (bt', m)
    /\ Advanced.m_trades m = []
    /\ Advanced.total_trades m = 0%nat
    /\ Advanced.equity_curve bt'
       = [lit 100000; lit 100000; lit 100000; lit 100000].
Proof.
  assert (Hcap : eqb (Advanced.initial_capital
                        (Advanced.init (lit 100000 : float) (lit 0.02) None))
                     (lit 0) = false) by (vm_compute; reflexivity).
  destruct (proj1 (proj2 (strategy_failure_is_hold (A:=float)))
              (Advanced.init (lit 100000) (lit 0.02) None)
              rising_prices always_raises "STOCK" 0%nat
              (fun _ => eq_refl) Hcap)
    as (bt' & m & Hrun & Hm & _ & _ & _ & Htotal & _ & Heq).
  exists bt', m. split; [exact Hrun|]. split; [exact Hm|].
  split; [exact Htotal|exact Heq].
Defined.

Lemma engine_aborts_on_failure :
  Engine.run_backtest
    (Engine.init always_raises (lit 100000) (lit 0.0002) (lit 1.0))
    rising_prices "EURUSD" 0
  = Raise (StrategyError "no signal").
Proof.
  eapply (engine_propagates _ _ _ _ _ _ []); reflexivity.
Qed.

(** ** The length of the equity curve *)

Section EngineLoop.
Context {A : Type} `{Arith A}.
Import Engine.

(** [BacktestEngine] appends to the equity curve exactly when it appends a
    trade. *)
Lemma record_trade_lengths (e : t A) (trade : Trade A) :
  length (equity_curve (record_trade e trade)) = S (length (equity_curve e))
  /\ length (trades (record_trade e trade)) = S (length (trades e)).
Proof.
  unfold record_trade. cbn. rewrite !length_app. cbn. lia.
Qed.

Lemma step_lengths (df : Data.DataFrame A) (sym : string)
    (st st' : t A * option (OpenPosition A)) (i : nat) (bar : Data.Bar A) :
  step df sym st i bar = Ok st' ->
  (length (equity_curve (fst st')) + length (trades (fst st))
   = length (equity_curve (fst st)) + length (trades (fst st')))%nat.
Proof.
  unfold step.
  destruct (strategy (fst st) (Data.prefix df i)) as [[signal conf]|x];
    cbn [bind fst snd]; [|discriminate].
  destruct (snd st) as [op|].
  - destruct (String.eqb signal "SELL").
    + intros [= <-]. cbn [fst].
      destruct (record_trade_lengths (fst st)
                  (closed_trade (fst st) sym op (Data.time bar)
                     (sell_fill (fst st) (Data.close bar)) "signal")).
      lia.
    + intros [= <-]. lia.
  - destruct (_ && _); intros [= <-]; cbn [fst]; lia.
Qed.

Lemma loop_lengths (df : Data.DataFrame A) (sym : string)
    (rows : list (nat * Data.Bar A)) (st st' : t A * option (OpenPosition A)) :
  loop df sym st rows = Ok st' ->
  (length (equity_curve (fst st')) + length (trades (fst st))
   = length (equity_curve (fst st)) + length (trades (fst st')))%nat.
Proof.
  revert st. induction rows as [|[i bar] rows IH]; intros st; cbn [loop].
  - intros [= <-]. lia.
  - destruct (step df sym st i bar) as [st1|x] eqn:Hstep; cbn [bind];
      [|discriminate].
    intros Hloop. apply IH in Hloop. apply step_lengths in Hstep. lia.
Qed.

Lemma close_remaining_lengths (df : Data.DataFrame A) (sym : string)
    (st : t A * option (OpenPosition A)) :
  (length (equity_curve (close_remaining df sym st)) + length (trades (fst st))
   = length (equity_curve (fst st)) + length (trades (close_remaining df sym st)))%nat.
Proof.
  unfold close_remaining. destruct (snd st) as [op|], (last df) as [final|];
    try lia.
  match goal with
  | |- context [record_trade ?e ?tr] => destruct (record_trade_lengths e tr)
  end. lia.
Qed.

(** After a completed simulation the curve has grown by one value per trade
    closed. *)
Lemma run_backtest_lengths (e e' : t A) (df : Data.DataFrame A) (sym : string)
    (start_idx : nat) :
  run_backtest e df sym start_idx = Ok e' ->
  (length (equity_curve e') + length (trades e)
   = length (equity_curve e) + length (trades e'))%nat.
Proof.
  unfold run_backtest.
  destruct (loop df sym (e, None) (Data.rows_from start_idx df)) as [st|x] eqn:Hloop;
    cbn [bind]; [|discriminate].
  intros [= <-]. apply loop_lengths in Hloop. cbn [fst] in Hloop.
  pose proof (close_remaining_lengths df sym st). lia.
Qed.
End EngineLoop.

(** C1 (amended).  After a completed run of a fresh [AdvancedBacktester] the
    equity curve holds the seed and at least one value per bar processed
    after warm-up, appended whether or not a trade occurred on the bar; it
    has exactly one more entry than bars processed when no position was
    closed on a SELL signal during the run.  After a completed simulation of
    a fresh [BacktestEngine] it holds the seed and one value per closed
    trade. *)
Theorem equity_curve_length {A : Type} `{Arith A} :
  (forall (initial_capital max_position_pct : A)
          (execution : option (Advanced.ExecutionMetrics A))
          (df : Data.DataFrame A) (f : Data.SignalFunc A) (sym : string)
          (warmup : nat) (bt' : Advanced.t A) (m : Advanced.BacktestMetrics A),
      Advanced.run (Advanced.init initial_capital max_position_pct execution)
        df f sym warmup = Ok (bt', m) ->
      (Advanced.bars_processed df warmup + 1
       <= length (Advanced.equity_curve bt'))%nat
      /\ (signal_exits (Advanced.m_trades m) = 0%nat ->
          length (Advanced.equity_curve bt')
          = (Advanced.bars_processed df warmup + 1)%nat)
      /\ Advanced.m_equity_curve m = Advanced.equity_curve bt')
  /\ (forall (strategy : Data.SignalFunc A) (initial_capital commission pips : A)
            (df : Data.DataFrame A) (sym : string) (start_idx : nat)
            (e' : Engine.t A),
        Engine.run_backtest (Engine.init strategy initial_capital commission pips)
          df sym start_idx = Ok e' ->
        length (Engine.equity_curve e') = (length (Engine.trades e') + 1)%nat).
Proof.
  split.
  - intros ic mp ex df f sym warmup bt' m Hrun.
    destruct (run_equity_length _ _ _ _ _ _ _ Hrun) as [Hlen Hm].
    cbn [Advanced.init Advanced.equity_curve length] in Hlen.
    repeat split; [lia|intros Hnone; lia|exact Hm].
  - intros strategy ic c pips df sym start_idx e' Hrun.
    apply run_backtest_lengths in Hrun.
    cbn [Engine.init Engine.equity_curve Engine.trades length] in Hrun. lia.
Qed.

Lemma equity_curve_length_witness :
  exists bt' m,
    Advanced.run (Advanced.init (lit 100000) (lit 0.02) None)
      rising_prices buy_and_hold "STOCK" 0 = Ok (bt', m)
    /\ length (Advanced.m_trades m) = 1%nat
    /\ length (Advanced.equity_curve bt')
       = (Advanced.bars_processed rising_prices 0 + 1)%nat.
Proof.
  destruct (Advanced.run (Advanced.init (lit 100000) (lit 0.02) None)
              rising_prices buy_and_hold "STOCK" 0) as [[bt' m]|x] eqn:Hrun;
    [|vm_compute in Hrun; discriminate].
  exists bt', m. split; [reflexivity|].
  assert (Hm : Advanced.m_trades m
               = match Advanced.run (Advanced.init (lit 100000) (lit 0.02) None)
                         rising_prices buy_and_hold "STOCK" 0 with
                 | Ok (_, m0) => Advanced.m_trades m0
                 | Raise _ => []
                 end) by (rewrite Hrun; reflexivity).
  split; [rewrite Hm; vm_compute; reflexivity|].
  apply (proj1 (equity_curve_length (A:=float))
           (lit 100000) (lit 0.02) None rising_prices buy_and_hold "STOCK" 0%nat
           bt' m Hrun).
  rewrite Hm. vm_compute. reflexivity.
Defined.

(** A BUY on the first of three bars and a SELL on the second: the curve of
    [AdvancedBacktester] has five entries for three bars (the bar of the exit
    contributes two), that of [BacktestEngine] has two (the seed and the one
    trade). *)
Lemma equity_curve_not_bars_plus_one :
  (exists bt m,
      Advanced.run (Advanced.init (lit 100000) (lit 0.02) None)
        rising_prices buy_sell_hold "STOCK" 0 = Ok (bt, m)
      /\ Advanced.bars_processed rising_prices 0 = 3%nat
      /\ length (Advanced.equity_curve bt) = 5%nat)
  /\ (exists e,
        Engine.run_backtest
          (Engine.init buy_sell_hold (lit 100000) (lit 0.0002) (lit 1.0))
          rising_prices "EURUSD" 0 = Ok e
        /\ length rising_prices = 3%nat
        /\ length (Engine.trades e) = 1%nat
        /\ length (Engine.equity_curve e) = 2%nat).
Proof.
  split.
  - eexists. eexists. split; [vm_compute; reflexivity|].
    split; vm_compute; reflexivity.
  - eexists. split; [vm_compute; reflexivity|].
    repeat split; vm_compute; reflexivity.
Qed.

(* ===================================================================== *)
(** * Further properties *)
(* ===================================================================== *)

(** ** Accounting of AdvancedBacktester.run *)

Section AdvancedAccounting.
Context {A : Type} `{Arith A}.
Import Advanced.
Local Open Scope num_scope.

Lemma accounted_refl (st : LoopState A) : accounted st st 0.
Proof.
  exists []. rewrite !app_nil_r. cbn. repeat split; lia.
Qed.

Lemma capital_after_snoc (c : A) (closed : list (Trade A)) (t : Trade A) :
  capital_after c (closed ++ [t]) = capital_after c closed + net_pnl t.
Proof. unfold capital_after. rewrite fold_left_app. reflexivity. Qed.

Lemma accounted_step (df : Data.DataFrame A) (f : Data.SignalFunc A) (sym : string)
    (st0 st st' : LoopState A) (i n : nat) (bar : Data.Bar A) :
  accounted st0 st n ->
  step df f sym st i bar = Ok st' ->
  accounted st0 st' (S n).
Proof.
  intros (closed & Hnew & Htrades & Hcap & Hcount & Hbars). unfold step.
  destruct (trade_step df f sym st i bar) as [st1|x] eqn:Htrade; cbn [bind];
    [|discriminate].
  intros [= <-].
  assert (Hst1 : accounted st0 st1 (S n)).
  { unfold trade_step in Htrade. destruct (position st) as [op|] eqn:Hpos.
    - destruct (String.eqb _ "SELL").
      + destruct (get_slippage_multiplier _ "sell") as [mult|x]; cbn [bind] in Htrade;
          [|discriminate].
        injection Htrade as <-.
        match goal with
        | |- context [closed_trade ?b ?s ?o ?t ?p ?h ?r] =>
            set (trade := closed_trade b s o t p h r)
        end.
        exists (closed ++ [trade])%list.
        cbn [new_trades self trades capital position wins losses open_count].
        rewrite Hnew, Htrades, Hcap, capital_after_snoc, !app_assoc, length_app.
        cbn [length open_count] in *.
        repeat split; try reflexivity;
          try match goal with |- context [if ?won then S _ else _] => destruct won end;
          lia.
      + injection Htrade as <-. exists closed. rewrite Hpos.
        repeat split; try assumption. cbn [open_count] in *. lia.
    - destruct (_ && _).
      + rewrite buy_multiplier in Htrade. cbn [bind] in Htrade.
        injection Htrade as <-. exists closed.
        cbn [new_trades self trades capital position wins losses open_count] in *.
        repeat split; try assumption. lia.
      + injection Htrade as <-. exists closed. rewrite Hpos.
        repeat split; try assumption. cbn [open_count] in *. lia. }
  destruct Hst1 as (closed1 & Hnew1 & Htrades1 & Hcap1 & Hcount1 & Hbars1).
  exists closed1. unfold mark_step.
  destruct (position st1);
    cbn [new_trades self trades capital position wins losses open_count] in *;
    repeat split; assumption.
Qed.

Lemma accounted_loop (df : Data.DataFrame A) (f : Data.SignalFunc A) (sym : string)
    (rows : list (nat * Data.Bar A)) (st0 st st' : LoopState A) (n : nat) :
  accounted st0 st n ->
  loop df f sym st rows = Ok st' ->
  accounted st0 st' (n + length rows).
Proof.
  revert st n. induction rows as [|[i bar] rows IH]; intros st n Hst; cbn [loop].
  - intros [= <-]. cbn. rewrite Nat.add_0_r. exact Hst.
  - destruct (step df f sym st i bar) as [st1|x] eqn:Hstep; cbn [bind];
      [|discriminate].
    intros Hloop. replace (n + length ((i, bar) :: rows))%nat
      with (S n + length rows)%nat by (cbn; lia).
    eapply IH; [|exact Hloop]. eapply accounted_step; eassumption.
Qed.
End AdvancedAccounting.

(** X1.  After a completed run the backtester holds its earlier trades
    followed by the trades of the run, the ones the metrics list; each of
    them was counted once, as a win or as a loss; the capital is the capital
    before the run plus their net P&L, added in order; and since a trade
    takes an entry bar and a later exit bar (or the end of the data), the
    run makes at most one trade per two bars processed, rounded up. *)
Theorem run_accounting {A : Type} `{Arith A}
    (bt bt' : Advanced.t A) (df : Data.DataFrame A) (f : Data.SignalFunc A)
    (sym : string) (warmup : nat) (m : Advanced.BacktestMetrics A) :
  Advanced.run bt df f sym warmup = Ok (bt', m) ->
  Advanced.trades bt' = (Advanced.trades bt ++ Advanced.m_trades m)%list
  /\ Advanced.capital bt' = capital_after (Advanced.capital bt) (Advanced.m_trades m)
  /\ Advanced.ending_capital m = Advanced.capital bt'
  /\ (Advanced.winning_trades m + Advanced.losing_trades m
      = length (Advanced.m_trades m))%nat
  /\ Advanced.total_trades m
     = (length (Advanced.trades bt) + length (Advanced.m_trades m))%nat
  /\ (2 * length (Advanced.m_trades m)
      <= Advanced.bars_processed df warmup + 1)%nat.
Proof.
  unfold Advanced.run.
  destruct (Advanced.loop df f sym (Advanced.start bt) (Data.rows_from warmup df))
    as [st|x] eqn:Hloop; cbn [bind]; [|discriminate].
  pose proof (accounted_loop df f sym _ _ _ _ 0 (accounted_refl _) Hloop)
    as (closed & Hnew & Htrades & Hcap & Hcount & Hbars).
  rewrite rows_from_length in Hbars.
  cbn [Advanced.start Advanced.new_trades Advanced.self Advanced.wins
       Advanced.losses Advanced.position open_count app Nat.add] in *.
  unfold Advanced.finish.
  destruct (Advanced.return_ratio _) as [ratio|x]; cbn [bind]; [|discriminate].
  intros [= <- <-].
  cbn [Advanced.m_trades Advanced.ending_capital Advanced.winning_trades
       Advanced.losing_trades Advanced.total_trades].
  unfold Advanced.close_open.
  destruct (Advanced.position st) as [op|], (last df) as [final|];
    cbn [Advanced.self Advanced.trades Advanced.capital Advanced.new_trades
         Advanced.wins Advanced.losses open_count] in *;
    rewrite ?Hnew, ?Htrades, ?Hcap, ?length_app, <- ?app_assoc;
    try (repeat split; try reflexivity; lia).
  unfold capital_after. rewrite fold_left_app. cbn [fold_left length].
  repeat split; try reflexivity;
          try match goal with |- context [if ?won then S _ else _] => destruct won end;
          lia.
Qed.

Lemma run_accounting_witness :
  exists bt' m,
    Advanced.run (Advanced.init (lit 100000) (lit 0.02) None)
      rising_prices buy_sell_hold "STOCK" 0 = Ok (bt', m)
    /\ Advanced.capital bt' = capital_after (lit 100000) (Advanced.m_trades m)
    /\ (2 * length (Advanced.m_trades m) <= 3 + 1)%nat.
Proof.
  destruct (Advanced.run (Advanced.init (lit 100000) (lit 0.02) None)
              rising_prices buy_sell_hold "STOCK" 0) as [[bt' m]|x] eqn:Hrun;
    [|vm_compute in Hrun; discriminate].
  exists bt', m. split; [reflexivity|].
  pose proof (run_accounting _ _ _ _ _ _ _ Hrun) as (_ & Hcap & _ & _ & _ & Hbars).
  split; [exact Hcap|exact Hbars].
Defined.

(** ** The signal function sees the past only *)

Section NoLookAhead.
Context {A : Type} `{Arith A}.
Import Advanced.

Lemma rows_from_index (df : Data.DataFrame A) (start i : nat) (bar : Data.Bar A) :
  In (i, bar) (Data.rows_from start df) -> (start <= i < length df)%nat.
Proof.
  unfold Data.rows_from. intros Hin. apply in_combine_l in Hin.
  apply in_seq in Hin. lia.
Qed.

Lemma step_guarded (df : Data.DataFrame A) (f f' : Data.SignalFunc A)
    (sym : string) (st : LoopState A) (i : nat) (bar : Data.Bar A) :
  guarded f (Data.prefix df i) = guarded f' (Data.prefix df i) ->
  step df f sym st i bar = step df f' sym st i bar.
Proof.
  intros Heq. unfold step, trade_step. rewrite Heq. reflexivity.
Qed.

Lemma loop_guarded_ext (df : Data.DataFrame A) (f f' : Data.SignalFunc A)
    (sym : string) (rows : list (nat * Data.Bar A)) (st : LoopState A) :
  (forall i bar, In (i, bar) rows ->
     guarded f (Data.prefix df i) = guarded f' (Data.prefix df i)) ->
  loop df f sym st rows = loop df f' sym st rows.
Proof.
  revert st. induction rows as [|[i bar] rows IH]; intros st Heq; cbn [loop].
  - reflexivity.
  - rewrite (step_guarded df f f') by (apply (Heq i bar); left; reflexivity).
    destruct (step df f' sym st i bar) as [st'|x]; cbn [bind]; [|reflexivity].
    apply IH. intros j b Hin. apply (Heq j b). right. exact Hin.
Qed.
End NoLookAhead.

(** X2.  A run consults the signal function only on the frames
    [df.iloc[:i+1]] of the bars [i] from the warm-up on, and only through
    the guard that turns an exception into a hold: two signal functions
    that agree there (after the guard) give the same backtester and the
    same metrics, whatever they answer on the whole frame, on later
    prefixes or during the warm-up. *)
Theorem run_no_look_ahead {A : Type} `{Arith A}
    (bt : Advanced.t A) (df : Data.DataFrame A) (f f' : Data.SignalFunc A)
    (sym : string) (warmup : nat) :
  (forall i, (warmup <= i < length df)%nat ->
     Advanced.guarded f (Data.prefix df i) = Advanced.guarded f' (Data.prefix df i)) ->
  Advanced.run bt df f sym warmup = Advanced.run bt df f' sym warmup.
Proof.
  intros Heq. unfold Advanced.run.
  rewrite (loop_guarded_ext df f f'); [reflexivity|].
  intros i bar Hin. apply Heq. eapply rows_from_index. exact Hin.
Qed.

Lemma run_no_look_ahead_witness :
  Advanced.run (Advanced.init (lit 100000) (lit 0.02) None)
    rising_prices buy_sell_hold "STOCK" 1
  = Advanced.run (Advanced.init (lit 100000) (lit 0.02) None)
      rising_prices sell_then_hold "STOCK" 1.
Proof.
  apply run_no_look_ahead. intros i Hi. cbn [length rising_prices] in Hi.
  assert (Hcases : i = 1%nat \/ i = 2%nat) by lia.
  destruct Hcases as [-> | ->]; reflexivity.
Defined.

(** ** Accounting of BacktestEngine.run_backtest *)

Section EngineAccounting.
Context {A : Type} `{Arith A}.
Import Engine.
Local Open Scope num_scope.

Lemma running_capital_snoc (c : A) (closed : list (Trade A)) (t : Trade A) :
  running_capital c (closed ++ [t])
  = (running_capital c closed ++ [engine_capital_after c closed + pnl t])%list.
Proof.
  revert c. induction closed as [|t0 closed IH]; intros c; cbn.
  - reflexivity.
  - rewrite IH. reflexivity.
Qed.

Lemma engine_capital_after_snoc (c : A) (closed : list (Trade A)) (t : Trade A) :
  engine_capital_after c (closed ++ [t]) = engine_capital_after c closed + pnl t.
Proof. unfold engine_capital_after. rewrite fold_left_app. reflexivity. Qed.

Lemma engine_accounted_record (e0 e : t A) (n : nat) (sym : string)
    (op : OpenPosition A) (exit_time : Z) (exit_price : A) (reason : string) :
  engine_accounted e0 (e, Some op) n ->
  engine_accounted e0
    (record_trade e (closed_trade e sym op exit_time exit_price reason), None)
    (S n).
Proof.
  intros (closed & Htrades & Hcurve & Hcap & Hbars & Hinit & Hcomm & Hpnl).
  cbn [fst snd open_count] in *.
  exists (closed ++ [closed_trade e sym op exit_time exit_price reason])%list.
  cbn [fst snd open_count record_trade trades equity_curve current_capital
       initial_capital commission].
  rewrite Htrades, Hcurve, Hcap, running_capital_snoc, engine_capital_after_snoc,
    !app_assoc, length_app.
  cbn [length]. repeat split; try reflexivity; try assumption; try lia.
  apply Forall_app. split; [exact Hpnl|]. constructor; [|constructor].
  unfold engine_pnl_booked. cbn. rewrite Hinit, Hcomm. reflexivity.
Qed.

Lemma engine_accounted_step (df : Data.DataFrame A) (sym : string) (e0 : t A)
    (st st' : t A * option (OpenPosition A)) (i n : nat) (bar : Data.Bar A) :
  engine_accounted e0 st n ->
  step df sym st i bar = Ok st' ->
  engine_accounted e0 st' (S n).
Proof.
  intros Hst. unfold step.
  destruct (strategy (fst st) (Data.prefix df i)) as [sc|x]; cbn [bind];
    [|discriminate].
  destruct st as [e [op|]]; cbn [fst snd].
  - destruct (String.eqb _ "SELL"); intros [= <-].
    + apply engine_accounted_record. exact Hst.
    + destruct Hst as (closed & Hst). exists closed.
      cbn [fst snd open_count] in *. intuition lia.
  - destruct (_ && _); intros [= <-];
      destruct Hst as (closed & Hst); exists closed;
      cbn [fst snd open_count] in *; intuition lia.
Qed.

Lemma engine_accounted_loop (df : Data.DataFrame A) (sym : string) (e0 : t A)
    (rows : list (nat * Data.Bar A)) (st st' : t A * option (OpenPosition A))
    (n : nat) :
  engine_accounted e0 st n ->
  loop df sym st rows = Ok st' ->
  engine_accounted e0 st' (n + length rows).
Proof.
  revert st n. induction rows as [|[i bar] rows IH]; intros st n Hst; cbn [loop].
  - intros [= <-]. cbn. rewrite Nat.add_0_r. exact Hst.
  - destruct (step df sym st i bar) as [st1|x] eqn:Hstep; cbn [bind];
      [|discriminate].
    intros Hloop. replace (n + length ((i, bar) :: rows))%nat
      with (S n + length rows)%nat by (cbn; lia).
    eapply IH; [|exact Hloop]. eapply engine_accounted_step; eassumption.
Qed.

Lemma engine_accounted_start (e : t A) : engine_accounted e (e, None) 0.
Proof.
  exists []. cbn. rewrite !app_nil_r. repeat split; try lia. constructor.
Qed.
End EngineAccounting.

(** X3.  After a completed [run_backtest] the engine holds its earlier
    trades followed by the trades of the run; the equity curve has grown by
    one entry per trade, the running capital after it, and the current
    capital is the capital before the run plus the P&L of the trades in
    order; every trade is charged the commission rate times the initial
    capital, whatever its size; and the run makes at most one trade per two
    bars processed, rounded up. *)
Theorem run_backtest_accounting {A : Type} `{Arith A}
    (e e' : Engine.t A) (df : Data.DataFrame A) (sym : string) (start_idx : nat) :
  Engine.run_backtest e df sym start_idx = Ok e' ->
  exists closed : list (Engine.Trade A),
    Engine.trades e' = (Engine.trades e ++ closed)%list
    /\ Engine.equity_curve e'
       = (Engine.equity_curve e
          ++ running_capital (Engine.current_capital e) closed)%list
    /\ Engine.current_capital e'
       = engine_capital_after (Engine.current_capital e) closed
    /\ Forall (engine_pnl_booked e) closed
    /\ (2 * length closed <= (length df - start_idx) + 1)%nat.
Proof.
  unfold Engine.run_backtest.
  destruct (Engine.loop df sym (e, None) (Data.rows_from start_idx df))
    as [[e1 position]|x] eqn:Hloop; cbn [bind]; [|discriminate].
  intros [= <-].
  pose proof (engine_accounted_loop df sym e _ _ _ 0 (engine_accounted_start e) Hloop)
    as Hst.
  rewrite rows_from_length in Hst. unfold Advanced.bars_processed in Hst.
  cbn [Nat.add] in Hst. unfold Engine.close_remaining. cbn [fst snd].
  destruct position as [op|], (last df) as [final|].
  - pose proof (engine_accounted_record e e1 _ sym op (Data.time final)
                  (Data.close final) "end_of_data" Hst)
      as (closed & Htrades & Hcurve & Hcap & Hbars & _ & _ & Hpnl).
    exists closed. cbn [fst snd open_count] in *. repeat split; try assumption. lia.
  - destruct Hst as (closed & Htrades & Hcurve & Hcap & Hbars & _ & _ & Hpnl).
    exists closed. cbn [fst snd open_count] in *. repeat split; try assumption. lia.
  - destruct Hst as (closed & Htrades & Hcurve & Hcap & Hbars & _ & _ & Hpnl).
    exists closed. cbn [fst snd open_count] in *. repeat split; try assumption. lia.
  - destruct Hst as (closed & Htrades & Hcurve & Hcap & Hbars & _ & _ & Hpnl).
    exists closed. cbn [fst snd open_count] in *. repeat split; try assumption. lia.
Qed.

Lemma run_backtest_accounting_witness :
  exists e' closed,
    Engine.run_backtest
      (Engine.init buy_sell_hold (lit 100000) (lit 0.0001) (lit 2))
      rising_prices "STOCK" 0 = Ok e'
    /\ Engine.trades e' = closed
    /\ Engine.equity_curve e' = lit 100000 :: running_capital (lit 100000) closed.
Proof.
  destruct (Engine.run_backtest
              (Engine.init buy_sell_hold (lit 100000) (lit 0.0001) (lit 2))
              rising_prices "STOCK" 0) as [e'|x] eqn:Hrun;
    [|vm_compute in Hrun; discriminate].
  destruct (run_backtest_accounting _ _ _ _ _ Hrun)
    as (closed & Htrades & Hcurve & _).
  exists e', closed. split; [reflexivity|]. split; [exact Htrades|exact Hcurve].
Defined.

(** ** The ledger of Portfolio *)

Section PortfolioLedger.
Context {A : Type} `{Arith A}.
Import Portfolio PortfolioOps.
Local Open Scope num_scope.

Lemma running_sum_snoc (c : A) (xs : list A) (x : A) :
  running_sum c (xs ++ [x]) = (running_sum c xs ++ [sum_from c xs + x])%list.
Proof.
  revert c. induction xs as [|y xs IH]; intros c; cbn.
  - reflexivity.
  - rewrite IH. reflexivity.
Qed.

Lemma sum_from_snoc (c : A) (xs : list A) (x : A) :
  sum_from c (xs ++ [x]) = sum_from c xs + x.
Proof. unfold sum_from. rewrite fold_left_app. reflexivity. Qed.

Lemma running_sum_length (c : A) (xs : list A) :
  length (running_sum c xs) = length xs.
Proof.
  revert c. induction xs as [|y xs IH]; intros c; cbn; [|rewrite IH]; reflexivity.
Qed.

Lemma running_sum_last (c : A) (xs : list A) :
  last (c :: running_sum c xs) = Some (sum_from c xs).
Proof.
  revert c. induction xs as [|y xs IH]; intros c; [reflexivity|].
  change (last (c :: running_sum c (y :: xs)))
    with (last ((c + y) :: running_sum (c + y) xs)).
  rewrite IH. reflexivity.
Qed.

Lemma ledger_init (c : A) : ledger c (init c).
Proof. repeat split. constructor. Qed.

Lemma ledger_after (c : A) (p : t A) (k : call A) :
  ledger c p -> ledger c (after p k).
Proof.
  intros (Hinit & Hcurve & Hcap & Hpnl).
  destruct k as [s q entry sl tp now | s exit reason now]; cbn [after].
  - repeat split; assumption.
  - unfold close_position. destruct (positions p !! s) as [pos|];
      [|repeat split; assumption].
    destruct (truediv _ (entry_price pos)) as [pct|x]; cbn [snd];
      [|repeat split; assumption].
    unfold ledger. cbn [initial_capital equity_curve current_capital trades].
    rewrite map_app. cbn [map trade_pnl].
    rewrite running_sum_snoc, sum_from_snoc, Hcurve, Hcap. repeat split; try assumption; try reflexivity.
    apply Forall_app. split; [exact Hpnl|]. constructor; [reflexivity|constructor].
Qed.

Lemma ledger_after_all (c : A) (calls : list (call A)) (p : t A) :
  ledger c p -> ledger c (after_all p calls).
Proof.
  revert p. induction calls as [|k calls IH]; intros p Hp; [exact Hp|].
  apply IH. apply ledger_after. exact Hp.
Qed.
End PortfolioLedger.

(** X4.  Whatever sequence of [add_position] and [close_position] calls a
    portfolio has seen since it was created, calls that raised included,
    its equity curve is the initial capital followed by the capital after
    each recorded trade (one entry more than there are trades), the current
    capital is the last entry of the curve, and each trade's P&L is the
    price difference times the quantity. *)
Theorem portfolio_ledger {A : Type} `{Arith A}
    (c : A) (calls : list (PortfolioOps.call A)) :
  let p := PortfolioOps.after_all (Portfolio.init c) calls in
  ledger c p
  /\ length (Portfolio.equity_curve p) = S (length (Portfolio.trades p))
  /\ last (Portfolio.equity_curve p) = Some (Portfolio.current_capital p).
Proof.
  intros p.
  assert (Hp : ledger c p) by (apply ledger_after_all, ledger_init).
  split; [exact Hp|]. destruct Hp as (_ & Hcurve & Hcap & _).
  rewrite Hcurve, Hcap. split.
  - cbn [length]. rewrite running_sum_length, length_map. reflexivity.
  - apply running_sum_last.
Qed.

(** X5.  Closing a position right after it was added: with a non-zero entry
    price the call returns [(exit_price - entry_price) * quantity], records
    one trade with that P&L and adds it to the capital; with a zero entry
    price it raises [ZeroDivisionError] and records nothing.  Either way
    the symbol is no longer held, any position it held before the
    [add_position] is gone without a trade, and the other symbols are
    untouched. *)
Theorem add_then_close_position {A : Type} `{Arith A}
    (p : Portfolio.t A) (s reason : string) (q entry sl tp exit_ : A)
    (now now' : Z) :
  let p1 := Portfolio.add_position p s q entry sl tp now in
  let closed := Portfolio.close_position p1 s exit_ reason now' in
  let p2 := snd closed in
  let pnl := mul (sub exit_ entry) q in
  (eqb entry (lit 0) = false ->
     fst closed = Ok pnl
     /\ Portfolio.current_capital p2 = add (Portfolio.current_capital p) pnl
     /\ map Portfolio.trade_pnl (Portfolio.trades p2)
        = (map Portfolio.trade_pnl (Portfolio.trades p) ++ [pnl])%list)
  /\ (eqb entry (lit 0) = true ->
        fst closed = Raise ZeroDivisionError
        /\ Portfolio.current_capital p2 = Portfolio.current_capital p
        /\ Portfolio.trades p2 = Portfolio.trades p
        /\ Portfolio.equity_curve p2 = Portfolio.equity_curve p)
  /\ Portfolio.positions p2 = delete s (Portfolio.positions p)
  /\ PortfolioOps.get_position_value p1 s exit_ = mul q exit_
  /\ PortfolioOps.get_position_value p2 s exit_ = lit 0.
Proof.
  intros p1 closed p2 pnl. subst p2 closed p1.
  unfold PortfolioOps.get_position_value, Portfolio.close_position,
    Portfolio.add_position, truediv.
  cbn [Portfolio.positions]. rewrite lookup_insert_eq.
  cbn [Portfolio.entry_price Portfolio.quantity].
  destruct (eqb entry (lit 0)); cbn [fst snd Portfolio.positions
    Portfolio.current_capital Portfolio.trades Portfolio.equity_curve];
    rewrite delete_insert_eq, lookup_delete_eq;
    repeat split; try reflexivity; try discriminate.
  rewrite map_app. reflexivity.
Qed.

Lemma add_then_close_position_witness :
  fst (Portfolio.close_position one_position "GBPUSD" (lit 1.3) "manual" 1)
  = Ok (mul (sub (lit 1.3) (lit 1.25)) (lit 1000)).
Proof.
  refine (proj1 (proj1 (add_then_close_position
                          (Portfolio.init (lit 100000)) "GBPUSD" "manual"
                          (lit 1000) (lit 1.25) (lit 1.2) (lit 1.3) (lit 1.3) 0 1)
                   _)).
  vm_compute. reflexivity.
Defined.

(** ** The circuit breakers of RiskMonitor *)

Section DailyLoss.
Context {A : Type} `{Arith A}.

(** No call of [update_capital] touches [daily_pnl] or the limits. *)
Lemma updates_daily_pnl (m : RiskMonitor.t A) (capitals : list A) :
  RiskMonitor.daily_pnl (RiskMonitor.updates m capitals) = RiskMonitor.daily_pnl m
  /\ RiskMonitor.max_daily_loss (RiskMonitor.updates m capitals)
     = RiskMonitor.max_daily_loss m.
Proof.
  unfold RiskMonitor.updates. revert m.
  induction capitals as [|c capitals IH]; intros m; cbn [fold_left].
  - split; reflexivity.
  - destruct (IH (RiskMonitor.update_capital m c)) as [-> ->]. split; reflexivity.
Qed.
End DailyLoss.

(** Zero is below [-x] exactly when [x] is below zero. *)
Lemma float_ltb_opp (x : float) :
  PrimFloat.ltb 0 (PrimFloat.opp x) = PrimFloat.ltb x 0.
Proof.
  rewrite !FloatAxioms.ltb_spec, FloatAxioms.opp_spec.
  change (Prim2SF 0) with (S754_zero false).
  destruct (Prim2SF x) as [s|s| |s m e]; try destruct s; reflexivity.
Qed.

(** X6.  [daily_pnl] is set to 0.0 by the constructor and no method of the
    monitor assigns it, so after any sequence of [update_capital] calls the
    daily-loss breaker compares 0 with [-max_daily_loss]: for a limit that is
    not negative it never fires, and [should_stop_trading] is the drawdown
    breaker alone.  On binary64, for every sequence of doubles. *)
Theorem daily_loss_breaker_never_fires
    (md mdl mps : float) (capitals : list float) :
  PrimFloat.ltb mdl 0 = false ->
  let m := RiskMonitor.updates (RiskMonitor.init md mdl mps) capitals in
  RiskMonitor.daily_pnl m = lit 0
  /\ RiskLimits.is_daily_loss_exceeded m = false
  /\ RiskLimits.should_stop_trading m = RiskMonitor.is_drawdown_exceeded m.
Proof.
  intros Hlimit m.
  destruct (updates_daily_pnl (RiskMonitor.init md mdl mps) capitals)
    as [Hpnl Hmax].
  fold m in Hpnl, Hmax. cbn [RiskMonitor.init RiskMonitor.daily_pnl
    RiskMonitor.max_daily_loss] in Hpnl, Hmax.
  assert (Hdaily : RiskLimits.is_daily_loss_exceeded m = false).
  { unfold RiskLimits.is_daily_loss_exceeded. rewrite Hpnl, Hmax.
    change (PrimFloat.ltb 0 (PrimFloat.opp mdl) = false).
    rewrite float_ltb_opp. exact Hlimit. }
  split; [exact Hpnl|]. split; [exact Hdaily|].
  unfold RiskLimits.should_stop_trading. rewrite Hdaily.
  destruct (RiskMonitor.is_drawdown_exceeded m); reflexivity.
Qed.

Lemma daily_loss_breaker_never_fires_witness :
  RiskLimits.should_stop_trading
    (RiskMonitor.updates (RiskMonitor.init (lit 0.2) (lit 0.05) (lit 0.05))
       [lit 1.1; lit 0.5])
  = RiskMonitor.is_drawdown_exceeded
      (RiskMonitor.updates (RiskMonitor.init (lit 0.2) (lit 0.05) (lit 0.05))
         [lit 1.1; lit 0.5]).
Proof.
  refine (proj2 (proj2 (daily_loss_breaker_never_fires
                          (lit 0.2) (lit 0.05) (lit 0.05) [lit 1.1; lit 0.5] _))).
  vm_compute. reflexivity.
Defined.

(** ** Stops and sizes *)

(** X7.  A trailing stop only tightens: for a long position the updated stop
    is the new candidate or the current stop and is never below the current
    stop; for a short position it is never above it.  On binary64, for all
    doubles (with a NaN stop or candidate this says only that the comparison
    [updated < stop], respectively [stop < updated], is false); and in exact
    arithmetic the updated stops are the maximum and the minimum of the
    candidate and the current stop. *)
Theorem trailing_stop_only_tightens :
  (forall price stop distance : float,
      PrimFloat.ltb (StopLossManager.update_trailing_stop price stop distance true)
                    stop = false
      /\ PrimFloat.ltb stop
           (StopLossManager.update_trailing_stop price stop distance false) = false)
  /\ (forall price stop distance : Q,
        (StopLossManager.update_trailing_stop price stop distance true
         == Qmax (price - distance) stop)%Q
        /\ (StopLossManager.update_trailing_stop price stop distance false
            == Qmin (price + distance) stop)%Q).
Proof.
  split.
  - intros price stop distance.
    unfold StopLossManager.update_trailing_stop, py_max, py_min. unfold_float.
    split.
    + destruct (PrimFloat.ltb (PrimFloat.sub price distance) stop) eqn:Hnew;
        [apply float_ltb_irrefl|exact Hnew].
    + destruct (PrimFloat.ltb stop (PrimFloat.add price distance)) eqn:Hnew;
        [apply float_ltb_irrefl|exact Hnew].
  - intros price stop distance.
    unfold StopLossManager.update_trailing_stop. split.
    + apply py_max_Q.
    + apply py_min_Q.
Qed.

(** X8.  [volatility_based] never raises: its guard is the very test on
    which the division would.  What it returns is never below 0, and never
    above a [max_position] that is itself at least 0 (on binary64; a NaN
    ratio gives 0). *)
Theorem volatility_based_range (volatility target max_position : float) :
  exists size : float,
    PositionSizer.volatility_based volatility target max_position = Ok size
    /\ PrimFloat.leb 0 size = true
    /\ (PrimFloat.leb 0 max_position = true ->
        PrimFloat.leb size max_position = true).
Proof.
  unfold PositionSizer.volatility_based, truediv.
  destruct (eqb volatility (lit 0)).
  { exists (lit 0). split; [reflexivity|]. split; [reflexivity|].
    intros Hmax. exact Hmax. }
  cbn [bind]. eexists. split; [reflexivity|].
  unfold py_max, py_min. unfold_float.
  set (ratio := PrimFloat.div target volatility).
  destruct (PrimFloat.ltb max_position ratio) eqn:Hcap.
  - destruct (PrimFloat.ltb (Q2float 0) max_position) eqn:Hpos.
    + split; [apply float_ltb_leb; exact Hpos|].
      intros _. apply float_not_ltb_leb;
        try apply (float_ltb_not_nan _ _ Hpos). apply float_ltb_irrefl.
    + split; [reflexivity|]. intros Hmax. exact Hmax.
  - destruct (PrimFloat.ltb (Q2float 0) ratio) eqn:Hpos.
    + split; [apply float_ltb_leb; exact Hpos|].
      intros Hmax. apply float_not_ltb_leb.
      * destruct (PrimFloat.is_nan max_position) eqn:Hnan; [|reflexivity].
        unfold PrimFloat.is_nan in Hnan. rewrite FloatAxioms.eqb_spec in Hnan.
        rewrite FloatAxioms.leb_spec in Hmax. unfold SFleb, SFeqb in *.
        destruct (Prim2SF max_position) as [s|s| |s m e];
          try destruct s; cbn in Hnan, Hmax; try discriminate.
        all: rewrite ?Z.compare_refl, ?Pos.compare_refl in Hnan; discriminate.
      * apply (float_ltb_not_nan _ _ Hpos).
      * exact Hcap.
    + split; [reflexivity|]. intros Hmax. exact Hmax.
Qed.

(** ** Execution costs *)

(** X9.  On any arithmetic the BUY multiplier is
    [(1 + slippage_bps/10000) * (1 + spread_bps/10000)] and any direction
    other than the string [buy] is treated as a SELL: 1 divided by that
    product.  In exact arithmetic, with non-negative slippage and spread, the
    BUY multiplier is at least 1 and the SELL multiplier is its reciprocal,
    in (0, 1]: a non-negative raw price is filled no lower on a BUY and no
    higher on a SELL; and [apply_costs], which scales a P&L by
    [1 - commission_pct], with a rate in [[0,1]] lets neither a profit nor a
    loss grow.  The bounds are those of exact arithmetic: on binary64 a
    slippage of [+infinity] gives a BUY multiplier of [+infinity] and a SELL
    multiplier of 0. *)
Theorem execution_costs :
  (forall (A : Type) (arith : Arith A) (ex : Advanced.ExecutionMetrics A)
          (direction : string),
      let product :=
        mul (add (lit 1) (div (Advanced.slippage_bps ex) (lit 10000)))
            (add (lit 1) (div (Advanced.spread_bps ex) (lit 10000))) in
      Advanced.get_slippage_multiplier ex "buy" = Ok product
      /\ (direction <> "buy" ->
          Advanced.get_slippage_multiplier ex direction
          = truediv (lit 1) product))
  /\ (forall (ex : Advanced.ExecutionMetrics Q) (raw pnl : Q),
        (0 <= Advanced.slippage_bps ex)%Q -> (0 <= Advanced.spread_bps ex)%Q ->
        (0 <= raw)%Q ->
        (0 <= Advanced.commission_pct ex <= 1)%Q ->
        (exists buy sell : Q,
            Advanced.get_slippage_multiplier ex "buy" = Ok buy
            /\ (forall direction : string,
                  direction <> "buy" ->
                  Advanced.get_slippage_multiplier ex direction = Ok sell)
            /\ (buy * sell == 1)%Q
            /\ (1 <= buy)%Q /\ (0 < sell <= 1)%Q
            /\ (raw * sell <= raw <= raw * buy)%Q)
        /\ (0 <= pnl -> 0 <= Advanced.apply_costs ex pnl <= pnl)%Q
        /\ (pnl <= 0 -> pnl <= Advanced.apply_costs ex pnl <= 0)%Q)
  /\ (let ex : Advanced.ExecutionMetrics float :=
        {| Advanced.slippage_bps := PrimFloat.infinity;
           Advanced.commission_pct := lit 0.001;
           Advanced.spread_bps := lit 1.5 |} in
      Advanced.get_slippage_multiplier ex "buy" = Ok PrimFloat.infinity
      /\ Advanced.get_slippage_multiplier ex "sell" = Ok (lit 0)).
Proof.
  split; [|split].
  - intros A arith ex direction product. split; [reflexivity|].
    intros Hdir. unfold Advanced.get_slippage_multiplier.
    destruct (String.eqb_spec direction "buy") as [Heq|_]; [contradiction|].
    reflexivity.
  - intros ex raw pnl Hslip Hspread Hraw [Hc0 Hc1].
    set (base := (1 + Advanced.slippage_bps ex / 10000)%Q).
    set (spread := (1 + Advanced.spread_bps ex / 10000)%Q).
    assert (Hbase : (1 <= base)%Q).
    { subst base. assert (0 <= Advanced.slippage_bps ex / 10000)%Q; [|lra].
      apply Qle_shift_div_l; lra. }
    assert (Hspr : (1 <= spread)%Q).
    { subst spread. assert (0 <= Advanced.spread_bps ex / 10000)%Q; [|lra].
      apply Qle_shift_div_l; lra. }
    assert (Hbuy : (1 <= base * spread)%Q) by nra.
    assert (Hnz : ~ (base * spread == 0)%Q) by lra.
    assert (Hsell : (0 < 1 / (base * spread) <= 1)%Q).
    { split.
      - apply Qlt_shift_div_l; lra.
      - apply Qle_shift_div_r; lra. }
    assert (Hinv : (base * spread * (1 / (base * spread)) == 1)%Q)
      by (field; split; lra).
    split; [|split].
    + exists (base * spread)%Q, (1 / (base * spread))%Q.
      split; [reflexivity|]. split.
      { intros direction Hdir. unfold Advanced.get_slippage_multiplier.
        destruct (String.eqb_spec direction "buy") as [Heq|_]; [contradiction|].
        apply truediv_Q_ok. exact Hnz. }
      split; [exact Hinv|]. split; [exact Hbuy|]. split; [exact Hsell|].
      split; nra.
    + intros Hpnl. unfold Advanced.apply_costs. unfold_Q. split; nra.
    + intros Hpnl. unfold Advanced.apply_costs. unfold_Q. split; nra.
  - split; vm_compute; reflexivity.
Qed.

Lemma execution_costs_witness :
  (exists buy sell : Q,
      Advanced.get_slippage_multiplier Advanced.default_execution "buy" = Ok buy
      /\ Advanced.get_slippage_multiplier Advanced.default_execution "sell" = Ok sell
      /\ (buy * sell == 1)%Q)
  /\ Advanced.get_slippage_multiplier (A:=float) Advanced.default_execution "sell"
     = truediv (lit 1)
         (mul (add (lit 1) (div (lit 2.0) (lit 10000)))
              (add (lit 1) (div (lit 1.5) (lit 10000)))).
Proof.
  split.
  - assert (Hslip : (0 <= Advanced.slippage_bps (A:=Q) Advanced.default_execution)%Q)
      by (vm_compute; discriminate).
    assert (Hspread : (0 <= Advanced.spread_bps (A:=Q) Advanced.default_execution)%Q)
      by (vm_compute; discriminate).
    assert (Hraw : (0 <= 100)%Q) by (vm_compute; discriminate).
    assert (Hrate :
      (0 <= Advanced.commission_pct (A:=Q) Advanced.default_execution <= 1)%Q)
      by (split; vm_compute; discriminate).
    destruct (proj1 (proj2 execution_costs) Advanced.default_execution 100%Q 50%Q
                Hslip Hspread Hraw Hrate)
      as [(buy & sell & Hbuy & Hsell & Hinv & _) _].
    exists buy, sell. split; [exact Hbuy|]. split; [|exact Hinv].
    apply Hsell. discriminate.
  - apply (proj2 (proj1 execution_costs float float_arith
                    Advanced.default_execution "sell")).
    discriminate.
Defined.

(** ** The signal of an ensemble *)

Section EnsembleSignal.
Context {A : Type} `{Arith A}.
Import EnsembleStrategy.
Local Open Scope num_scope.

(** The loop of [generate_signal] stops at the first sub-strategy that
    raises, whatever the scores so far. *)
Lemma scores_raise (e : t A) (df : Data.DataFrame A)
    (pre post : list (BaseStrategy A)) (s : BaseStrategy A) (x : exn)
    (buy_score sell_score : A) :
  Forall (fun s' => is_ok (generate_signal s' df) = true) pre ->
  (of_nat (length (sub_strategies e)) =? lit 0) = false ->
  generate_signal s df = Raise x ->
  scores e df (pre ++ s :: post) buy_score sell_score = Raise x.
Proof.
  intros Hpre Hlen Hraise. revert buy_score sell_score.
  induction Hpre as [|s' pre Hs' _ IH]; intros buy_score sell_score.
  - cbn [app scores]. rewrite Hraise. reflexivity.
  - cbn [app scores]. destruct (generate_signal s' df) as [sc|]; [|discriminate].
    cbn [bind]. unfold truediv. rewrite Hlen. cbn [bind].
    destruct (String.eqb (fst sc) "BUY"); [apply IH|].
    destruct (String.eqb (fst sc) "SELL"); apply IH.
Qed.
End EnsembleSignal.

(** X10.  What an ensemble returns is either [("HOLD", 0.0)] or a BUY or a
    SELL whose confidence, the winning score, is above 0.5: an ensemble BUY
    always passes the confidence thresholds the two backtesters put on an
    entry (0.5 and 0.3).  On binary64, for all sub-strategies and
    weights. *)
Theorem ensemble_signal_shape (e : EnsembleStrategy.t float)
    (df : Data.DataFrame float) (signal : string) (confidence : float) :
  EnsembleStrategy.ensemble_signal e df = Ok (signal, confidence) ->
  (signal = "HOLD" /\ confidence = lit 0)
  \/ ((signal = "BUY" \/ signal = "SELL")
      /\ ltb (lit 0.5) confidence = true /\ ltb (lit 0.3) confidence = true).
Proof.
  assert (Hthreshold : forall c : float,
             ltb (lit 0.5) c = true ->
             ltb (lit 0.5) c = true /\ ltb (lit 0.3) c = true).
  { intros c Hc. split; [exact Hc|].
    refine (float_ltb_trans _ (lit 0.5) _ _ Hc). vm_compute. reflexivity. }
  unfold EnsembleStrategy.ensemble_signal.
  destruct (EnsembleStrategy.sub_strategies e) as [|s subs].
  { intros [= <- <-]. left. split; reflexivity. }
  destruct (EnsembleStrategy.scores e df (s :: subs) (lit 0) (lit 0))
    as [[buy_score sell_score]|x]; cbn [bind fst snd]; [|discriminate].
  destruct (ltb sell_score buy_score); cbn [andb].
  - destruct (ltb (lit 0.5) buy_score) eqn:Hbuy.
    + intros [= <- <-]. right. split; [left; reflexivity|].
      apply Hthreshold. exact Hbuy.
    + destruct (ltb buy_score sell_score); cbn [andb].
      * destruct (ltb (lit 0.5) sell_score) eqn:Hsell; intros [= <- <-].
        -- right. split; [right; reflexivity|]. apply Hthreshold. exact Hsell.
        -- left. split; reflexivity.
      * intros [= <- <-]. left. split; reflexivity.
  - destruct (ltb buy_score sell_score); cbn [andb].
    + destruct (ltb (lit 0.5) sell_score) eqn:Hsell; intros [= <- <-].
      * right. split; [right; reflexivity|]. apply Hthreshold. exact Hsell.
      * left. split; reflexivity.
    + intros [= <- <-]. left. split; reflexivity.
Qed.

Lemma ensemble_signal_shape_witness :
  ltb (lit 0.3) (add (lit 0) (mul (lit 0.9) (lit 0.6)) : float) = true.
Proof.
  assert (Hrun :
    EnsembleStrategy.ensemble_signal
      (EnsembleStrategy.mk [answering "trend" "BUY" (lit 0.9)] [("trend", lit 0.6)])
      rising_prices
    = Ok ("BUY", add (lit 0) (mul (lit 0.9) (lit 0.6))))
    by (vm_compute; reflexivity).
  destruct (ensemble_signal_shape _ _ _ _ Hrun)
    as [[Hhold _] | [_ [_ Hentry]]]; [discriminate|exact Hentry].
Defined.

(** X11.  The ensemble does not guard its sub-strategies: the exception of
    the first one that raises leaves [generate_signal], whatever the others
    answer and whatever the scores so far; the guard of
    [AdvancedBacktester.run] then turns it into a hold. *)
Theorem ensemble_propagates_failure {A : Type} `{Arith A}
    (e : EnsembleStrategy.t A) (df : Data.DataFrame A)
    (pre post : list (EnsembleStrategy.BaseStrategy A))
    (s : EnsembleStrategy.BaseStrategy A) (x : exn) :
  EnsembleStrategy.sub_strategies e = (pre ++ s :: post)%list ->
  Forall (fun s' => is_ok (EnsembleStrategy.generate_signal s' df) = true) pre ->
  eqb (of_nat (length (EnsembleStrategy.sub_strategies e))) (lit 0) = false ->
  EnsembleStrategy.generate_signal s df = Raise x ->
  EnsembleStrategy.ensemble_signal e df = Raise x
  /\ Advanced.guarded (EnsembleStrategy.ensemble_signal e) df = ("HOLD", lit 0).
Proof.
  intros Hsubs Hpre Hlen Hraise.
  assert (Hsignal : EnsembleStrategy.ensemble_signal e df = Raise x).
  { unfold EnsembleStrategy.ensemble_signal.
    pose proof (scores_raise e df pre post s x (lit 0) (lit 0) Hpre Hlen Hraise)
      as Hscores.
    rewrite <- Hsubs in Hscores. rewrite Hscores.
    rewrite Hsubs. destruct pre; reflexivity. }
  split; [exact Hsignal|].
  unfold Advanced.guarded. rewrite Hsignal. reflexivity.
Qed.

Lemma ensemble_propagates_failure_witness :
  EnsembleStrategy.ensemble_signal
    (EnsembleStrategy.mk
       [answering "trend" "BUY" (lit 0.9); failing "rsi"; holding "macd"]
       [("trend", lit 0.6)])
    rising_prices
  = Raise (StrategyError "no data").
Proof.
  refine (proj1 (ensemble_propagates_failure
                   (EnsembleStrategy.mk
                      [answering "trend" "BUY" (lit 0.9); failing "rsi"; holding "macd"]
                      [("trend", lit 0.6)])
                   rising_prices
                   [answering "trend" "BUY" (lit 0.9)] [holding "macd"]
                   (failing "rsi") (StrategyError "no data")
                   eq_refl _ _ eq_refl)).
  - constructor; [reflexivity|constructor].
  - vm_compute. reflexivity.
Defined.

Section EnsembleConfidence.
Import EnsembleStrategy.

Lemma of_nat_Q_nonzero (n : nat) : (0 < n)%nat -> ~ (of_nat (A:=Q) n == 0)%Q.
Proof.
  intros Hn. unfold of_nat. unfold_Q. unfold Qeq. cbn. lia.
Qed.

Lemma of_nat_Q_pos (n : nat) : (0 < n)%nat -> (0 < of_nat (A:=Q) n)%Q.
Proof.
  intros Hn. unfold of_nat. unfold_Q. unfold Qlt. cbn. lia.
Qed.

Lemma scores_Q_bound (e : t Q) (df : Data.DataFrame Q)
    (rest : list (BaseStrategy Q)) :
  (0 < length (sub_strategies e))%nat ->
  Forall (confident df) rest ->
  Forall (fun s => 0 <= assigned_weight e s)%Q rest ->
  forall buy0 sell0 : Q,
  exists buy_score sell_score : Q,
    scores e df rest buy0 sell0 = Ok (buy_score, sell_score)
    /\ (buy0 <= buy_score)%Q /\ (sell0 <= sell_score)%Q
    /\ (buy_score + sell_score
        <= buy0 + sell0 + py_sum (map (assigned_weight e) rest))%Q.
Proof.
  intros Hlen Hconf. induction Hconf as [|s rest Hs _ IH]; intros Hweights buy0 sell0.
  - exists buy0, sell0. split; [reflexivity|]. cbn. unfold_Q. lra.
  - inversion Hweights as [|? ? Hw Hrest]; subst.
    destruct Hs as (signal & c & Hsignal & Hc).
    cbn [scores]. rewrite Hsignal. cbn [bind].
    assert (Hdiv : truediv (lit 1) (of_nat (length (sub_strategies e)))
                   = Ok (1 / of_nat (length (sub_strategies e)))%Q)
      by (apply truediv_Q_ok, of_nat_Q_nonzero, Hlen).
    rewrite Hdiv. cbn [bind fst snd].
    change (match dict_get (name s) (weights e) with
            | Some w => w
            | None => (1 / of_nat (length (sub_strategies e)))%Q
            end) with (assigned_weight e s).
    cbn [map]. pose proof (py_sum_Q_cons (assigned_weight e s)
                             (map (assigned_weight e) rest)) as Hsum.
    set (w := assigned_weight e s) in *.
    destruct (String.eqb signal "BUY"); [|destruct (String.eqb signal "SELL")].
    + destruct (IH Hrest (add buy0 (mul c w)) sell0) as (b & sl & Hrun & Hb & Hs & Hbound).
      exists b, sl. split; [exact Hrun|]. unfold_Q. repeat split; nra.
    + destruct (IH Hrest buy0 (add sell0 (mul c w))) as (b & sl & Hrun & Hb & Hs & Hbound).
      exists b, sl. split; [exact Hrun|]. unfold_Q. repeat split; nra.
    + destruct (IH Hrest buy0 sell0) as (b & sl & Hrun & Hb & Hs & Hbound).
      exists b, sl. split; [exact Hrun|]. unfold_Q. repeat split; nra.
Qed.
End EnsembleConfidence.

(** Under the hypotheses on confidences and weights the two scores are
    non-negative and sum to at most 1. *)
Lemma ensemble_scores_total (e : EnsembleStrategy.t Q)
    (df : Data.DataFrame Q) :
  EnsembleStrategy.sub_strategies e <> [] ->
  Forall (confident df) (EnsembleStrategy.sub_strategies e) ->
  Forall (fun s => 0 <= assigned_weight e s)%Q (EnsembleStrategy.sub_strategies e) ->
  (py_sum (map (assigned_weight e) (EnsembleStrategy.sub_strategies e)) <= 1)%Q ->
  exists buy_score sell_score : Q,
    EnsembleStrategy.scores e df (EnsembleStrategy.sub_strategies e) 0%Q 0%Q
    = Ok (buy_score, sell_score)
    /\ (0 <= buy_score)%Q /\ (0 <= sell_score)%Q
    /\ (buy_score + sell_score <= 1)%Q.
Proof.
  intros Hsubs Hconf Hweights Htotal.
  assert (Hlen : (0 < length (EnsembleStrategy.sub_strategies e))%nat).
  { destruct (EnsembleStrategy.sub_strategies e); [contradiction|cbn; lia]. }
  destruct (scores_Q_bound e df _ Hlen Hconf Hweights 0%Q 0%Q)
    as (b & s & Hscores & Hb & Hs & Hbound).
  exists b, s. split; [exact Hscores|]. repeat split; lra.
Qed.

(** The confidence returned is one of the two scores, or 0. *)
Lemma ensemble_confidence_is_score (e : EnsembleStrategy.t Q)
    (df : Data.DataFrame Q) (buy_score sell_score : Q) :
  EnsembleStrategy.scores e df (EnsembleStrategy.sub_strategies e) 0%Q 0%Q
  = Ok (buy_score, sell_score) ->
  exists (signal : string) (confidence : Q),
    EnsembleStrategy.ensemble_signal e df = Ok (signal, confidence)
    /\ (confidence = buy_score \/ confidence = sell_score \/ confidence = 0%Q).
Proof.
  intros Hscores. unfold EnsembleStrategy.ensemble_signal.
  change (lit 0) with 0%Q. rewrite Hscores. cbn [bind fst snd].
  destruct (EnsembleStrategy.sub_strategies e) as [|s0 subs].
  { exists "HOLD", 0%Q. split; [reflexivity|]. right. right. reflexivity. }
  destruct (ltb sell_score buy_score && ltb (lit 0.5) buy_score).
  { exists "BUY", buy_score. split; [reflexivity|]. left. reflexivity. }
  destruct (ltb buy_score sell_score && ltb (lit 0.5) sell_score).
  { exists "SELL", sell_score. split; [reflexivity|]. right. left. reflexivity. }
  exists "HOLD", 0%Q. split; [reflexivity|]. right. right. reflexivity.
Qed.

Section EqualWeights.
Import EnsembleStrategy.

(** After [d[k] = w] the key is in the dict, and a dict whose values are all
    [w] stays so. *)
Lemma dict_set_keys {A : Type} (k : string) (w : A) (d : dict A) :
  In k (keys (dict_set k w d))
  /\ (forall k', In k' (keys d) -> In k' (keys (dict_set k w d)))
  /\ (Forall (fun kv => snd kv = w) d ->
      Forall (fun kv => snd kv = w) (dict_set k w d)).
Proof.
  induction d as [|[k0 v0] d (IHin & IHkeys & IHall)]; cbn [dict_set].
  - split; [left; reflexivity|]. split; [intros k' []|].
    intros _. constructor; [reflexivity|constructor].
  - destruct (String.eqb_spec k0 k) as [->|Hne].
    + split; [left; reflexivity|]. split; [intros k' Hk'; exact Hk'|].
      intros Hall. apply Forall_cons_iff in Hall. destruct Hall as [_ Hall].
      constructor; [reflexivity|exact Hall].
    + split; [right; exact IHin|]. split.
      * intros k' [Hk'|Hk']; [left; exact Hk'|right; apply IHkeys, Hk'].
      * intros Hall. apply Forall_cons_iff in Hall. destruct Hall as [Hv Hall].
        constructor; [exact Hv|]. apply IHall. exact Hall.
Qed.

Lemma dict_get_constant {A : Type} (k : string) (w : A) (d : dict A) :
  In k (keys d) -> Forall (fun kv => snd kv = w) d -> dict_get k d = Some w.
Proof.
  induction d as [|[k0 v0] d IH]; intros Hin Hall; [destruct Hin|].
  apply Forall_cons_iff in Hall. destruct Hall as [Hv Hall]. cbn [dict_get].
  destruct (String.eqb_spec k0 k) as [_|Hne]; [cbn in Hv; congruence|].
  destruct Hin as [Hk|Hk]; [contradiction|]. apply IH; assumption.
Qed.

(** A key that is not in the dict is appended. *)
Lemma dict_set_fresh {A : Type} (k : string) (w : A) (d : dict A) :
  ~ In k (keys d) -> dict_set k w d = (d ++ [(k, w)])%list.
Proof.
  induction d as [|[k0 v0] d IH]; intros Hk; [reflexivity|].
  cbn [dict_set]. destruct (String.eqb_spec k0 k) as [->|Hne].
  - exfalso. apply Hk. left. reflexivity.
  - cbn [app]. rewrite IH; [reflexivity|]. intros Hin. apply Hk. right. exact Hin.
Qed.

(** The dict comprehension of [__init__], from any dict built so far. *)
Lemma equal_weights_from (n : nat) (strategies : list (BaseStrategy Q)) (d : dict Q) :
  (0 < n)%nat ->
  exists d' : dict Q,
    fold_left
      (fun acc s =>
         try! d := acc in
         try! w := truediv (lit 1) (of_nat n) in
         Ok (dict_set (name s) w d))
      strategies (Ok d) = Ok d'
    /\ (forall k, In k (keys d) \/ In k (map name strategies) -> In k (keys d'))
    /\ (Forall (fun kv => snd kv = (1 / of_nat n)%Q) d ->
        Forall (fun kv => snd kv = (1 / of_nat n)%Q) d')
    /\ (List.NoDup (keys d ++ map name strategies) ->
        d' = (d ++ map (fun s => (name s, (1 / of_nat n)%Q)) strategies)%list).
Proof.
  intros Hn.
  assert (Hdiv : truediv (lit 1) (of_nat n) = Ok (1 / of_nat n)%Q)
    by (apply truediv_Q_ok, of_nat_Q_nonzero, Hn).
  set (assign := fun (acc : result (dict Q)) (s : BaseStrategy Q) =>
                   try! d := acc in
                   try! w := truediv (lit 1) (of_nat n) in
                   Ok (dict_set (name s) w d)).
  revert d. induction strategies as [|s strategies IH]; intros d.
  - exists d. split; [reflexivity|]. split; [intros k [Hk|[]]; exact Hk|].
    split; [auto|]. intros _. rewrite app_nil_r. reflexivity.
  - cbn [fold_left].
    replace (assign (Ok d) s) with (Ok (dict_set (name s) (1 / of_nat n)%Q d))
      by (unfold assign; cbn [bind]; rewrite Hdiv; reflexivity).
    destruct (IH (dict_set (name s) (1 / of_nat n)%Q d))
      as (d' & Hfold & Hkeys & Hall & Hshape).
    destruct (dict_set_keys (name s) (1 / of_nat n)%Q d) as (Hin & Hold & Hconst).
    exists d'. split; [exact Hfold|]. split; [|split].
    + intros k [Hk|[Hk|Hk]]; apply Hkeys.
      * left. apply Hold, Hk.
      * left. rewrite <- Hk. exact Hin.
      * right. exact Hk.
    + intros Hd. apply Hall, Hconst, Hd.
    + intros Hnodup. cbn [map] in Hnodup.
      assert (Hfresh : ~ In (name s) (keys d)).
      { intros Hk. apply NoDup_remove_2 in Hnodup. apply Hnodup.
        apply in_or_app. left. exact Hk. }
      rewrite (dict_set_fresh _ _ _ Hfresh) in Hshape.
      rewrite Hshape.
      * rewrite <- app_assoc. reflexivity.
      * unfold keys. rewrite map_app. cbn [map fst].
        rewrite <- app_assoc. cbn [app].
        replace (map fst d ++ name s :: map name strategies)%list
          with (keys d ++ name s :: map name strategies)%list by reflexivity.
        exact Hnodup.
Qed.

Lemma py_sum_constant (c : Q) (n : nat) :
  (py_sum (repeat c n) == of_nat n * c)%Q.
Proof.
  induction n as [|n IH].
  - cbn. unfold_Q. ring.
  - cbn [repeat]. rewrite py_sum_Q_cons, IH. unfold of_nat. unfold_Q.
    rewrite Nat2Z.inj_succ. unfold Z.succ. rewrite inject_Z_plus. ring.
Qed.

Lemma map_constant {X Y : Type} (f : X -> Y) (c : Y) (l : list X) :
  Forall (fun x => f x = c) l -> map f l = repeat c (length l).
Proof.
  induction 1 as [|x l Hx _ IH]; cbn; [|rewrite Hx, IH]; reflexivity.
Qed.

Lemma equal_share_total (n : nat) :
  (0 < n)%nat -> (py_sum (repeat (1 / of_nat n)%Q n) == 1)%Q.
Proof.
  intros Hn. rewrite py_sum_constant. field. apply of_nat_Q_nonzero, Hn.
Qed.
End EqualWeights.

(** X12.  In exact arithmetic: when every sub-strategy answers with a
    confidence in [[0,1]] and the weights the ensemble gives them are
    non-negative and sum to at most 1, the two scores are non-negative and
    sum to at most 1: the confidence returned lies in [[0,1]], the scores
    cannot both be above 0.5, and the ensemble says BUY exactly when the buy
    score is above 0.5 and SELL exactly when the sell score is.  The bound on
    the two scores is one of exact arithmetic: on binary64 the weights 0.5,
    0.5, [2^-53] and [2^-53], whose [sum] is 1.0, with answers BUY, SELL,
    BUY, SELL at confidence 1.0 make both scores 0.5000000000000001, and the
    ensemble holds. *)
Theorem ensemble_confidence_bound :
  (forall (e : EnsembleStrategy.t Q) (df : Data.DataFrame Q),
      EnsembleStrategy.sub_strategies e <> [] ->
      Forall (confident df) (EnsembleStrategy.sub_strategies e) ->
      Forall (fun s => 0 <= assigned_weight e s)%Q
             (EnsembleStrategy.sub_strategies e) ->
      (py_sum (map (assigned_weight e) (EnsembleStrategy.sub_strategies e)) <= 1)%Q ->
      exists (signal : string) (confidence buy_score sell_score : Q),
        EnsembleStrategy.scores e df (EnsembleStrategy.sub_strategies e) 0%Q 0%Q
        = Ok (buy_score, sell_score)
        /\ EnsembleStrategy.ensemble_signal e df = Ok (signal, confidence)
        /\ (0 <= buy_score)%Q /\ (0 <= sell_score)%Q
        /\ (buy_score + sell_score <= 1)%Q
        /\ (0 <= confidence <= 1)%Q
        /\ (signal = "BUY" <-> 1 # 2 < buy_score)%Q
        /\ (signal = "SELL" <-> 1 # 2 < sell_score)%Q)
  /\ (let e : EnsembleStrategy.t float :=
        EnsembleStrategy.mk
          [answering "a" "BUY" (lit 1); answering "b" "SELL" (lit 1);
           answering "c" "BUY" (lit 1); answering "d" "SELL" (lit 1)]
          [("a", lit 0.5); ("b", lit 0.5);
           ("c", 0x1p-53%float); ("d", 0x1p-53%float)] in
      weight_total e = lit 1
      /\ (exists buy_score sell_score : float,
            EnsembleStrategy.scores e [] (EnsembleStrategy.sub_strategies e)
              (lit 0) (lit 0)
            = Ok (buy_score, sell_score)
            /\ ltb (lit 0.5) buy_score = true
            /\ ltb (lit 0.5) sell_score = true)
      /\ EnsembleStrategy.ensemble_signal e [] = Ok ("HOLD", lit 0)).
Proof.
  split.
  { intros e df.
    intros Hsubs Hconf Hweights Htotal.
    destruct (ensemble_scores_total e df Hsubs Hconf Hweights Htotal)
      as (b & s & Hscores & Hb & Hs & Hbound).
    unfold EnsembleStrategy.ensemble_signal.
    change (lit 0) with 0%Q. rewrite Hscores. cbn [bind fst snd].
    destruct (EnsembleStrategy.sub_strategies e) as [|s0 subs] eqn:Hlist;
      [contradiction|].
    destruct (ltb s b) eqn:Hsb; [apply Q_ltb_true in Hsb|apply Q_ltb_false in Hsb];
      (destruct (ltb (lit 0.5) b) eqn:Hhalf;
         [apply Q_ltb_true in Hhalf|apply Q_ltb_false in Hhalf]);
      cbn [andb]; cbv [lit Q_arith] in Hhalf.
    - exists "BUY", b, b, s. repeat split; try reflexivity; try lra; try discriminate.
    - destruct (ltb b s) eqn:Hbs; [apply Q_ltb_true in Hbs; lra|]. cbn [andb].
      exists "HOLD", 0%Q, b, s. repeat split; try reflexivity; try lra; try discriminate.
    - lra.
    - destruct (ltb b s) eqn:Hbs; [apply Q_ltb_true in Hbs|apply Q_ltb_false in Hbs];
        cbn [andb].
      + destruct (ltb (lit 0.5) s) eqn:Hhalfs;
          [apply Q_ltb_true in Hhalfs|apply Q_ltb_false in Hhalfs];
          cbv [lit Q_arith] in Hhalfs.
        * exists "SELL", s, b, s.
          repeat split; try reflexivity; try lra; try discriminate.
        * exists "HOLD", 0%Q, b, s.
          repeat split; try reflexivity; try lra; try discriminate.
      + exists "HOLD", 0%Q, b, s.
        repeat split; try reflexivity; try lra; try discriminate. }
  split; [vm_compute; reflexivity|]. split; [|vm_compute; reflexivity].
  eexists. eexists. split; [vm_compute; reflexivity|].
  split; vm_compute; reflexivity.
Qed.

(** X13.  In exact arithmetic: an ensemble constructed without weights over
    a non-empty list of strategies never raises and gives every sub-strategy
    the weight [1/len(strategies)], so the weights it uses sum to 1 (and so
    do the values of the dict when the names are distinct); over
    sub-strategies that answer with a confidence in [[0,1]] its own
    confidence is in [[0,1]].  On binary64 the sum of the rounded shares is
    not always 1: nine strategies get the weight [1/9] each, which add up to
    1.0000000000000002, the confidence of the ensemble when all nine answer
    BUY at confidence 1.0. *)
Theorem init_equal_weights :
  (forall strategies : list (EnsembleStrategy.BaseStrategy Q),
      strategies <> [] ->
      exists e : EnsembleStrategy.t Q,
        EnsembleStrategy.init strategies None = Ok e
        /\ EnsembleStrategy.sub_strategies e = strategies
        /\ Forall (fun s => assigned_weight e s
                            = (1 / inject_Z (Z.of_nat (length strategies)))%Q)
                  strategies
        /\ (py_sum (map (assigned_weight e) strategies) == 1)%Q
        /\ (List.NoDup (map EnsembleStrategy.name strategies) ->
            (py_sum (EnsembleStrategy.values (EnsembleStrategy.weights e)) == 1)%Q)
        /\ (forall df : Data.DataFrame Q,
              Forall (confident df) strategies ->
              exists (signal : string) (confidence : Q),
                EnsembleStrategy.ensemble_signal e df = Ok (signal, confidence)
                /\ (0 <= confidence <= 1)%Q))
  /\ (exists (e : EnsembleStrategy.t float) (confidence : float),
        EnsembleStrategy.init
          (map (fun n => answering n "BUY" (lit 1))
               ["s1"; "s2"; "s3"; "s4"; "s5"; "s6"; "s7"; "s8"; "s9"])
          None = Ok e
        /\ Forall (fun kv => snd kv = div (lit 1) (lit 9))
                  (EnsembleStrategy.weights e)
        /\ ltb (lit 1) (weight_total e) = true
        /\ EnsembleStrategy.ensemble_signal e [] = Ok ("BUY", confidence)
        /\ ltb (lit 1) confidence = true).
Proof.
  split.
  { intros strategies.
    intros Hne.
    assert (Hlen : (0 < length strategies)%nat)
      by (destruct strategies; [contradiction|cbn; lia]).
    destruct (equal_weights_from (length strategies) strategies [] Hlen)
      as (d & Hfold & Hkeys & Hall & Hshape).
    exists (EnsembleStrategy.mk strategies d).
    assert (Hweights :
      Forall (fun s => assigned_weight (EnsembleStrategy.mk strategies d) s
                       = (1 / inject_Z (Z.of_nat (length strategies)))%Q)
             strategies).
    { apply List.Forall_forall. intros s Hs. unfold assigned_weight.
      cbn [EnsembleStrategy.weights EnsembleStrategy.sub_strategies].
      rewrite (dict_get_constant _ (1 / of_nat (length strategies))%Q);
        [reflexivity| |apply Hall; constructor].
      apply Hkeys. right. apply in_map. exact Hs. }
    assert (Htotal :
      (py_sum (map (assigned_weight (EnsembleStrategy.mk strategies d)) strategies)
       == 1)%Q).
    { rewrite (map_constant _ _ _ Hweights). apply (equal_share_total _ Hlen). }
    split; [|split; [reflexivity|split; [exact Hweights|split; [exact Htotal|split]]]].
    - change (EnsembleStrategy.init strategies None)
        with (try! dict := EnsembleStrategy.equal_weights strategies in
              Ok (EnsembleStrategy.mk strategies dict)).
      replace (EnsembleStrategy.equal_weights strategies) with (Ok d)
        by (symmetry; exact Hfold).
      reflexivity.
    - intros Hnodup. rewrite (Hshape Hnodup).
      cbn [app EnsembleStrategy.weights].
      unfold EnsembleStrategy.values. rewrite List.map_map. cbn [snd].
      rewrite (map_constant _ (1 / of_nat (length strategies))%Q)
        by (apply List.Forall_forall; intros; reflexivity).
      apply (equal_share_total _ Hlen).
    - intros df Hconf.
      destruct (ensemble_scores_total (EnsembleStrategy.mk strategies d) df)
        as (b & s & Hscores & Hb & Hs & Hbound).
      + exact Hne.
      + exact Hconf.
      + cbn [EnsembleStrategy.sub_strategies].
        apply List.Forall_forall. intros s Hs.
        rewrite (proj1 (List.Forall_forall _ _) Hweights s Hs).
        apply Qlt_le_weak, Qlt_shift_div_l; [apply (of_nat_Q_pos _ Hlen)|].
        rewrite Qmult_0_l. reflexivity.
      + cbn [EnsembleStrategy.sub_strategies]. rewrite Htotal. apply Qle_refl.
      + destruct (ensemble_confidence_is_score _ df b s Hscores)
          as (signal & confidence & Hsignal & Hvalue).
        exists signal, confidence. split; [exact Hsignal|].
        destruct Hvalue as [->|[->| ->]]; lra. }
  eexists. eexists. split; [vm_compute; reflexivity|].
  split; [repeat constructor|].
  split; [vm_compute; reflexivity|]. split; vm_compute; reflexivity.
Qed.

Lemma ensemble_confidence_bound_witness :
  exists (signal : string) (confidence : Q),
    EnsembleStrategy.ensemble_signal
      (EnsembleStrategy.mk
         [answering "trend" "BUY" 0.9%Q; answering "rsi" "SELL" 0.4%Q]
         [("trend", 0.6%Q); ("rsi", 0.4%Q)])
      [] = Ok (signal, confidence)
    /\ (0 <= confidence <= 1)%Q.
Proof.
  destruct (proj1 ensemble_confidence_bound
              (EnsembleStrategy.mk
                 [answering "trend" "BUY" 0.9%Q; answering "rsi" "SELL" 0.4%Q]
                 [("trend", 0.6%Q); ("rsi", 0.4%Q)])
              [])
    as (signal & confidence & _ & _ & _ & Hsignal & _ & _ & _ & Hrange & _).
  - discriminate.
  - repeat constructor; eexists; eexists; (split; [reflexivity|]);
      split; vm_compute; discriminate.
  - repeat constructor; vm_compute; discriminate.
  - vm_compute. discriminate.
  - exists signal, confidence. split; assumption.
Defined.

Lemma init_equal_weights_witness :
  exists e : EnsembleStrategy.t Q,
    EnsembleStrategy.init [answering "trend" "BUY" 0.9%Q; holding "macd"] None = Ok e
    /\ (py_sum (map (assigned_weight e)
                  [answering "trend" "BUY" 0.9%Q; holding "macd"]) == 1)%Q.
Proof.
  destruct (proj1 init_equal_weights
              [answering "trend" "BUY" 0.9%Q; holding "macd"])
    as (e & Hinit & _ & _ & Htotal & _).
  - discriminate.
  - exists e. split; assumption.
Defined.

(** ** Trade statistics *)

Section WinRate.

Lemma count_positive_le (pnl : list Q) :
  (length (List.filter (fun x => ltb (lit 0) x) pnl) <= length pnl)%nat.
Proof.
  induction pnl as [|x pnl IH]; cbn [List.filter length]; [lia|].
  destruct (ltb (lit 0) x); cbn [length]; lia.
Qed.

Lemma count_positive_none (pnl : list Q) :
  length (List.filter (fun x => ltb (lit 0) x) pnl) = 0%nat
  <-> Forall (fun x => x <= 0)%Q pnl.
Proof.
  induction pnl as [|x pnl IH]; cbn [List.filter length].
  - split; [constructor|reflexivity].
  - destruct (ltb (lit 0) x) eqn:Hx.
    + apply Q_ltb_true in Hx. cbv [lit Q_arith] in Hx. split; [discriminate|].
      intros Hall. apply Forall_cons_iff in Hall. lra.
    + apply Q_ltb_false in Hx. cbv [lit Q_arith] in Hx. rewrite IH. split.
      * intros Hall. constructor; assumption.
      * intros Hall. apply Forall_cons_iff in Hall. apply Hall.
Qed.

Lemma count_positive_all (pnl : list Q) :
  length (List.filter (fun x => ltb (lit 0) x) pnl) = length pnl
  <-> Forall (fun x => 0 < x)%Q pnl.
Proof.
  induction pnl as [|x pnl IH]; cbn [List.filter length].
  - split; [constructor|reflexivity].
  - pose proof (count_positive_le pnl) as Hle.
    destruct (ltb (lit 0) x) eqn:Hx.
    + apply Q_ltb_true in Hx. cbv [lit Q_arith] in Hx. cbn [length]. split.
      * intros Hlen. constructor; [exact Hx|]. apply IH. lia.
      * intros Hall. apply Forall_cons_iff in Hall. f_equal. apply IH, Hall.
    + apply Q_ltb_false in Hx. cbv [lit Q_arith] in Hx. split; [lia|].
      intros Hall. apply Forall_cons_iff in Hall. lra.
Qed.

Lemma of_nat_Q_le (k n : nat) : (k <= n)%nat -> (of_nat (A:=Q) k <= of_nat n)%Q.
Proof.
  intros Hkn. unfold of_nat. unfold_Q. rewrite <- Zle_Qle. lia.
Qed.

Lemma of_nat_Q_eq (k n : nat) : (of_nat (A:=Q) k == of_nat n)%Q <-> k = n.
Proof.
  unfold of_nat. unfold_Q. rewrite inject_Z_injective. lia.
Qed.
End WinRate.

(** X14.  [calculate_win_rate] returns a value of [[0,1]]: 0 exactly when no
    trade has a positive P&L (an empty frame included), 1 exactly when there
    is at least one trade and every P&L is positive; a trade with a zero P&L
    counts against the rate. *)
Theorem win_rate_range (pnl : list Q) :
  (0 <= Helpers.calculate_win_rate pnl <= 1)%Q
  /\ ((Helpers.calculate_win_rate pnl == 0)%Q <-> Forall (fun x => x <= 0)%Q pnl)
  /\ ((Helpers.calculate_win_rate pnl == 1)%Q
      <-> pnl <> [] /\ Forall (fun x => 0 < x)%Q pnl).
Proof.
  unfold Helpers.calculate_win_rate.
  set (wins := length (List.filter (fun x => ltb (lit 0) x) pnl)).
  pose proof (count_positive_le pnl) as Hle. fold wins in Hle.
  pose proof (count_positive_none pnl) as Hnone. fold wins in Hnone.
  pose proof (count_positive_all pnl) as Hall. fold wins in Hall.
  destruct pnl as [|x pnl].
  { subst wins. clear. cbn. unfold_Q. split; [split; unfold Qle; cbn; lia|]. split.
    - split; [constructor|reflexivity].
    - split; [intros Hone; discriminate Hone|intros [Hne _]; contradiction]. }
  set (n := length (x :: pnl)) in *.
  assert (Hn : (0 < n)%nat) by (subst n; cbn; lia).
  replace (0 <? n)%nat with true by (symmetry; apply Nat.ltb_lt; exact Hn).
  pose proof (of_nat_Q_pos n Hn) as Hpos.
  pose proof (of_nat_Q_le wins n Hle) as Hwn.
  pose proof (of_nat_Q_le 0 wins ltac:(lia)) as Hw0.
  assert (Hw0' : (0 <= of_nat (A:=Q) wins)%Q) by exact Hw0.
  assert (Hzero_iff : (of_nat (A:=Q) wins == 0)%Q <-> wins = 0%nat)
    by exact (of_nat_Q_eq wins 0).
  assert (Hone_iff : (of_nat (A:=Q) wins == of_nat n)%Q <-> wins = n)
    by exact (of_nat_Q_eq wins n).
  clear Hw0. change (div (of_nat wins) (of_nat n))
    with (of_nat (A:=Q) wins / of_nat n)%Q.
  set (qw := of_nat (A:=Q) wins) in *. set (qn := of_nat (A:=Q) n) in *.
  assert (Hq : (qw == qw / qn * qn)%Q) by (field; lra).
  split; [|split].
  - split.
    + apply Qle_shift_div_l; [exact Hpos|]. rewrite Qmult_0_l. exact Hw0'.
    + apply Qle_shift_div_r; [exact Hpos|]. rewrite Qmult_1_l. exact Hwn.
  - rewrite <- Hnone, <- Hzero_iff. split.
    + intros Hzero. rewrite Hq, Hzero. ring.
    + intros Hzero. rewrite Hzero. field. lra.
  - split.
    + intros Hone. split; [discriminate|]. apply Hall, Hone_iff.
      rewrite Hq, Hone. ring.
    + intros [_ Hpositive]. apply Hall, Hone_iff in Hpositive.
      rewrite Hpositive. field. lra.
Qed.

Section LossStreaks.
Context {A : Type} `{Arith A}.
Import Statistics Analysis.

Lemma count_consecutive_step (t : Advanced.Trade A) (l : list (Advanced.Trade A))
    (c m : nat) :
  count_consecutive (t :: l) c m
  = if is_loss t then count_consecutive l (S c) (Nat.max m (S c))
    else count_consecutive l 0 m.
Proof. reflexivity. Qed.

Lemma loss_streaks_step (t : Advanced.Trade A) (l : list (Advanced.Trade A))
    (c : nat) (streaks : list nat) :
  loss_streaks_from (t :: l) c streaks
  = if is_loss t then loss_streaks_from l (S c) streaks
    else loss_streaks_from l 0
           (if (0 <? c)%nat then (streaks ++ [c])%list else streaks).
Proof. reflexivity. Qed.

(** The count never falls below the maximum so far. *)
Lemma count_consecutive_ge (l : list (Advanced.Trade A)) (c m : nat) :
  (m <= count_consecutive l c m)%nat.
Proof.
  revert c m. induction l as [|t l IH]; intros c m; [cbn; lia|].
  rewrite count_consecutive_step. destruct (is_loss t).
  - specialize (IH (S c) (Nat.max m (S c))). lia.
  - apply IH.
Qed.

(** A block of consecutive losing trades is no longer than the count. *)
Lemma count_consecutive_block (run post : list (Advanced.Trade A)) (c m : nat) :
  (c <= m)%nat -> forallb is_loss run = true ->
  (c + length run <= count_consecutive (run ++ post) c m)%nat.
Proof.
  revert c m. induction run as [|t run IH]; intros c m Hcm Hrun.
  - cbn [app length]. pose proof (count_consecutive_ge post c m). lia.
  - cbn [forallb] in Hrun. apply andb_prop in Hrun. destruct Hrun as [Ht Hrun].
    cbn [app length]. rewrite count_consecutive_step, Ht.
    specialize (IH (S c) (Nat.max m (S c)) ltac:(lia) Hrun). lia.
Qed.

Lemma count_consecutive_longest (pre run post : list (Advanced.Trade A))
    (c m : nat) :
  (c <= m)%nat -> forallb is_loss run = true ->
  (length run <= count_consecutive (pre ++ run ++ post) c m)%nat.
Proof.
  revert c m. induction pre as [|t pre IH]; intros c m Hcm Hrun.
  - cbn [app]. pose proof (count_consecutive_block run post c m Hcm Hrun). lia.
  - cbn [app]. rewrite count_consecutive_step. destruct (is_loss t).
    + apply IH; [lia|exact Hrun].
    + apply IH; [lia|exact Hrun].
Qed.

(** The count is attained: by the maximum so far, by the streak in progress
    extended, or by a later block. *)
Lemma count_consecutive_attained (l : list (Advanced.Trade A)) (c m : nat) :
  count_consecutive l c m = m
  \/ (exists run post,
        l = (run ++ post)%list /\ forallb is_loss run = true
        /\ count_consecutive l c m = (c + length run)%nat)
  \/ (exists pre run post,
        l = (pre ++ run ++ post)%list /\ forallb is_loss run = true
        /\ count_consecutive l c m = length run).
Proof.
  revert c m. induction l as [|t l IH]; intros c m; [left; reflexivity|].
  rewrite count_consecutive_step. destruct (is_loss t) eqn:Ht.
  - destruct (IH (S c) (Nat.max m (S c)))
      as [Hmax | [(run & post & -> & Hrun & Hlen) | (pre & run & post & -> & Hrun & Hlen)]].
    + destruct (Nat.max_spec m (S c)) as [[_ Heq]|[_ Heq]].
      * right. left. exists [t], l. cbn [forallb app length]. rewrite Ht.
        repeat split. lia.
      * left. lia.
    + right. left. exists (t :: run), post. cbn [forallb app length].
      rewrite Ht, Hrun. repeat split. lia.
    + right. right. exists (t :: pre), run, post. repeat split; assumption.
  - destruct (IH 0%nat m)
      as [Hmax | [(run & post & -> & Hrun & Hlen) | (pre & run & post & -> & Hrun & Hlen)]].
    + left. exact Hmax.
    + right. right. exists [t], run, post. repeat split; assumption.
    + right. right. exists (t :: pre), run, post. repeat split; assumption.
Qed.

(** The streaks reported, relative to the list [streaks] given. *)
Lemma loss_streaks_spec (l : list (Advanced.Trade A)) (c : nat) (streaks : list nat) :
  exists reported : list nat,
    snd (loss_streaks_from l c streaks) = (streaks ++ reported)%list
    /\ Forall (fun s => 0 < s)%nat reported
    /\ (fst (loss_streaks_from l c streaks) + list_sum reported
        = c + count_losses l)%nat
    /\ (c <= list_max (fst (loss_streaks_from l c streaks) :: reported))%nat
    /\ (forall m, (c <= m)%nat ->
          count_consecutive l c m
          = Nat.max m (list_max (fst (loss_streaks_from l c streaks) :: reported))).
Proof.
  revert c streaks. induction l as [|t l IH]; intros c streaks.
  - exists []. cbn [loss_streaks_from fst snd]. rewrite app_nil_r.
    split; [reflexivity|]. split; [constructor|]. cbn. repeat split; intros; lia.
  - rewrite loss_streaks_step. unfold count_losses. cbn [List.filter].
    destruct (is_loss t) eqn:Ht.
    + destruct (IH (S c) streaks) as (reported & Hsnd & Hpos & Hsum & Hmax & Hcount).
      exists reported. split; [exact Hsnd|]. split; [exact Hpos|].
      unfold count_losses in Hsum. cbn [length]. split; [lia|]. split; [lia|].
      intros m Hm. rewrite count_consecutive_step, Ht.
      rewrite Hcount by lia. lia.
    + destruct (0 <? c)%nat eqn:Hc.
      * apply Nat.ltb_lt in Hc.
        destruct (IH 0%nat (streaks ++ [c])%list)
          as (reported & Hsnd & Hpos & Hsum & Hmax & Hcount).
        exists (c :: reported). rewrite Hsnd, <- app_assoc.
        split; [reflexivity|]. split; [constructor; assumption|].
        unfold count_losses in Hsum.
        change (list_sum (c :: reported)) with (c + list_sum reported)%nat.
        set (trailing := fst (loss_streaks_from l 0 (streaks ++ [c])%list)) in *.
        change (list_max (trailing :: c :: reported))
          with (Nat.max trailing (Nat.max c (list_max reported))).
        change (list_max (trailing :: reported))
          with (Nat.max trailing (list_max reported)) in Hmax, Hcount.
        split; [lia|]. split; [lia|].
        intros m Hm. rewrite count_consecutive_step, Ht.
        rewrite Hcount by lia. lia.
      * apply Nat.ltb_ge in Hc.
        destruct (IH 0%nat streaks) as (reported & Hsnd & Hpos & Hsum & Hmax & Hcount).
        exists reported. split; [exact Hsnd|]. split; [exact Hpos|].
        unfold count_losses in Hsum. split; [lia|]. split; [lia|].
        intros m Hm. rewrite count_consecutive_step, Ht.
        rewrite Hcount by lia. lia.
Qed.
End LossStreaks.

(** X15.  [max_consecutive_losses] is the length of the longest block of
    consecutive trades with [net_pnl <= 0]: no such block is longer, one of
    that length exists, and it is at most the number of losing trades. *)
Theorem max_consecutive_losses_longest {A : Type} `{Arith A}
    (trades : list (Advanced.Trade A)) :
  (forall pre run post : list (Advanced.Trade A),
      trades = (pre ++ run ++ post)%list -> forallb is_loss run = true ->
      (length run <= Statistics.max_consecutive_losses trades)%nat)
  /\ (exists pre run post : list (Advanced.Trade A),
        trades = (pre ++ run ++ post)%list /\ forallb is_loss run = true
        /\ length run = Statistics.max_consecutive_losses trades)
  /\ (Statistics.max_consecutive_losses trades <= count_losses trades)%nat.
Proof.
  unfold Statistics.max_consecutive_losses.
  assert (Hattained : exists pre run post : list (Advanced.Trade A),
             trades = (pre ++ run ++ post)%list /\ forallb is_loss run = true
             /\ length run = Statistics.count_consecutive trades 0 0).
  { destruct (count_consecutive_attained trades 0 0)
      as [Hzero | [(run & post & Hl & Hrun & Hlen) | (pre & run & post & Hl & Hrun & Hlen)]].
    - exists [], [], trades. rewrite Hzero. repeat split.
    - exists [], run, post. repeat split; [exact Hl|exact Hrun|].
      rewrite Hlen. reflexivity.
    - exists pre, run, post. repeat split; [exact Hl|exact Hrun|].
      rewrite Hlen. reflexivity. }
  split; [|split; [exact Hattained|]].
  - intros pre run post -> Hrun.
    apply count_consecutive_longest; [lia|exact Hrun].
  - destruct Hattained as (pre & run & post & -> & Hrun & <-).
    unfold count_losses. rewrite !List.filter_app, !length_app.
    assert (Hall : List.filter is_loss run = run).
    { clear - Hrun. induction run as [|t run IH]; [reflexivity|].
      cbn [forallb] in Hrun. apply andb_prop in Hrun. destruct Hrun as [Ht Hrun].
      cbn [List.filter]. rewrite Ht, (IH Hrun). reflexivity. }
    rewrite Hall. lia.
Qed.

(** X16.  The loss streaks [analyze_drawdown_recovery] reports are all
    positive, and together with the streak still in progress at the last
    trade, which is not reported, they add up to the number of losing
    trades.  The longest of them and of the streak in progress is the
    [max_consecutive_losses] of the same trades, so no reported streak
    exceeds it. *)
Theorem loss_streaks_report {A : Type} `{Arith A}
    (trades : list (Advanced.Trade A)) :
  let trailing := fst (Analysis.loss_streaks_from trades 0 []) in
  let reported := Analysis.consecutive_loss_streaks trades in
  Forall (fun s => 0 < s)%nat reported
  /\ (list_sum reported + trailing = count_losses trades)%nat
  /\ Statistics.max_consecutive_losses trades = list_max (trailing :: reported)
  /\ (list_max reported <= Statistics.max_consecutive_losses trades)%nat.
Proof.
  intros trailing reported. subst trailing reported.
  unfold Analysis.consecutive_loss_streaks, Statistics.max_consecutive_losses.
  destruct (loss_streaks_spec trades 0 [])
    as (reported & Hsnd & Hpos & Hsum & _ & Hcount).
  cbn [app] in Hsnd. rewrite Hsnd, (Hcount 0%nat) by lia.
  set (trailing := fst (Analysis.loss_streaks_from trades 0 [])) in *.
  change (list_max (trailing :: reported))
    with (Nat.max trailing (list_max reported)).
  split; [exact Hpos|]. split; [lia|]. lia.
Qed.

(** ** The grid search *)

Section ParameterGrid.
Context {V : Type}.
Import Optimizer.

Lemma product_length (values : list (list V)) :
  length (product values) = fold_right (fun v n => length v * n)%nat 1%nat values.
Proof.
  induction values as [|v values IH]; [reflexivity|].
  cbn [product fold_right]. rewrite <- IH. clear IH.
  induction v as [|x v IHv]; [reflexivity|].
  cbn [flat_map]. rewrite length_app, length_map, IHv. cbn. lia.
Qed.

Lemma product_spec (values : list (list V)) (combination : list V) :
  In combination (product values)
  <-> List.Forall2 (fun x v => In x v) combination values.
Proof.
  revert combination. induction values as [|v values IH]; intros combination.
  - cbn [product]. split.
    + intros [<-|[]]. constructor.
    + intros Hall. inversion Hall. left. reflexivity.
  - cbn [product]. rewrite in_flat_map. split.
    + intros (x & Hx & Hin). apply in_map_iff in Hin.
      destruct Hin as (rest & <- & Hrest). constructor; [exact Hx|].
      apply IH, Hrest.
    + intros Hall. inversion Hall as [|x ? rest ? Hx Hrest]; subst.
      exists x. split; [exact Hx|]. apply in_map. apply IH, Hrest.
Qed.
End ParameterGrid.

(** X17.  [_generate_parameter_combinations] returns as many dicts as the
    product of the lengths of the value lists (one empty dict for an empty
    grid, none when a list is empty), and a dict is in the result exactly
    when it has the keys of the grid, in their order, each with a value of
    its list. *)
Theorem parameter_combinations {V : Type} (param_grid : list (string * list V)) :
  let combinations := Optimizer._generate_parameter_combinations param_grid in
  length combinations
  = fold_right (fun kv n => length (snd kv) * n)%nat 1%nat param_grid
  /\ (forall params : list (string * V),
        In params combinations
        <-> List.Forall2 (fun kv grid => fst kv = fst grid /\ In (snd kv) (snd grid))
              params param_grid).
Proof.
  intros combinations. subst combinations.
  unfold Optimizer._generate_parameter_combinations. split.
  - rewrite length_map, product_length.
    induction param_grid as [|[k v] grid IH]; [reflexivity|].
    cbn [map fold_right snd]. rewrite IH. reflexivity.
  - intros params. rewrite in_map_iff. split.
    + intros (combination & <- & Hin). apply product_spec in Hin.
      revert combination Hin.
      induction param_grid as [|[k v] grid IH]; intros combination Hin.
      * inversion Hin. constructor.
      * cbn [map] in Hin. inversion Hin as [|x ? rest ? Hx Hrest]; subst.
        cbn [map combine fst]. constructor; [split; [reflexivity|exact Hx]|].
        apply IH, Hrest.
    + intros Hall. exists (map snd params). split.
      * induction Hall as [|[k x] [k' v] params grid [Hk _] _ IH]; [reflexivity|].
        cbn [map combine fst snd] in *. rewrite IH, Hk. reflexivity.
      * apply product_spec.
        induction Hall as [|[k x] [k' v] params grid [_ Hx] _ IH];
          [constructor|].
        cbn [map snd] in *. constructor; assumption.
Qed.

Section GridSearch.
Context {V R : Type}.
Variable backtest : list (string * V) -> result R.
Variable sharpe_ratio : R -> float.
Import Optimizer.

(** The strategy's parameters after all the updates of the loop. *)
Lemma search_ok (combinations : list (list (string * V)))
    (params : list (string * V)) (results : list R) (best_sharpe : float)
    (best : option (list (string * V) * R)) :
  runs backtest combinations params = Ok results ->
  exists (final : float) (best' : option (list (string * V) * R)),
    search backtest sharpe_ratio combinations params best_sharpe best
    = Ok (best', fold_left update combinations params)
    /\ (final = best_sharpe \/ PrimFloat.ltb best_sharpe final = true)
    /\ (forall r, In r results -> PrimFloat.ltb final (sharpe_ratio r) = false)
    /\ ((best' = best /\ final = best_sharpe)
        \/ (exists params_dict r,
              best' = Some (params_dict, r)
              /\ In params_dict combinations /\ In r results
              /\ sharpe_ratio r = final
              /\ PrimFloat.ltb best_sharpe final = true)).
Proof.
  revert params results best_sharpe best.
  induction combinations as [|params_dict combinations IH];
    intros params results best_sharpe best Hruns.
  - injection Hruns as <-. exists best_sharpe, best.
    split; [reflexivity|]. split; [left; reflexivity|].
    split; [intros r []|]. left. split; reflexivity.
  - cbn [runs] in Hruns. cbn [search fold_left].
    destruct (backtest (update params params_dict)) as [r1|x]; cbn [bind] in *;
      [|discriminate].
    destruct (runs backtest combinations (update params params_dict))
      as [others|x] eqn:Hothers; cbn [bind] in Hruns; [|discriminate].
    injection Hruns as <-.
    destruct (PrimFloat.ltb best_sharpe (sharpe_ratio r1)) eqn:Hbetter.
    + destruct (IH _ _ (sharpe_ratio r1) (Some (params_dict, r1)) Hothers)
        as (final & best' & Hsearch & Hfinal & Hnone & Hbest).
      exists final, best'. split; [exact Hsearch|].
      assert (Hup : PrimFloat.ltb best_sharpe final = true).
      { destruct Hfinal as [->|Hlt]; [exact Hbetter|].
        exact (float_ltb_trans _ _ _ Hbetter Hlt). }
      split; [right; exact Hup|]. split.
      * intros r [<-|Hr]; [|apply Hnone, Hr].
        destruct Hfinal as [->|Hlt]; [apply float_ltb_irrefl|].
        destruct (PrimFloat.ltb final (sharpe_ratio r1)) eqn:Hback; [|reflexivity].
        pose proof (float_ltb_trans _ _ _ Hlt Hback) as Hloop.
        rewrite float_ltb_irrefl in Hloop. discriminate.
      * right. destruct Hbest as [[-> ->] | (pd & r & -> & Hpd & Hr & Hs & _)].
        -- exists params_dict, r1. repeat split; try reflexivity; try (left; reflexivity).
           exact Hbetter.
        -- exists pd, r. repeat split; try assumption; right; assumption.
    + destruct (IH _ _ best_sharpe best Hothers)
        as (final & best' & Hsearch & Hfinal & Hnone & Hbest).
      exists final, best'. split; [exact Hsearch|]. split; [exact Hfinal|]. split.
      * intros r [<-|Hr]; [|apply Hnone, Hr].
        destruct Hfinal as [->|Hlt]; [exact Hbetter|].
        destruct (PrimFloat.ltb final (sharpe_ratio r1)) eqn:Hback; [|reflexivity].
        rewrite (float_ltb_trans _ _ _ Hlt Hback) in Hbetter. discriminate.
      * destruct Hbest as [Hsame | (pd & r & -> & Hpd & Hr & Hs & Hlt)];
          [left; exact Hsame|].
        right. exists pd, r. repeat split; try assumption; right; assumption.
Qed.

(** An exception of a run leaves the search. *)
Lemma search_raise (combinations : list (list (string * V)))
    (params : list (string * V)) (x : exn) (best_sharpe : float)
    (best : option (list (string * V) * R)) :
  runs backtest combinations params = Raise x ->
  search backtest sharpe_ratio combinations params best_sharpe best = Raise x.
Proof.
  revert params best_sharpe best.
  induction combinations as [|params_dict combinations IH];
    intros params best_sharpe best Hruns; [discriminate|].
  cbn [runs] in Hruns. cbn [search].
  destruct (backtest (update params params_dict)) as [r1|y]; cbn [bind] in *;
    [|injection Hruns as ->; reflexivity].
  destruct (runs backtest combinations (update params params_dict))
    as [others|y] eqn:Hothers; cbn [bind] in Hruns; [discriminate|].
  injection Hruns as ->.
  destruct (PrimFloat.ltb best_sharpe (sharpe_ratio r1)); apply IH; exact Hothers.
Qed.
End GridSearch.

(** X18.  When every run of the grid search returns, [optimize_parameters]
    returns a combination of the grid with the results of its run, whose
    Sharpe ratio is above minus infinity and is not exceeded by that of any
    run (so it is not a NaN); it returns [(None, None)] exactly when no run
    has a Sharpe ratio above minus infinity.  The strategy is left with the
    parameters of the last combination tried, not with the best ones.  An
    exception of a run leaves the method. *)
Theorem optimize_parameters_best {V R : Type}
    (backtest : list (string * V) -> result R) (sharpe_ratio : R -> float)
    (params : list (string * V)) (parameter_grid : list (string * list V)) :
  let combinations := Optimizer._generate_parameter_combinations parameter_grid in
  (forall results : list R,
      Optimizer.runs backtest combinations params = Ok results ->
      exists best : option (list (string * V) * R),
        Optimizer.optimize_parameters backtest sharpe_ratio params parameter_grid
        = Ok (best, fold_left Optimizer.update combinations params)
        /\ match best with
           | Some (best_params, best_results) =>
               In best_params combinations /\ In best_results results
               /\ PrimFloat.ltb PrimFloat.neg_infinity (sharpe_ratio best_results)
                  = true
               /\ forall r, In r results ->
                    PrimFloat.ltb (sharpe_ratio best_results) (sharpe_ratio r) = false
           | None =>
               forall r, In r results ->
                 PrimFloat.ltb PrimFloat.neg_infinity (sharpe_ratio r) = false
           end)
  /\ (forall x : exn,
        Optimizer.runs backtest combinations params = Raise x ->
        Optimizer.optimize_parameters backtest sharpe_ratio params parameter_grid
        = Raise x).
Proof.
  intros combinations. unfold Optimizer.optimize_parameters. fold combinations.
  split.
  - intros results Hruns.
    destruct (search_ok backtest sharpe_ratio combinations params results
                PrimFloat.neg_infinity None Hruns)
      as (final & best & Hsearch & _ & Hnone & Hbest).
    exists best. split; [exact Hsearch|].
    destruct Hbest as [[-> ->] | (pd & r & -> & Hpd & Hr & <- & Hlt)].
    + exact Hnone.
    + repeat split; assumption.
  - intros x Hruns. apply search_raise. exact Hruns.
Qed.

Lemma optimize_parameters_best_witness :
  exists best : option (list (string * float) * float),
    Optimizer.optimize_parameters fast_period_backtest (fun r => r) []
      [("fast", [1%float; 3%float; 2%float])]
    = Ok (best, [("fast", 2%float)]).
Proof.
  destruct (optimize_parameters_best fast_period_backtest (fun r => r) []
              [("fast", [1%float; 3%float; 2%float])]) as [Hbest _].
  destruct (Hbest [1%float; 3%float; 2%float] eq_refl) as (best & Hrun & _).
  exists best. exact Hrun.
Defined.

(** ** The correlation filter *)

Section CorrelationFilter.
Import CorrelationManager.

Lemma py_le_Q (x y : Q) : py_le x y = true <-> (x <= y)%Q.
Proof.
  unfold py_le. rewrite orb_true_iff, Q_ltb_true, Q_eqb_true. split.
  - intros [Hlt|Heq]; [apply Qlt_le_weak, Hlt|rewrite Heq; apply Qle_refl].
  - intros Hle. destruct (Qlt_le_dec x y) as [Hlt|Hge]; [left; exact Hlt|].
    right. apply Qle_antisym; assumption.
Qed.

Lemma max_corr_with_le (cm : CorrelationMatrix Q) (p : string)
    (kept : list string) (max_corr limit : Q) :
  (max_corr_with cm p kept max_corr <= limit)%Q
  <-> (max_corr <= limit)%Q /\ compatible cm limit kept p.
Proof.
  revert max_corr. induction kept as [|a kept IH]; intros max_corr.
  - cbn [max_corr_with]. split; [|intros [Hle _]; exact Hle].
    intros Hle. split; [exact Hle|]. intros a [].
  - cbn [max_corr_with].
    destruct (name_in p (columns cm) && name_in a (index cm)) eqn:Hknown.
    + rewrite IH, py_max_Q. split.
      * intros [Hmax Hrest].
        pose proof (Q.le_max_l max_corr (absv (loc cm a p))) as Hl.
        pose proof (Q.le_max_r max_corr (absv (loc cm a p))) as Hr.
        split; [exact (Qle_trans _ _ _ Hl Hmax)|].
        intros b [<-|Hb] Hb'; [|apply Hrest; assumption].
        exact (Qle_trans _ _ _ Hr Hmax).
      * intros [Hle Hall]. split.
        -- apply Q.max_lub; [exact Hle|]. apply (Hall a); [left; reflexivity|exact Hknown].
        -- intros b Hb. apply Hall. right. exact Hb.
    + rewrite IH. split; intros [Hle Hall]; (split; [exact Hle|]).
      * intros b [<-|Hb] Hb'; [congruence|apply Hall; assumption].
      * intros b Hb. apply Hall. right. exact Hb.
Qed.

(** What the loop appends to the pairs kept so far. *)
Lemma filter_loop_spec (cm : CorrelationMatrix Q) (limit : Q)
    (pairs kept : list string) :
  exists added : list string,
    filter_loop cm limit pairs kept = (kept ++ added)%list
    /\ sublist added pairs
    /\ (forall before p after,
          added = (before ++ p :: after)%list ->
          (0 <= limit)%Q /\ compatible cm limit (kept ++ before) p).
Proof.
  revert kept. induction pairs as [|p pairs IH]; intros kept.
  - exists []. cbn [filter_loop]. rewrite app_nil_r. split; [reflexivity|].
    split; [constructor|]. intros [|? ?] ? ? Habs; discriminate Habs.
  - cbn [filter_loop].
    destruct (py_le (max_corr_with cm p kept (lit 0)) limit) eqn:Hkeep.
    + apply py_le_Q, max_corr_with_le in Hkeep. destruct Hkeep as [Hlimit Hp].
      destruct (IH (kept ++ [p])%list) as (added & Hloop & Hsub & Hall).
      exists (p :: added). rewrite Hloop, <- app_assoc.
      split; [reflexivity|]. split; [constructor; exact Hsub|].
      intros [|q before] b after Heq; injection Heq as <- ->.
      * rewrite app_nil_r. split; [exact Hlimit|exact Hp].
      * specialize (Hall before b after eq_refl).
        rewrite <- app_assoc in Hall. exact Hall.
    + destruct (IH kept) as (added & Hloop & Hsub & Hall).
      exists added. split; [exact Hloop|]. split; [constructor; exact Hsub|].
      exact Hall.
Qed.

(** With a non-negative limit, pairs each of which is within the limit of
    those before it are all kept. *)
Lemma filter_loop_keeps_all (cm : CorrelationMatrix Q) (limit : Q)
    (pairs kept : list string) :
  (0 <= limit)%Q ->
  (forall before p after,
      pairs = (before ++ p :: after)%list ->
      compatible cm limit (kept ++ before) p) ->
  filter_loop cm limit pairs kept = (kept ++ pairs)%list.
Proof.
  intros Hlimit. revert kept.
  induction pairs as [|p pairs IH]; intros kept Hall; cbn [filter_loop].
  - rewrite app_nil_r. reflexivity.
  - assert (Hkeep : py_le (max_corr_with cm p kept (lit 0)) limit = true).
    { apply py_le_Q, max_corr_with_le. split; [exact Hlimit|].
      specialize (Hall [] p pairs eq_refl). rewrite app_nil_r in Hall.
      exact Hall. }
    rewrite Hkeep, IH, <- app_assoc; [reflexivity|].
    intros before q after Heq. rewrite <- app_assoc.
    apply (Hall (p :: before) q after). rewrite Heq. reflexivity.
Qed.
End CorrelationFilter.

Section CorrelationFilterFloat.
Import CorrelationManager.
Local Open Scope float_scope.

Lemma max_corr_with_float (cm : CorrelationMatrix float) (p : string)
    (kept : list string) (max_corr limit : float) :
  PrimFloat.is_nan max_corr = false ->
  (max_corr_with cm p kept max_corr <=? limit) = true
  <-> (max_corr <=? limit) = true /\ within_limit cm limit kept p.
Proof.
  revert max_corr. induction kept as [|a kept IH]; intros max_corr Hnan.
  - cbn [max_corr_with]. split; [|intros [Hle _]; exact Hle].
    intros Hle. split; [exact Hle|]. intros a [].
  - cbn [max_corr_with].
    destruct (name_in p (columns cm) && name_in a (index cm)) eqn:Hknown.
    + unfold py_max.
      change (ltb max_corr (absv (loc cm a p)))
        with (max_corr <? PrimFloat.abs (loc cm a p)).
      destruct (max_corr <? PrimFloat.abs (loc cm a p)) eqn:Hmax.
      * rewrite IH by (apply (float_ltb_not_nan _ _ Hmax)). split.
        -- intros [Hc Hrest]. split.
           ++ apply float_ltb_leb. exact (float_ltb_leb_trans _ _ _ Hmax Hc).
           ++ intros b [<-|Hb] Hb'; [|apply Hrest; assumption].
              apply float_leb_not_ltb. exact Hc.
        -- intros [Hle Hall]. split.
           ++ apply float_not_ltb_leb.
              ** apply (float_leb_not_nan _ _ Hle).
              ** apply (float_ltb_not_nan _ _ Hmax).
              ** apply (Hall a); [left; reflexivity|exact Hknown].
           ++ intros b Hb. apply Hall. right. exact Hb.
      * rewrite IH by exact Hnan. split.
        -- intros [Hle Hrest]. split; [exact Hle|].
           intros b [<-|Hb] Hb'; [|apply Hrest; assumption].
           destruct (limit <? PrimFloat.abs (loc cm a p)) eqn:Habove; [|reflexivity].
           pose proof (float_leb_ltb_trans _ _ _ Hle Habove) as Habs. congruence.
        -- intros [Hle Hall]. split; [exact Hle|].
           intros b Hb. apply Hall. right. exact Hb.
    + rewrite IH by exact Hnan. split; intros [Hle Hall]; (split; [exact Hle|]).
      * intros b [<-|Hb] Hb'; [congruence|apply Hall; assumption].
      * intros b Hb. apply Hall. right. exact Hb.
Qed.

Lemma kept_float (cm : CorrelationMatrix float) (p : string)
    (kept : list string) (limit : float) :
  py_le (max_corr_with cm p kept (lit 0)) limit = true
  <-> (0 <=? limit) = true /\ within_limit cm limit kept p.
Proof.
  rewrite float_py_le. apply max_corr_with_float. reflexivity.
Qed.

(** What the loop appends to the pairs kept so far. *)
Lemma filter_loop_float (cm : CorrelationMatrix float) (limit : float)
    (pairs kept : list string) :
  exists added : list string,
    filter_loop cm limit pairs kept = (kept ++ added)%list
    /\ sublist added pairs
    /\ (forall before p after,
          added = (before ++ p :: after)%list ->
          (0 <=? limit) = true /\ within_limit cm limit (kept ++ before) p).
Proof.
  revert kept. induction pairs as [|p pairs IH]; intros kept.
  - exists []. cbn [filter_loop]. rewrite app_nil_r. split; [reflexivity|].
    split; [constructor|]. intros [|? ?] ? ? Habs; discriminate Habs.
  - cbn [filter_loop].
    destruct (py_le (max_corr_with cm p kept (lit 0)) limit) eqn:Hkeep.
    + apply kept_float in Hkeep. destruct Hkeep as [Hlimit Hp].
      destruct (IH (kept ++ [p])%list) as (added & Hloop & Hsub & Hall).
      exists (p :: added). rewrite Hloop, <- app_assoc.
      split; [reflexivity|]. split; [constructor; exact Hsub|].
      intros [|q before] b after Heq; injection Heq as <- ->.
      * rewrite app_nil_r. split; [exact Hlimit|exact Hp].
      * specialize (Hall before b after eq_refl).
        rewrite <- app_assoc in Hall. exact Hall.
    + destruct (IH kept) as (added & Hloop & Hsub & Hall).
      exists added. split; [exact Hloop|]. split; [constructor; exact Hsub|].
      exact Hall.
Qed.

Lemma filter_loop_float_keeps_all (cm : CorrelationMatrix float) (limit : float)
    (pairs kept : list string) :
  (0 <=? limit) = true ->
  (forall before p after,
      pairs = (before ++ p :: after)%list ->
      within_limit cm limit (kept ++ before) p) ->
  filter_loop cm limit pairs kept = (kept ++ pairs)%list.
Proof.
  intros Hlimit. revert kept.
  induction pairs as [|p pairs IH]; intros kept Hall; cbn [filter_loop].
  - rewrite app_nil_r. reflexivity.
  - assert (Hkeep : py_le (max_corr_with cm p kept (lit 0)) limit = true).
    { apply kept_float. split; [exact Hlimit|].
      specialize (Hall [] p pairs eq_refl). rewrite app_nil_r in Hall.
      exact Hall. }
    rewrite Hkeep, IH, <- app_assoc; [reflexivity|].
    intros before q after Heq. rewrite <- app_assoc.
    apply (Hall (p :: before) q after). rewrite Heq. reflexivity.
Qed.
End CorrelationFilterFloat.

(** X19.  [filter_correlated_pairs] raises [IndexError] on an empty list.
    Otherwise it returns the first pair followed by a subsequence of the
    others, in their order; a pair is kept only under a non-negative limit
    and when its absolute correlation with each pair kept before it, as far
    as the matrix knows both, is not above the limit; and with a
    non-negative limit, pairs each of which is not above the limit with any
    pair before it are all kept.  In exact arithmetic not above the limit is at most the
    limit.  On binary64 it is at most the limit or a NaN: [max] skips a NaN
    correlation, which therefore never counts against a pair. *)
Theorem filter_correlated_pairs_kept :
  (forall (cm : CorrelationManager.CorrelationMatrix Q) (max_correlation : Q)
          (pairs : list string),
      match pairs with
      | [] =>
          CorrelationManager.filter_correlated_pairs pairs cm max_correlation
          = Raise IndexError
      | first :: rest =>
          exists added : list string,
            CorrelationManager.filter_correlated_pairs pairs cm max_correlation
            = Ok (first :: added)
            /\ sublist added rest
            /\ (forall before p after,
                  added = (before ++ p :: after)%list ->
                  (0 <= max_correlation)%Q
                  /\ compatible cm max_correlation (first :: before) p)
            /\ ((0 <= max_correlation)%Q ->
                (forall before p after,
                    rest = (before ++ p :: after)%list ->
                    compatible cm max_correlation (first :: before) p) ->
                added = rest)
      end)
  /\ (forall (cm : CorrelationManager.CorrelationMatrix float)
             (max_correlation : float) (pairs : list string),
        match pairs with
        | [] =>
            CorrelationManager.filter_correlated_pairs pairs cm max_correlation
            = Raise IndexError
        | first :: rest =>
            exists added : list string,
              CorrelationManager.filter_correlated_pairs pairs cm max_correlation
              = Ok (first :: added)
              /\ sublist added rest
              /\ (forall before p after,
                    added = (before ++ p :: after)%list ->
                    PrimFloat.leb (lit 0) max_correlation = true
                    /\ within_limit cm max_correlation (first :: before) p)
              /\ (PrimFloat.leb (lit 0) max_correlation = true ->
                  (forall before p after,
                      rest = (before ++ p :: after)%list ->
                      within_limit cm max_correlation (first :: before) p) ->
                  added = rest)
        end)
  /\ (let cm : CorrelationManager.CorrelationMatrix float :=
        CorrelationManager.mkMatrix ["A"; "B"] ["A"; "B"]
          (fun _ _ => PrimFloat.nan) in
      CorrelationManager.filter_correlated_pairs ["A"; "B"] cm (lit 0.7)
      = Ok ["A"; "B"]
      /\ PrimFloat.leb (absv (CorrelationManager.loc cm "A" "B")) (lit 0.7)
         = false).
Proof.
  split; [|split].
  { intros cm max_correlation pairs.
    destruct pairs as [|first rest]; [reflexivity|].
    destruct (filter_loop_spec cm max_correlation rest [first])
      as (added & Hloop & Hsub & Hall).
    exists added. unfold CorrelationManager.filter_correlated_pairs.
    rewrite Hloop. split; [reflexivity|]. split; [exact Hsub|].
    split; [exact Hall|]. intros Hlimit Hrest.
    rewrite (filter_loop_keeps_all cm max_correlation rest [first] Hlimit Hrest)
      in Hloop.
    injection Hloop as Hloop. symmetry. exact Hloop. }
  { intros cm max_correlation pairs.
    destruct pairs as [|first rest]; [reflexivity|].
    destruct (filter_loop_float cm max_correlation rest [first])
      as (added & Hloop & Hsub & Hall).
    exists added. unfold CorrelationManager.filter_correlated_pairs.
    rewrite Hloop. split; [reflexivity|]. split; [exact Hsub|].
    split; [exact Hall|]. intros Hlimit Hrest.
    rewrite (filter_loop_float_keeps_all cm max_correlation rest [first]
               Hlimit Hrest) in Hloop.
    injection Hloop as Hloop. symmetry. exact Hloop. }
  split; vm_compute; reflexivity.
Qed.

Lemma filter_correlated_pairs_kept_witness :
  (exists added : list string,
      CorrelationManager.filter_correlated_pairs
        ["EURUSD"; "GBPUSD"; "USDJPY"] fx_correlations 0.7%Q
      = Ok ("EURUSD" :: added)
      /\ sublist added ["GBPUSD"; "USDJPY"])
  /\ CorrelationManager.filter_correlated_pairs ["EURUSD"; "USDJPY"]
       (CorrelationManager.mkMatrix ["EURUSD"; "USDJPY"] ["EURUSD"; "USDJPY"]
          (fun a b => if String.eqb a b then lit 1 else lit (-0.3)))
       (lit 0.7 : float)
     = Ok ["EURUSD"; "USDJPY"].
Proof.
  split.
  - destruct (proj1 filter_correlated_pairs_kept fx_correlations 0.7%Q
                ["EURUSD"; "GBPUSD"; "USDJPY"])
      as (added & Hkept & Hsub & _).
    exists added. split; assumption.
  - destruct (proj1 (proj2 filter_correlated_pairs_kept)
                (CorrelationManager.mkMatrix ["EURUSD"; "USDJPY"]
                   ["EURUSD"; "USDJPY"]
                   (fun a b => if String.eqb a b then lit 1 else lit (-0.3)))
                (lit 0.7) ["EURUSD"; "USDJPY"])
      as (added & Hkept & _ & _ & Hall).
    assert (Hlimit : PrimFloat.leb (lit 0) (lit 0.7) = true)
      by (vm_compute; reflexivity).
    rewrite Hkept, (Hall Hlimit); [reflexivity|].
    intros [|q [|? ?]] p after Heq; try discriminate Heq.
    injection Heq as <- <-. intros a [<-|[]] _. vm_compute. reflexivity.
Defined.

(** ** Drawdowns *)

Section DrawdownQ.
Import Statistics.
Local Open Scope Q_scope.

(** No rational is a NaN. *)
Lemma py_isnan_Q (x : Q) : py_isnan x = false.
Proof.
  unfold py_isnan. apply negb_false_iff. apply Q_eqb_true. reflexivity.
Qed.

Lemma dropna_Q (xs : list Q) : Returns.dropna xs = xs.
Proof.
  unfold Returns.dropna. induction xs as [|x xs IH]; [reflexivity|].
  cbn [List.filter]. rewrite py_isnan_Q. cbn [negb]. rewrite IH. reflexivity.
Qed.

Lemma cummax_from_cons (m : option Q) (x : Q) (xs : list Q) :
  cummax_from m (x :: xs)
  = let m' := match m with
              | None => x
              | Some v => if ltb v x then x else v
              end in
    m' :: cummax_from (Some m') xs.
Proof. cbn [cummax_from]. rewrite py_isnan_Q. reflexivity. Qed.

Lemma drawdowns_from_cons (m : option Q) (x : Q) (xs : list Q) :
  drawdowns_from m (x :: xs)
  = let m' := match m with
              | None => x
              | Some v => if ltb v x then x else v
              end in
    ((x - m') / m') :: drawdowns_from (Some m') xs.
Proof. unfold drawdowns_from. rewrite cummax_from_cons. reflexivity. Qed.

Lemma drawdown_entry_range (x peak : Q) :
  0 < x -> x <= peak -> -1 < (x - peak) / peak <= 0.
Proof.
  intros Hx Hpeak. split.
  - apply Qlt_shift_div_l; lra.
  - apply Qle_shift_div_r; lra.
Qed.

Lemma drawdown_entry_zero (x peak : Q) :
  0 < peak -> ((x - peak) / peak == 0 <-> x == peak).
Proof.
  intros Hpeak. split.
  - intros Hzero.
    assert (Hq : x - peak == (x - peak) / peak * peak) by (field; lra).
    rewrite Hzero in Hq. lra.
  - intros ->. field. lra.
Qed.

Lemma drawdowns_from_range (xs : list Q) (m : option Q) :
  match m with Some v => 0 < v | None => True end ->
  Forall (fun x => 0 < x) xs ->
  Forall (fun d => -1 < d <= 0) (drawdowns_from m xs).
Proof.
  revert m. induction xs as [|x xs IH]; intros m Hm Hxs; [constructor|].
  apply Forall_cons_iff in Hxs. destruct Hxs as [Hx Hxs].
  rewrite drawdowns_from_cons. cbv zeta. destruct m as [v|].
  - destruct (ltb v x) eqn:Hvx.
    + constructor; [apply drawdown_entry_range; lra|]. apply IH; assumption.
    + apply Q_ltb_false in Hvx.
      constructor; [apply drawdown_entry_range; assumption|]. apply IH; assumption.
  - constructor; [apply drawdown_entry_range; lra|]. apply IH; assumption.
Qed.

Lemma nondecreasing_head (a b : Q) (xs : list Q) :
  a == b -> (nondecreasing (a :: xs) <-> nondecreasing (b :: xs)).
Proof.
  intros Hab. destruct xs as [|x xs]; [reflexivity|]. cbn [nondecreasing].
  rewrite Hab. reflexivity.
Qed.

Lemma drawdowns_from_zero (xs : list Q) (v : Q) :
  0 < v -> Forall (fun x => 0 < x) xs ->
  (Forall (fun d => d == 0) (drawdowns_from (Some v) xs)
   <-> nondecreasing (v :: xs)).
Proof.
  revert v. induction xs as [|x xs IH]; intros v Hv Hxs.
  - cbn. split; [trivial|constructor].
  - apply Forall_cons_iff in Hxs. destruct Hxs as [Hx Hxs].
    rewrite drawdowns_from_cons. cbv zeta. rewrite Forall_cons_iff.
    change (nondecreasing (v :: x :: xs)) with (v <= x /\ nondecreasing (x :: xs)).
    destruct (ltb v x) eqn:Hvx.
    + apply Q_ltb_true in Hvx. rewrite (IH x Hx Hxs), drawdown_entry_zero by exact Hx.
      split; intros [_ Hrest]; (split; [lra|exact Hrest]).
    + apply Q_ltb_false in Hvx. rewrite (IH v Hv Hxs), drawdown_entry_zero by exact Hv.
      split.
      * intros [Heq Hrest]. split; [lra|].
        apply (nondecreasing_head x v xs Heq). exact Hrest.
      * intros [Hle Hrest]. assert (Heq : x == v) by lra. split; [exact Heq|].
        apply (nondecreasing_head x v xs Heq). exact Hrest.
Qed.

(** The minimum is its start or an entry, and is below both. *)
Lemma min_from_spec (xs : list Q) (a : Q) :
  (min_from a xs = a \/ In (min_from a xs) xs)
  /\ min_from a xs <= a
  /\ Forall (fun x => min_from a xs <= x) xs.
Proof.
  revert a. induction xs as [|x xs IH]; intros a.
  - cbn. split; [left; reflexivity|]. split; [lra|constructor].
  - unfold min_from. cbn [fold_left]. fold (min_from (if ltb x a then x else a) xs).
    destruct (IH (if ltb x a then x else a)) as (Hin & Hle & Hall).
    destruct (ltb x a) eqn:Hxa;
      [apply Q_ltb_true in Hxa|apply Q_ltb_false in Hxa].
    + split; [right; destruct Hin as [->|Hin]; [left; reflexivity|right; exact Hin]|].
      split; [lra|]. constructor; [exact Hle|exact Hall].
    + split; [destruct Hin as [->|Hin]; [left; reflexivity|right; right; exact Hin]|].
      split; [exact Hle|]. constructor; [lra|exact Hall].
Qed.
End DrawdownQ.

Section HelpersDrawdown.
Import Returns.
Local Open Scope Q_scope.

Lemma expanding_max_is_cummax (xs : list Q) (m : option Q) :
  expanding_max_from m xs = Statistics.cummax_from m xs.
Proof.
  revert m. induction xs as [|x xs IH]; intros m; [reflexivity|].
  rewrite cummax_from_cons. cbn [expanding_max_from]. rewrite py_isnan_Q.
  destruct m as [v|]; cbv zeta; rewrite IH; reflexivity.
Qed.

Lemma filled_drawdown_Q (cumulative : list Q) :
  filled_drawdown cumulative (expanding_max_from None cumulative)
  = drawdowns_from None cumulative.
Proof.
  unfold filled_drawdown, drawdowns_from. rewrite expanding_max_is_cummax.
  apply map_ext. intros [c peak]. cbv zeta. rewrite py_isnan_Q. reflexivity.
Qed.

(** The cumulative product of the gross returns is the price over the first
    price. *)
Lemma cumulative_is_price_ratio (first : Q) (prices : list Q) (a acc : Q) :
  0 < first -> 0 < a -> Forall (fun x => 0 < x) prices ->
  acc == a / first ->
  List.Forall2 (fun c x => c == x / first)
    (cumprod_from acc (map (fun r => add (lit 1) r) (pct_change (a :: prices))))
    prices.
Proof.
  intros Hfirst. revert a acc.
  induction prices as [|b prices IH]; intros a acc Ha Hprices Hacc; [constructor|].
  apply Forall_cons_iff in Hprices. destruct Hprices as [Hb Hprices].
  cbn [pct_change map cumprod_from]. rewrite py_isnan_Q.
  assert (Hnext : mul acc (add (lit 1) (sub (div b a) (lit 1))) == b / first).
  { unfold_Q. rewrite Hacc. field. lra. }
  constructor; [exact Hnext|]. apply IH; assumption.
Qed.

(** Drawdowns do not change when the series is divided by a positive
    number. *)
Lemma drawdowns_from_scaled (first : Q) (cumulative prices : list Q)
    (m m' : option Q) :
  0 < first ->
  List.Forall2 (fun c x => c == x / first) cumulative prices ->
  Forall (fun x => 0 < x) prices ->
  match m, m' with
  | None, None => True
  | Some v, Some v' => v == v' / first /\ 0 < v'
  | _, _ => False
  end ->
  List.Forall2 Qeq (drawdowns_from m cumulative) (drawdowns_from m' prices).
Proof.
  intros Hfirst Hscaled. revert m m'.
  induction Hscaled as [|c x cumulative prices Hc _ IH]; intros m m' Hprices Hm;
    [constructor|].
  apply Forall_cons_iff in Hprices. destruct Hprices as [Hx Hprices].
  rewrite !drawdowns_from_cons. cbv zeta.
  assert (Hcx : c * first == x) by (rewrite Hc; field; lra).
  assert (Hstep : forall w w' : Q,
             w == w' / first -> 0 < w' -> (c - w) / w == (x - w') / w').
  { intros w w' Hw Hw'. rewrite Hc, Hw. field. lra. }
  destruct m as [v|], m' as [v'|]; try contradiction.
  - destruct Hm as [Hv Hv'].
    assert (Hvv : v * first == v') by (rewrite Hv; field; lra).
    destruct (ltb v c) eqn:Hlt, (ltb v' x) eqn:Hlt';
      [apply Q_ltb_true in Hlt|apply Q_ltb_true in Hlt
      |apply Q_ltb_false in Hlt|apply Q_ltb_false in Hlt];
      [apply Q_ltb_true in Hlt'|apply Q_ltb_false in Hlt'
      |apply Q_ltb_true in Hlt'|apply Q_ltb_false in Hlt'].
    + constructor; [apply Hstep; assumption|]. apply IH; [exact Hprices|].
      split; assumption.
    + exfalso. nra.
    + exfalso. nra.
    + constructor; [apply Hstep; assumption|]. apply IH; [exact Hprices|].
      split; assumption.
  - constructor; [apply Hstep; assumption|]. apply IH; [exact Hprices|].
    split; assumption.
Qed.

Lemma min_from_Qeq (xs xs' : list Q) (a a' : Q) :
  a == a' -> List.Forall2 Qeq xs xs' -> min_from a xs == min_from a' xs'.
Proof.
  intros Ha Hxs. revert a a' Ha.
  induction Hxs as [|x x' xs xs' Hx _ IH]; intros a a' Ha; [exact Ha|].
  unfold min_from. cbn [fold_left].
  fold (min_from (if ltb x a then x else a) xs).
  fold (min_from (if ltb x' a' then x' else a') xs').
  apply IH.
  destruct (ltb x a) eqn:Hlt, (ltb x' a') eqn:Hlt';
    [apply Q_ltb_true in Hlt|apply Q_ltb_true in Hlt
    |apply Q_ltb_false in Hlt|apply Q_ltb_false in Hlt];
    [apply Q_ltb_true in Hlt'|apply Q_ltb_false in Hlt'
    |apply Q_ltb_true in Hlt'|apply Q_ltb_false in Hlt'];
    lra.
Qed.

(** The shortcut for a series of zeros changes nothing. *)
Lemma min_from_all_zero (xs : list Q) :
  forallb (fun d => eqb d (lit 0)) (lit 0 :: xs) = true -> min_from 0 xs == 0.
Proof.
  intros Hall. cbn [forallb] in Hall. apply andb_prop in Hall.
  destruct Hall as [_ Hall]. rewrite forallb_forall in Hall.
  destruct (min_from_spec xs 0) as ([Heq|Hin] & _ & _); [rewrite Heq; reflexivity|].
  apply Q_eqb_true. exact (Hall _ Hin).
Qed.

(** With a first entry that is zero, the minimum of the drawdowns is the
    minimum with 0. *)
Lemma max_drawdown_min_from (equity_curve : list Q) :
  Forall (fun x => 0 < x) equity_curve ->
  Statistics.max_drawdown equity_curve
  == min_from 0 (drawdowns_from None equity_curve).
Proof.
  intros Hpos. unfold Statistics.max_drawdown, calculate_returns.
  rewrite dropna_Q. destruct equity_curve as [|x [|y rest]].
  - reflexivity.
  - apply Forall_cons_iff in Hpos. destruct Hpos as [Hx _].
    rewrite drawdowns_from_cons. cbv zeta.
    change (0 == min_from 0 [(x - x) / x]).
    unfold min_from. cbn [fold_left].
    assert (Hzero : (x - x) / x == 0) by (field; lra).
    destruct (ltb ((x - x) / x) 0) eqn:Hlt; [|reflexivity].
    apply Q_ltb_true in Hlt. lra.
  - cbn [pct_change length Nat.ltb Nat.leb].
    unfold Statistics.nanmin. rewrite dropna_Q.
    change (Statistics.drawdown_curve (x :: y :: rest))
      with (drawdowns_from None (x :: y :: rest)).
    rewrite drawdowns_from_cons. cbv beta iota zeta.
    apply Forall_cons_iff in Hpos. destruct Hpos as [Hx _].
    assert (Hzero : (x - x) / x == 0) by (field; lra).
    set (first := (x - x) / x) in *.
    set (others := drawdowns_from (Some x) (y :: rest)).
    change (min_from first others
            == min_from (if ltb first 0 then first else 0) others).
    apply min_from_Qeq.
    + destruct (ltb first 0); [reflexivity|exact Hzero].
    + clear. induction others; constructor; [reflexivity|assumption].
Qed.

(** The lowest drawdown of a positive series lies in (-1, 0], and is 0
    exactly when the series never falls. *)
Lemma lowest_drawdown_range (xs : list Q) :
  Forall (fun x => 0 < x) xs ->
  -1 < min_from 0 (drawdowns_from None xs) <= 0
  /\ (min_from 0 (drawdowns_from None xs) == 0 <-> nondecreasing xs).
Proof.
  intros Hpos.
  pose proof (drawdowns_from_range xs None I Hpos) as Hrange.
  assert (Hzero : Forall (fun d => d == 0) (drawdowns_from None xs)
                  <-> nondecreasing xs).
  { destruct xs as [|x rest];
      [split; [intros _; exact I|intros _; constructor]|].
    apply Forall_cons_iff in Hpos. destruct Hpos as [Hx Hrest].
    rewrite drawdowns_from_cons. cbv zeta.
    rewrite Forall_cons_iff, (drawdowns_from_zero rest x Hx Hrest).
    assert (Hfirst : (x - x) / x == 0) by (field; lra).
    split; [intros [_ Hsorted]; exact Hsorted|].
    intros Hsorted. split; [exact Hfirst|exact Hsorted]. }
  destruct (min_from_spec (drawdowns_from None xs) 0) as (Hin & Hle & Hall).
  set (lowest := min_from 0 (drawdowns_from None xs)) in *. clearbody lowest.
  assert (Hlowest : -1 < lowest <= 0).
  { destruct Hin as [Heq|Hin]; [rewrite Heq; lra|].
    exact (proj1 (List.Forall_forall _ _) Hrange lowest Hin). }
  split; [exact Hlowest|]. rewrite <- Hzero. split.
  - intros Hnone. apply List.Forall_forall. intros d Hd.
    pose proof (proj1 (List.Forall_forall _ _) Hall d Hd) as Hbelow.
    pose proof (proj1 (List.Forall_forall _ _) Hrange d Hd) as Hd'.
    cbv beta in Hbelow, Hd'. lra.
  - intros Hnone. destruct Hin as [Heq|Hin]; [rewrite Heq; reflexivity|].
    exact (proj1 (List.Forall_forall _ _) Hnone lowest Hin).
Qed.
End HelpersDrawdown.

Section DrawdownFloat.
Local Open Scope float_scope.

(** The quotient of a double that is not above zero by a positive finite
    double is not above zero (and not a NaN). *)
Lemma float_div_signed_neg (a p : float) :
  (a <=? 0) = true -> PrimFloat.is_finite p = true -> (0 <? p) = true ->
  (a / p <=? 0) = true.
Proof.
  intros Ha Hp Hpos. apply float_finite_spec in Hp.
  apply float_leb_signed_zero in Ha. apply float_leb_signed_zero.
  rewrite FloatAxioms.ltb_spec in Hpos. change (Prim2SF 0) with (S754_zero false) in Hpos.
  rewrite FloatAxioms.div_spec. unfold SF64div.
  destruct (Prim2SF p) as [s|s| |s m e]; try contradiction; try discriminate.
  destruct s; [discriminate|].
  exact (SFdiv_signed true false (Prim2SF a) m e Ha).
Qed.

(** One entry of the drawdown curve: an equity that its running maximum is
    not below. *)
Lemma drawdown_entry_float (x m : float) :
  PrimFloat.is_finite x = true -> positive_finite m -> (m <? x) = false ->
  ((x - m) / m <=? 0) = true.
Proof.
  intros Hx [Hm Hpos] Hle. apply float_div_signed_neg; [|exact Hm|exact Hpos].
  apply (proj2 (float_sub_signed x m Hx Hm)). exact Hle.
Qed.

Lemma positive_finite_not_nan (x : float) :
  positive_finite x -> py_isnan x = false.
Proof.
  intros [Hx _]. change (py_isnan x) with (PrimFloat.is_nan x).
  unfold PrimFloat.is_finite in Hx.
  destruct (PrimFloat.is_nan x); [discriminate|reflexivity].
Qed.

Lemma drawdowns_float_from (xs : list float) (m : option float) :
  List.Forall positive_finite xs ->
  match m with Some v => positive_finite v | None => True end ->
  List.Forall (fun d => (d <=? 0) = true)
    (map (fun ec => (fst ec - snd ec) / snd ec)
         (combine xs (Statistics.cummax_from m xs))).
Proof.
  intros Hxs. revert m. induction Hxs as [|x xs Hx _ IH]; intros m Hm.
  - constructor.
  - cbn [Statistics.cummax_from]. rewrite (positive_finite_not_nan x Hx).
    cbn [combine map fst snd].
    set (m' := match m with
               | Some v => if ltb v x then x else v
               | None => x
               end).
    assert (Hm' : positive_finite m' /\ (m' <? x) = false).
    { subst m'. destruct m as [v|].
      - destruct (ltb v x) eqn:Hvx.
        + split; [exact Hx|apply float_ltb_irrefl].
        + split; [exact Hm|exact Hvx].
      - split; [exact Hx|apply float_ltb_irrefl]. }
    destruct Hm' as [Hpos Hle]. constructor.
    + apply drawdown_entry_float; [apply Hx|exact Hpos|exact Hle].
    + apply IH. exact Hpos.
Qed.

Lemma nanmin_float (xs : list float) :
  List.Forall (fun d => (d <=? 0) = true) xs ->
  (Statistics.nanmin xs <=? 0) = true.
Proof.
  intros Hxs. unfold Statistics.nanmin.
  assert (Hkept : List.Forall (fun d => (d <=? 0) = true) (Returns.dropna xs)).
  { apply List.Forall_forall. intros d Hd. apply List.filter_In in Hd.
    apply (proj1 (List.Forall_forall _ _) Hxs). apply Hd. }
  destruct (Returns.dropna xs) as [|x rest].
  - destruct Hxs as [|d xs Hd _]; [reflexivity|exact Hd].
  - apply List.Forall_cons_iff in Hkept. destruct Hkept as [Hx Hrest].
    revert x Hx. induction Hrest as [|y rest Hy _ IH]; intros x Hx; cbn [fold_left].
    + exact Hx.
    + apply IH. destruct (ltb y x); assumption.
Qed.

End DrawdownFloat.

Section ReturnsFloat.
Local Open Scope float_scope.

Lemma sf_signed_not_nan (s : bool) (x : spec_float) :
  sf_signed s x -> x <> S754_nan.
Proof. intros Hx Hnan. rewrite Hnan in Hx. exact Hx. Qed.

(** The return between two positive finite prices is a number. *)
Lemma float_return_not_nan (a b : float) :
  positive_finite a -> positive_finite b -> PrimFloat.is_nan (b / a - 1) = false.
Proof.
  intros [Ha Hapos] [Hb Hbpos].
  assert (Hq : (0 <=? b / a) = true).
  { apply float_div_signed; [apply float_ltb_leb; exact Hbpos|exact Ha|exact Hapos]. }
  apply float_leb_zero_signed in Hq. apply float_is_nan_spec.
  rewrite FloatAxioms.sub_spec. unfold SF64sub.
  pose proof (Prim2SF_valid (b / a)) as Hvalid.
  change (Prim2SF 1) with (S754_finite false 4503599627370496 (-52)).
  destruct (Prim2SF (b / a)) as [s|s| |s m e]; cbn [sf_signed] in Hq.
  - cbn. discriminate.
  - cbn. discriminate.
  - contradiction.
  - cbn [valid_binary] in Hvalid.
    pose proof (SFsub_finite_signed s false m 4503599627370496 e (-52) Hvalid
                  eq_refl) as Hsub.
    destruct (SFcompare (S754_finite s m e)
                (S754_finite false 4503599627370496 (-52))) as [[| |]|];
      try contradiction.
    + rewrite Hsub. discriminate.
    + exact (sf_signed_not_nan _ _ Hsub).
    + exact (sf_signed_not_nan _ _ Hsub).
Qed.

(** For positive finite prices [dropna] drops nothing. *)
Lemma calculate_returns_float (first : float) (prices : list float) :
  positive_finite first -> List.Forall positive_finite prices ->
  Returns.calculate_returns (first :: prices) = Returns.pct_change (first :: prices)
  /\ List.Forall (fun r => PrimFloat.is_nan r = false)
       (Returns.calculate_returns (first :: prices)).
Proof.
  intros Hfirst Hprices. unfold Returns.calculate_returns, Returns.dropna.
  revert first Hfirst. induction Hprices as [|b rest Hb _ IH]; intros a Ha.
  - split; [reflexivity|constructor].
  - change (Returns.pct_change (a :: b :: rest))
      with ((b / a - 1) :: Returns.pct_change (b :: rest)).
    cbn [List.filter].
    change (py_isnan (b / a - 1)) with (PrimFloat.is_nan (b / a - 1)).
    rewrite (float_return_not_nan a b Ha Hb). cbn [negb].
    destruct (IH b Hb) as [Heq Hall]. rewrite Heq in *.
    split; [reflexivity|]. constructor; [|exact Hall].
    apply float_return_not_nan; assumption.
Qed.
End ReturnsFloat.

(** X20.  For an equity curve of positive values the [max_drawdown] of the
    metrics, the lowest value of [(equity - cummax) / cummax], is never above
    0.  In exact arithmetic it lies in (-1, 0] and is 0 exactly when the
    curve never falls.  On binary64, for positive finite doubles, it is at
    most 0 (and so no NaN); the bound -1 is not strict there: the curve
    [2^70], 1 gives -1. *)
Theorem max_drawdown_range :
  (forall equity_curve : list Q,
      Forall (fun x => 0 < x)%Q equity_curve ->
      (-1 < Statistics.max_drawdown equity_curve <= 0)%Q
      /\ ((Statistics.max_drawdown equity_curve == 0)%Q
          <-> nondecreasing equity_curve))
  /\ (forall equity_curve : list float,
        List.Forall positive_finite equity_curve ->
        PrimFloat.leb (Statistics.max_drawdown equity_curve) (lit 0) = true)
  /\ Statistics.max_drawdown [0x1p70%float; lit 1] = lit (-1).
Proof.
  split; [|split].
  { intros equity_curve.
    intros Hpos. rewrite (max_drawdown_min_from equity_curve Hpos).
    apply lowest_drawdown_range. exact Hpos. }
  { intros equity_curve Hpos. unfold Statistics.max_drawdown.
    destruct (_ <? _)%nat; [|reflexivity].
    apply nanmin_float. unfold Statistics.drawdown_curve, Statistics.cummax.
    apply drawdowns_float_from; [exact Hpos|exact I]. }
  vm_compute. reflexivity.
Qed.

Lemma max_drawdown_range_witness :
  (-1 < Statistics.max_drawdown sample_equity <= 0)%Q
  /\ PrimFloat.leb
       (Statistics.max_drawdown [lit 100; lit 110; lit 88; lit 90 : float])
       (lit 0) = true.
Proof.
  split.
  - refine (proj1 (proj1 max_drawdown_range sample_equity _)).
    repeat constructor.
  - apply (proj1 (proj2 max_drawdown_range)).
    repeat constructor.
Defined.

(** X21.  [calculate_max_drawdown] never measures a fall against the first
    price: [pct_change] starts with a NaN, so the running maximum starts at
    the second price.  In exact arithmetic, for positive prices, its result
    is the [max_drawdown] the metrics of [AdvancedBacktester] would give for
    the series without its first entry; it lies in (-1, 0] and is 0 exactly
    when the prices after the first never fall.  On binary64 the fall from
    the first price is left out just the same (100, 50, 50 gives 0.0, and
    -0.5 with the first price counted), the two computations agree up to
    rounding only (100, 110, 88, 90 gives a value above the -0.2 of 110, 88,
    90), and -1 is reached (5, [2^70], 1). *)
Theorem calculate_max_drawdown_skips_first_price :
  (forall (first : Q) (prices : list Q),
      (0 < first)%Q -> Forall (fun x => 0 < x)%Q prices ->
      (Returns.calculate_max_drawdown (first :: prices)
       == Statistics.max_drawdown prices)%Q
      /\ (-1 < Returns.calculate_max_drawdown (first :: prices) <= 0)%Q
      /\ ((Returns.calculate_max_drawdown (first :: prices) == 0)%Q
          <-> nondecreasing prices))
  /\ (Returns.calculate_max_drawdown [lit 100; lit 50; lit 50 : float] = lit 0
      /\ Statistics.max_drawdown [lit 100; lit 50; lit 50 : float] = lit (-0.5)
      /\ Statistics.max_drawdown [lit 110; lit 88; lit 90 : float] = lit (-0.2)
      /\ ltb (lit (-0.2))
             (Returns.calculate_max_drawdown
                [lit 100; lit 110; lit 88; lit 90 : float]) = true
      /\ Returns.calculate_max_drawdown [lit 5; 0x1p70%float; lit 1] = lit (-1)).
Proof.
  split.
  { intros first prices.
    intros Hfirst Hprices.
    assert (Heq : (Returns.calculate_max_drawdown (first :: prices)
                   == Statistics.max_drawdown prices)%Q).
    { rewrite (max_drawdown_min_from prices Hprices).
      unfold Returns.calculate_max_drawdown, Returns.cumprod.
      set (cumulative :=
             Returns.cumprod_from (lit 1)
               (map (fun r => add (lit 1) r) (Returns.pct_change (first :: prices)))).
      cbv zeta. rewrite filled_drawdown_Q.
      assert (Hratio : List.Forall2 (fun c x => c == x / first)%Q cumulative prices).
      { apply cumulative_is_price_ratio; try assumption.
        change (1 == first / first)%Q. field. lra. }
      assert (Hmin : (min_from 0 (drawdowns_from None cumulative)
                      == min_from 0 (drawdowns_from None prices))%Q).
      { apply min_from_Qeq; [reflexivity|].
        apply (drawdowns_from_scaled first); try assumption. exact I. }
      destruct (forallb (fun d => eqb d (lit 0))
                  (lit 0 :: drawdowns_from None cumulative)) eqn:Hall.
      - rewrite <- Hmin. symmetry. apply min_from_all_zero. exact Hall.
      - exact Hmin. }
    split; [exact Heq|]. rewrite Heq, (max_drawdown_min_from prices Hprices).
    apply lowest_drawdown_range. exact Hprices. }
  repeat split; vm_compute; reflexivity.
Qed.

Lemma calculate_max_drawdown_skips_first_price_witness :
  (Returns.calculate_max_drawdown (200 :: sample_equity)
   == Statistics.max_drawdown sample_equity)%Q.
Proof.
  refine (proj1 (proj1 calculate_max_drawdown_skips_first_price
                   200%Q sample_equity _ _)).
  - reflexivity.
  - repeat constructor.
Defined.

(** ** Returns *)

Lemma pct_change_length {A : Type} `{Arith A} (prices : list A) :
  length (Returns.pct_change prices) = (length prices - 1)%nat.
Proof.
  induction prices as [|a [|b rest] IH]; [reflexivity|reflexivity|].
  change (Returns.pct_change (a :: b :: rest))
    with (sub (div b a) (lit 1) :: Returns.pct_change (b :: rest)).
  cbn [length] in *. rewrite IH. lia.
Qed.

(** X22.  For positive prices [calculate_returns] gives one return per price
    after the first: in exact arithmetic, and on binary64 for positive finite
    doubles, where no return is a NaN and [dropna] drops nothing.  In exact
    arithmetic each return is above -1 and the prices can be rebuilt from
    them: the running product of [1 + return] is the price over the first
    price.  On binary64 a return can round to -1, and the prices are then
    lost: [2^70], 1, 2 gives the returns -1 and 1, whose running product is
    0, 0. *)
Theorem returns_rebuild_prices :
  (forall (first : Q) (prices : list Q),
      (0 < first)%Q -> Forall (fun x => 0 < x)%Q prices ->
      let returns := Returns.calculate_returns (first :: prices) in
      length returns = length prices
      /\ Forall (fun r => -1 < r)%Q returns
      /\ List.Forall2 (fun c x => c == x / first)%Q
           (Returns.cumprod (map (fun r => add (lit 1) r) returns)) prices)
  /\ (forall (first : float) (prices : list float),
        positive_finite first -> List.Forall positive_finite prices ->
        let returns := Returns.calculate_returns (first :: prices) in
        returns = Returns.pct_change (first :: prices)
        /\ length returns = length prices
        /\ List.Forall (fun r => PrimFloat.is_nan r = false) returns)
  /\ (Returns.calculate_returns [0x1p70%float; lit 1; lit 2] = [lit (-1); lit 1]
      /\ Returns.cumprod
           (map (fun r => add (lit 1) r)
                (Returns.calculate_returns [0x1p70%float; lit 1; lit 2]))
         = [lit 0; lit 0]).
Proof.
  split; [|split].
  { intros first prices.
    intros Hfirst Hprices returns. subst returns.
    unfold Returns.calculate_returns. rewrite dropna_Q. split; [|split].
    - rewrite pct_change_length. cbn [length]. lia.
    - assert (Hgen : forall a : Q, (0 < a)%Q ->
                 Forall (fun r => -1 < r)%Q (Returns.pct_change (a :: prices))).
      { induction prices as [|b rest IH]; intros a Ha; [constructor|].
        apply Forall_cons_iff in Hprices. destruct Hprices as [Hb Hrest].
        change (Returns.pct_change (a :: b :: rest))
          with ((b / a - 1)%Q :: Returns.pct_change (b :: rest)).
        constructor; [|apply IH; assumption].
        assert (0 < b / a)%Q by (apply Qlt_shift_div_l; lra). lra. }
      apply Hgen. exact Hfirst.
    - apply cumulative_is_price_ratio; try assumption.
      change (1 == first / first)%Q. field. lra. }
  { intros first prices Hfirst Hprices returns. subst returns.
    destruct (calculate_returns_float first prices Hfirst Hprices) as [Heq Hall].
    split; [exact Heq|]. split; [|exact Hall].
    rewrite Heq, pct_change_length. cbn [length]. lia. }
  split; vm_compute; reflexivity.
Qed.

Lemma returns_rebuild_prices_witness :
  List.Forall2 (fun c x => c == x / 100)%Q
    (Returns.cumprod
       (map (fun r => add (lit 1) r)
            (Returns.calculate_returns (100 :: [110; 88; 90])%Q)))
    [110; 88; 90]%Q
  /\ length (Returns.calculate_returns [lit 100; lit 110; lit 88; lit 90 : float])
     = 3%nat.
Proof.
  split.
  - refine (proj2 (proj2 (proj1 returns_rebuild_prices 100%Q [110; 88; 90]%Q _ _))).
    + reflexivity.
    + repeat constructor.
  - refine (proj1 (proj2 (proj1 (proj2 returns_rebuild_prices)
                            (lit 100) [lit 110; lit 88; lit 90] _ _))).
    + split; reflexivity.
    + repeat constructor.
Defined.

(** ** The tallies of the metrics *)

Section Tallies.
Context {A : Type} `{Arith A}.
Import Advanced.
Local Open Scope num_scope.

Lemma tallied_refl (st : LoopState A) : tallied st st.
Proof.
  exists []. rewrite app_nil_r. cbn. repeat split; try lia. constructor.
Qed.

Lemma closed_trade_booked (bt : t A) (sym : string) (op : OpenPosition A)
    (exit_time : Z) (exit_price : A) (holding : Z) (reason : string) :
  booked (execution bt) (closed_trade bt sym op exit_time exit_price holding reason).
Proof. repeat split. Qed.

(** Recording one more trade. *)
Lemma tallied_record (st0 st : LoopState A) (trade : Trade A)
    (bt' : t A) (position' : option (OpenPosition A)) (high : A) :
  tallied st0 st ->
  booked (execution (self st0)) trade ->
  execution bt' = execution (self st) ->
  tallied st0
    {| self := bt';
       position := position';
       new_trades := (new_trades st ++ [trade])%list;
       wins := if is_win trade then S (wins st) else wins st;
       losses := if is_win trade then losses st else S (losses st);
       gross_profit :=
         if is_win trade then gross_profit st + gross_pnl trade else gross_profit st;
       gross_loss :=
         if is_win trade then gross_loss st
         else gross_loss st + absv (gross_pnl trade);
       capital_high := high |}.
Proof.
  intros (closed & Hnew & Hwins & Hlosses & Hprofit & Hloss & Hex & Hbooked)
    Htrade Hex'.
  exists (closed ++ [trade])%list.
  cbn [self position new_trades wins losses gross_profit gross_loss].
  unfold gross_profit_from, gross_loss_from in *.
  rewrite !List.filter_app, !length_app, !fold_left_app, Hnew, <- Hprofit, <- Hloss,
    app_assoc.
  cbn [List.filter fold_left]. destruct (is_win trade); cbn [negb length].
  - repeat split; try reflexivity; try lia; try congruence.
    apply Forall_app. split; [exact Hbooked|]. constructor; [exact Htrade|constructor].
  - repeat split; try reflexivity; try lia; try congruence.
    apply Forall_app. split; [exact Hbooked|]. constructor; [exact Htrade|constructor].
Qed.

Lemma tallied_step (df : Data.DataFrame A) (f : Data.SignalFunc A) (sym : string)
    (st0 st st' : LoopState A) (i : nat) (bar : Data.Bar A) :
  tallied st0 st ->
  step df f sym st i bar = Ok st' ->
  tallied st0 st'.
Proof.
  intros Hst. unfold step.
  destruct (trade_step df f sym st i bar) as [st1|x] eqn:Htrade; cbn [bind];
    [|discriminate].
  intros [= <-].
  assert (Hst1 : tallied st0 st1).
  { unfold trade_step in Htrade. destruct (position st) as [op|] eqn:Hpos.
    - destruct (String.eqb _ "SELL").
      + destruct (get_slippage_multiplier _ "sell") as [mult|x]; cbn [bind] in Htrade;
          [|discriminate].
        injection Htrade as <-.
        pose proof Hst as (_ & _ & _ & _ & _ & _ & Hex & _).
        apply (tallied_record st0 st
                 (closed_trade (self st) sym op (Data.time bar)
                    (Data.close bar * mult)
                    (Z.of_nat i - Z.of_nat (Data.get_loc (open_time op) df))
                    "signal") _ None _ Hst); [|reflexivity].
        rewrite <- Hex. apply closed_trade_booked.
      + injection Htrade as <-. exact Hst.
    - destruct (_ && _).
      + rewrite buy_multiplier in Htrade. cbn [bind] in Htrade.
        injection Htrade as <-.
        destruct Hst as (closed & Hst). exists closed. exact Hst.
      + injection Htrade as <-. exact Hst. }
  destruct Hst1 as (closed & Hst1). exists closed. unfold mark_step.
  destruct (position st1); exact Hst1.
Qed.

Lemma tallied_loop (df : Data.DataFrame A) (f : Data.SignalFunc A) (sym : string)
    (rows : list (nat * Data.Bar A)) (st0 st st' : LoopState A) :
  tallied st0 st ->
  loop df f sym st rows = Ok st' ->
  tallied st0 st'.
Proof.
  revert st. induction rows as [|[i bar] rows IH]; intros st Hst; cbn [loop].
  - intros [= <-]. exact Hst.
  - destruct (step df f sym st i bar) as [st1|x] eqn:Hstep; cbn [bind];
      [|discriminate].
    apply IH. eapply tallied_step; eassumption.
Qed.

Lemma tallied_close_open (df : Data.DataFrame A) (sym : string)
    (st0 st : LoopState A) :
  tallied st0 st -> tallied st0 (close_open df sym st).
Proof.
  intros Hst. unfold close_open.
  destruct (position st) as [op|], (last df) as [final|]; try exact Hst.
  pose proof Hst as (_ & _ & _ & _ & _ & _ & Hex & _).
  apply (tallied_record st0 st
           (closed_trade (self st) sym op (Data.time final) (Data.close final)
              (Z.of_nat (length df) - Z.of_nat (Data.get_loc (open_time op) df))
              "end_of_data") _ (Some op) _ Hst); [|reflexivity].
  rewrite <- Hex. apply closed_trade_booked.
Qed.
End Tallies.

(** X23.  The tallies of the metrics are functions of the trades the
    metrics list: [winning_trades] counts those with [net_pnl > 0] and
    [losing_trades] all the others; [gross_profit] adds the GROSS P&L of the
    former and [gross_loss] the absolute gross P&L of the latter, so a trade
    that is profitable before commission and not after adds its gain to
    [gross_loss].  Every trade is booked with commission on both legs and
    with a zero [slippage_cost]. *)
Theorem run_metrics_from_trades {A : Type} `{Arith A}
    (bt bt' : Advanced.t A) (df : Data.DataFrame A) (f : Data.SignalFunc A)
    (sym : string) (warmup : nat) (m : Advanced.BacktestMetrics A) :
  Advanced.run bt df f sym warmup = Ok (bt', m) ->
  Advanced.winning_trades m = length (List.filter is_win (Advanced.m_trades m))
  /\ Advanced.losing_trades m
     = length (List.filter (fun t => negb (is_win t)) (Advanced.m_trades m))
  /\ Advanced.m_gross_profit m = gross_profit_from (lit 0) (Advanced.m_trades m)
  /\ Advanced.m_gross_loss m = gross_loss_from (lit 0) (Advanced.m_trades m)
  /\ Forall (booked (Advanced.execution bt)) (Advanced.m_trades m).
Proof.
  unfold Advanced.run.
  destruct (Advanced.loop df f sym (Advanced.start bt) (Data.rows_from warmup df))
    as [st|x] eqn:Hloop; cbn [bind]; [|discriminate].
  pose proof (tallied_close_open df sym _ _
                (tallied_loop df f sym _ _ _ _ (tallied_refl _) Hloop))
    as (closed & Hnew & Hwins & Hlosses & Hprofit & Hloss & _ & Hbooked).
  unfold Advanced.finish.
  destruct (Advanced.return_ratio _) as [ratio|x]; cbn [bind]; [|discriminate].
  intros [= <- <-].
  cbn [Advanced.m_trades Advanced.winning_trades Advanced.losing_trades
       Advanced.m_gross_profit Advanced.m_gross_loss].
  cbn [Advanced.start Advanced.new_trades Advanced.wins Advanced.losses
       Advanced.gross_profit Advanced.gross_loss Advanced.self app Nat.add]
    in Hnew, Hwins, Hlosses, Hprofit, Hloss, Hbooked.
  rewrite Hnew, Hwins, Hlosses, Hprofit, Hloss. repeat split. exact Hbooked.
Qed.

Lemma run_metrics_from_trades_witness :
  exists bt' m,
    Advanced.run (Advanced.init (lit 100000) (lit 0.02) None)
      rising_prices buy_sell_hold "STOCK" 0 = Ok (bt', m)
    /\ Advanced.winning_trades m = length (List.filter is_win (Advanced.m_trades m))
    /\ Advanced.m_gross_profit m = gross_profit_from (lit 0) (Advanced.m_trades m).
Proof.
  destruct (Advanced.run (Advanced.init (lit 100000) (lit 0.02) None)
              rising_prices buy_sell_hold "STOCK" 0) as [[bt' m]|x] eqn:Hrun;
    [|vm_compute in Hrun; discriminate].
  exists bt', m. split; [reflexivity|].
  pose proof (run_metrics_from_trades _ _ _ _ _ _ _ Hrun)
    as (Hwins & _ & Hprofit & _).
  split; [exact Hwins|exact Hprofit].
Defined.

(** ** The windows of the walk-forward analysis *)

Section WalkForwardWindows.
Context {A : Type} `{Arith A}.
Import Validator.






End WalkForwardWindows.


